(** * ObservableJS: the instrumented reactive core

    A shallow embedding of
      - [packages/core/src/observable.js]   (class Observable),
      - [packages/core/src/computed.js]     (function computed),
      - [observability.js]                  (the ObservabilitySystem singleton),
      - [packages/components/src/component.js] (class Component, [mount]
        apart),
    followed by the properties of the specification that concern them.

    JavaScript objects are mutable and shared, so they live in a store
    ([World]): Observables and components are addressed by their index in a
    heap, the registry maps identifiers to addresses, and every method is a
    function on the store.  The host (the random generator, the two clocks,
    the stack-trace text, the JSON text of opaque objects) is a set of oracles
    read through counters, so that a property proved for every [World] holds
    for every run of the host. *)

From Stdlib Require Import ZArith QArith Qminmax Lqa String Ascii List DecimalString
  DecimalNat.
From stdpp Require Import base option list gmap strings sorting.

Local Open Scope string_scope.
Local Open Scope list_scope.
Local Open Scope Z_scope.

(** ** JavaScript values *)

(** Functions have an identity.  Two kinds of function reach the core: user
    code, and the arrow function that [computed] subscribes to its [idx]-th
    dependency (computed.js, line 119), one fresh closure per dependency. *)
Inductive JsFunction :=
| UserFunction (k : nat)
| DependencyListener (target idx : nat).

(** Numbers are the integers, NaN and the negative zero; the timing samples,
    which are fractional, are kept apart as rationals. *)
Inductive JsValue :=
| VUndefined
| VNull
| VBoolean (b : bool)
| VNumber (z : Z)
| VNaN
| VNegativeZero
| VString (s : string)
| VFunction (f : JsFunction)
| VObject (ref : nat).

#[global] Instance JsFunction_eq_dec : EqDecision JsFunction.
Proof. solve_decision. Defined.

#[global] Instance JsValue_eq_dec : EqDecision JsValue.
Proof. solve_decision. Defined.

(** [Object.is]: the same primitive or the same reference.  NaN is itself and
    the two zeros differ, which the constructors already say. *)
Definition Object_is (a b : JsValue) : bool := bool_decide (a = b).


(** A plain object literal, as its properties in insertion order. *)
Definition JsObject := list (string * JsValue).

(** Exceptions are [Error] instances, as [recordError] documents its
    argument. *)
Record JsError := mkError {
  error_name : string;
  message : string;
  stack : string
}.

Inductive completion (A : Type) :=
| Normal (a : A)
| Throw (e : JsError).
Arguments Normal {A} a.
Arguments Throw {A} e.

(** What [JSON.stringify] makes of an opaque object: a text, [undefined], or
    a TypeError (a cycle, a BigInt). *)
Inductive JsonOutcome :=
| JsonText (s : string)
| JsonUndefined
| JsonThrows (e : JsError).

(** ** Strings *)

Definition Z_toString (z : Z) : string := NilZero.string_of_int (Z.to_int z).
Definition nat_toString (n : nat) : string := NilEmpty.string_of_uint (Nat.to_uint n).

Definition quote : ascii := ascii_of_nat 34.
Definition backslash : ascii := ascii_of_nat 92.

Definition hex_digit (n : nat) : ascii :=
  ascii_of_nat (if (n <? 10)%nat then 48 + n else 87 + n)%nat.

(** QuoteJSONString, on code units below 128. *)
Fixpoint JSON_escape (s : string) : string :=
  match s with
  | EmptyString => EmptyString
  | String c rest =>
      let n := nat_of_ascii c in
      let tail := JSON_escape rest in
      if (n =? 8)%nat then String backslash (String "b" tail)
      else if (n =? 9)%nat then String backslash (String "t" tail)
      else if (n =? 10)%nat then String backslash (String "n" tail)
      else if (n =? 12)%nat then String backslash (String "f" tail)
      else if (n =? 13)%nat then String backslash (String "r" tail)
      else if (n =? 34)%nat then String backslash (String quote tail)
      else if (n =? 92)%nat then String backslash (String backslash tail)
      else if (n <? 32)%nat then
        String backslash (String "u" (String "0" (String "0"
          (String (hex_digit (n / 16)) (String (hex_digit (n mod 16)) tail)))))
      else String c tail
  end.

Definition JSON_quote (s : string) : string :=
  String quote (JSON_escape s ++ String quote EmptyString).

(** [s.substring(0, n)] *)
Definition substring_to (n : nat) (s : string) : string := String.substring 0 n s.







(** ** Arrays, Sets and Maps *)

Section Containers.
Context {A : Type}.

(** [arr.slice(start)] *)
Definition slice_from (start : Z) (arr : list A) : list A :=
  let len := Z.of_nat (length arr) in
  let k := if start <? 0 then Z.max (len + start) 0 else Z.min start len in
  drop (Z.to_nat k) arr.

(** The idiom of every bounded log of the system:
    [arr.push(x); if (arr.length > cap) arr = arr.slice(-cap)] *)
Definition push_capped (cap : Z) (arr : list A) (x : A) : list A :=
  let pushed := arr ++ [x] in
  if cap <? Z.of_nat (length pushed) then slice_from (- cap) pushed else pushed.



(** A [Map] with string keys: entries in insertion order, [set] on a
    present key keeps its place. *)
Fixpoint Map_set (key : string) (v : A) (m : list (string * A)) : list (string * A) :=
  match m with
  | [] => [(key, v)]
  | (k, old) :: rest =>
      if String.eqb k key then (k, v) :: rest else (k, old) :: Map_set key v rest
  end.

Fixpoint Map_get (key : string) (m : list (string * A)) : option A :=
  match m with
  | [] => None
  | (k, v) :: rest => if String.eqb k key then Some v else Map_get key rest
  end.
End Containers.

(** A [Set] of functions is the list of its entries in insertion order;
    [delete] leaves a hole ([None]) in place of the entry, and [forEach]
    walks the list by index, which is how it sees the additions and the
    removals made while it runs. *)
Definition JsSet := list (option JsFunction).

Definition Set_has (f : JsFunction) (s : JsSet) : bool :=
  bool_decide (Some f ∈ s).

Definition Set_add (f : JsFunction) (s : JsSet) : JsSet :=
  if Set_has f s then s else s ++ [Some f].

Definition Set_delete (f : JsFunction) (s : JsSet) : JsSet :=
  (fun entry => if decide (entry = Some f) then None else entry) <$> s.

(** The live entries, in insertion order. *)
Definition Set_entries (s : JsSet) : list JsFunction := omap id s.

Definition Set_size (s : JsSet) : nat := length (Set_entries s).

(** ** The data model *)

(** An entry of [_metrics.history] (observable.js, lines 45 and 70). *)
Inductive HistoryEntry :=
| ReadEntry (timestamp : Z) (trace : string)
| WriteEntry (timestamp : Z) (oldValue newValue : JsValue) (trace : string).

(** [Observable._metrics] *)
Record ObservableMetrics := mkObservableMetrics {
  reads : Z;
  writes : Z;
  subscriptions : Z;
  computeTime : Q;
  lastAccessed : Z;
  history : list HistoryEntry
}.

(** [result._computeMetrics] of a computed *)
Record ComputeMetrics := mkComputeMetrics {
  totalComputations : Z;
  lastComputeTime : Q;
  averageComputeTime : Q;
  computeErrors : Z
}.

(** What [subscribe] returns: the closure that removes [callback] from the
    subscribers of [subscribed_to] (observable.js, line 118). *)
Record Unsubscriber := mkUnsubscriber {
  subscribed_to : nat;
  callback : JsFunction
}.

(** What [computed] adds to its result Observable: the two fields it sets
    and what its closures capture ([computeFn], [deps], [name],
    [unsubscribers]).  A dependency is [None] when it fails the test of
    line 114; its unsubscriber is then the empty function. *)
Record Computed := mkComputed {
  _computeName : string;
  _computeMetrics : ComputeMetrics;
  computeFn : nat;
  deps : list (option nat);
  closure_name : string;
  unsubscribers : list (option Unsubscriber)
}.

Record Observable := mkObservable {
  _id : string;
  _value : JsValue;
  _subscribers : JsSet;
  _metrics : ObservableMetrics;
  _computed : option Computed
}.

(** [Component._metrics] *)
Record ComponentMetrics := mkComponentMetrics {
  renders : Z;
  renderTime : Q;
  lastRenderTime : Q;
  updates : Z;
  updateTime : Q;
  createdAt : Z;
  mountedAt : option Z
}.

Record Component := mkComponent {
  component_id : string;
  constructor_name : string;
  _renderId : Z;
  _mounted : bool;
  component_metrics : ComponentMetrics
}.

(** An element of a detailed series.  The source spreads the tags into the
    sample object; they are kept here as the object they came in. *)
Record Sample := mkSample {
  sample_value : Q;
  sample_timestamp : Z;
  sample_tags : JsObject
}.

Record ErrorRecord := mkErrorRecord {
  error_type : string;
  error_message : string;
  error_stack : string;
  context : JsObject;
  error_timestamp : Z
}.

Inductive IssueDetails :=
| SlowComputation (computed_name : string) (time : Q) (preview : string)
| SlowRender (component : string) (time : Q) (renderId : Z) (id : string)
| OtherIssue (props : JsObject).

Record PerformanceIssue := mkIssue {
  issue : IssueDetails;
  issue_timestamp : Z
}.

Record MemorySample := mkMemorySample {
  usedJSHeapSize : Z;
  totalJSHeapSize : Z;
  memory_timestamp : Z
}.

(** [ObservabilitySystem._metrics.global] *)
Record GlobalMetrics := mkGlobal {
  totalReads : Z;
  totalWrites : Z;
  totalRenders : Z;
  slowRenders : Z;
  memoryUsage : list MemorySample;
  performanceIssues : list PerformanceIssue;
  errors : list ErrorRecord
}.

(** [ObservabilitySystem._metrics] *)
Record Metrics := mkMetrics {
  global : GlobalMetrics;
  detailed : gmap string (list Sample)
}.

(** The singleton.  The two registries hold references (heap addresses). *)
Record ObservabilitySystem := mkSystem {
  _observables : list (string * nat);
  _components : list (string * nat);
  system_metrics : Metrics;
  isDetailedMode : bool;
  samplingRate : Q;
  maxHistoryItems : Z;
  maxIssues : Z;
  maxErrors : Z
}.

(** The host: each oracle is read at its counter, which the read advances. *)
Record Host := mkHost {
  Math_random : nat -> Q;
  random_calls : nat;
  Date_now : nat -> Z;
  date_calls : nat;
  performance_now : nat -> Q;
  performance_calls : nat;
  Error_stack : string;
  JSON_of_object : nat -> JsonOutcome;
  window_defined : bool;
  performance_memory : option (Z * Z)
}.

Record World := mkWorld {
  heap : list Observable;
  component_heap : list Component;
  system : ObservabilitySystem;
  nextId : nat;
  host : Host
}.

(** *** Field updates *)

Definition with_heap (h : list Observable) (w : World) : World :=
  mkWorld h (component_heap w) (system w) (nextId w) (host w).
Definition with_component_heap (h : list Component) (w : World) : World :=
  mkWorld (heap w) h (system w) (nextId w) (host w).
Definition with_system (s : ObservabilitySystem) (w : World) : World :=
  mkWorld (heap w) (component_heap w) s (nextId w) (host w).
Definition with_nextId (n : nat) (w : World) : World :=
  mkWorld (heap w) (component_heap w) (system w) n (host w).
Definition with_host (h : Host) (w : World) : World :=
  mkWorld (heap w) (component_heap w) (system w) (nextId w) h.

Definition with_observables (r : list (string * nat)) (s : ObservabilitySystem)
  : ObservabilitySystem :=
  mkSystem r (_components s) (system_metrics s) (isDetailedMode s) (samplingRate s)
           (maxHistoryItems s) (maxIssues s) (maxErrors s).
Definition with_components (r : list (string * nat)) (s : ObservabilitySystem)
  : ObservabilitySystem :=
  mkSystem (_observables s) r (system_metrics s) (isDetailedMode s) (samplingRate s)
           (maxHistoryItems s) (maxIssues s) (maxErrors s).
Definition with_metrics (m : Metrics) (s : ObservabilitySystem) : ObservabilitySystem :=
  mkSystem (_observables s) (_components s) m (isDetailedMode s) (samplingRate s)
           (maxHistoryItems s) (maxIssues s) (maxErrors s).
Definition with_global (g : GlobalMetrics) (s : ObservabilitySystem) : ObservabilitySystem :=
  with_metrics (mkMetrics g (detailed (system_metrics s))) s.
Definition with_detailed (d : gmap string (list Sample)) (s : ObservabilitySystem)
  : ObservabilitySystem :=
  with_metrics (mkMetrics (global (system_metrics s)) d) s.

Definition with_errors (l : list ErrorRecord) (g : GlobalMetrics) : GlobalMetrics :=
  mkGlobal (totalReads g) (totalWrites g) (totalRenders g) (slowRenders g)
           (memoryUsage g) (performanceIssues g) l.
Definition with_performanceIssues (l : list PerformanceIssue) (g : GlobalMetrics) : GlobalMetrics :=
  mkGlobal (totalReads g) (totalWrites g) (totalRenders g) (slowRenders g)
           (memoryUsage g) l (errors g).
Definition with_slowRenders (n : Z) (g : GlobalMetrics) : GlobalMetrics :=
  mkGlobal (totalReads g) (totalWrites g) (totalRenders g) n
           (memoryUsage g) (performanceIssues g) (errors g).
Definition with_totals (r wr rn : Z) (g : GlobalMetrics) : GlobalMetrics :=
  mkGlobal r wr rn (slowRenders g) (memoryUsage g) (performanceIssues g) (errors g).

Definition with_id (id : string) (o : Observable) : Observable :=
  mkObservable id (_value o) (_subscribers o) (_metrics o) (_computed o).
Definition with_value (v : JsValue) (o : Observable) : Observable :=
  mkObservable (_id o) v (_subscribers o) (_metrics o) (_computed o).
Definition with_subscribers (s : JsSet) (o : Observable) : Observable :=
  mkObservable (_id o) (_value o) s (_metrics o) (_computed o).
Definition with_observable_metrics (m : ObservableMetrics) (o : Observable) : Observable :=
  mkObservable (_id o) (_value o) (_subscribers o) m (_computed o).
Definition with_computed (c : option Computed) (o : Observable) : Observable :=
  mkObservable (_id o) (_value o) (_subscribers o) (_metrics o) c.

Definition with_reads (n : Z) (m : ObservableMetrics) : ObservableMetrics :=
  mkObservableMetrics n (writes m) (subscriptions m) (computeTime m) (lastAccessed m) (history m).
Definition with_writes (n : Z) (m : ObservableMetrics) : ObservableMetrics :=
  mkObservableMetrics (reads m) n (subscriptions m) (computeTime m) (lastAccessed m) (history m).
Definition with_subscriptions (n : Z) (m : ObservableMetrics) : ObservableMetrics :=
  mkObservableMetrics (reads m) (writes m) n (computeTime m) (lastAccessed m) (history m).
Definition with_computeTime (t : Q) (m : ObservableMetrics) : ObservableMetrics :=
  mkObservableMetrics (reads m) (writes m) (subscriptions m) t (lastAccessed m) (history m).
Definition with_lastAccessed (t : Z) (m : ObservableMetrics) : ObservableMetrics :=
  mkObservableMetrics (reads m) (writes m) (subscriptions m) (computeTime m) t (history m).
Definition with_history (h : list HistoryEntry) (m : ObservableMetrics) : ObservableMetrics :=
  mkObservableMetrics (reads m) (writes m) (subscriptions m) (computeTime m) (lastAccessed m) h.

Definition with_computeMetrics (m : ComputeMetrics) (c : Computed) : Computed :=
  mkComputed (_computeName c) m (computeFn c) (deps c) (closure_name c) (unsubscribers c).
Definition with_unsubscribers (u : list (option Unsubscriber)) (c : Computed) : Computed :=
  mkComputed (_computeName c) (_computeMetrics c) (computeFn c) (deps c) (closure_name c) u.

(** ** The host *)

(** [Math.random()] *)
Definition random (w : World) : Q * World :=
  let h := host w in
  (Math_random h (random_calls h),
   with_host (mkHost (Math_random h) (S (random_calls h)) (Date_now h) (date_calls h)
                     (performance_now h) (performance_calls h) (Error_stack h)
                     (JSON_of_object h) (window_defined h) (performance_memory h)) w).

(** [Date.now()] *)
Definition now (w : World) : Z * World :=
  let h := host w in
  (Date_now h (date_calls h),
   with_host (mkHost (Math_random h) (random_calls h) (Date_now h) (S (date_calls h))
                     (performance_now h) (performance_calls h) (Error_stack h)
                     (JSON_of_object h) (window_defined h) (performance_memory h)) w).

(** [performance.now()] *)
Definition perf_now (w : World) : Q * World :=
  let h := host w in
  (performance_now h (performance_calls h),
   with_host (mkHost (Math_random h) (random_calls h) (Date_now h) (date_calls h)
                     (performance_now h) (S (performance_calls h)) (Error_stack h)
                     (JSON_of_object h) (window_defined h) (performance_memory h)) w).

Definition TypeError (w : World) (msg : string) : JsError :=
  mkError "TypeError" msg (Error_stack (host w)).

Definition new_Error (w : World) (msg : string) : JsError :=
  mkError "Error" msg (Error_stack (host w)).

(** [JSON.stringify(v)]; [None] is [undefined]. *)
Definition JSON_stringify (w : World) (v : JsValue) : completion (option string) :=
  match v with
  | VUndefined | VFunction _ => Normal None
  | VNull | VNaN => Normal (Some "null")
  | VBoolean true => Normal (Some "true")
  | VBoolean false => Normal (Some "false")
  | VNumber z => Normal (Some (Z_toString z))
  | VNegativeZero => Normal (Some "0")
  | VString s => Normal (Some (JSON_quote s))
  | VObject ref =>
      match JSON_of_object (host w) ref with
      | JsonText s => Normal (Some s)
      | JsonUndefined => Normal None
      | JsonThrows e => Throw e
      end
  end.

(** [JSON.stringify(v).substring(0, n)]: [undefined] has no [substring]. *)
Definition JSON_preview (n : nat) (w : World) (v : JsValue) : completion string :=
  match JSON_stringify w v with
  | Normal (Some text) => Normal (substring_to n text)
  | Normal None =>
      Throw (TypeError w "Cannot read properties of undefined (reading 'substring')")
  | Throw e => Throw e
  end.

(** ** Snapshots *)

(** The object [Observable.getMetrics] returns; for a computed, the override
    of computed.js (line 90) adds [name] and [compute]. *)
Record ObservableSnapshot := mkObservableSnapshot {
  snapshot_id : string;
  snapshot_value : string;
  snapshot_metrics : ObservableMetrics;
  snapshot_compute : option (string * ComputeMetrics)
}.

(** [Observable.getMetrics] (observable.js, line 128) *)
Definition Observable_getMetrics (w : World) (this : Observable)
  : completion ObservableSnapshot :=
  match JSON_preview 100 w (_value this) with
  | Normal preview =>
      Normal (mkObservableSnapshot (_id this) preview (_metrics this)
                ((fun c => (_computeName c, _computeMetrics c)) <$> _computed this))
  | Throw e => Throw e
  end.

(** [obs.getMetrics()] on a registry entry; a dangling entry has no such
    method. *)
Definition getMetrics_at (w : World) (obs : nat) : completion ObservableSnapshot :=
  match heap w !! obs with
  | Some this => Observable_getMetrics w this
  | None => Throw (TypeError w "obs.getMetrics is not a function")
  end.

(** [Component.getMetrics] (component.js, line 193) *)
Definition Component_getMetrics_at (w : World) (comp : nat) : completion Component :=
  match component_heap w !! comp with
  | Some this => Normal this
  | None => Throw (TypeError w "comp.getMetrics is not a function")
  end.

(** ** ObservabilitySystem *)

Definition Qgt_bool (a b : Q) : bool := negb (Qle_bool a b).

(** [generateId] (line 10) *)
Definition generateId (prefix : string) (w : World) : string * World :=
  (prefix +:+ "_" +:+ nat_toString (nextId w), with_nextId (S (nextId w)) w).

(** [register] (line 45) *)
Definition register (observable : nat) (w : World) : string * World :=
  let (id, w) := generateId "obs" w in
  (id, with_system (with_observables (Map_set id observable (_observables (system w)))
                                     (system w)) w).

(** [registerComponent] (line 56) *)
Definition registerComponent (component : nat) (w : World) : string * World :=
  let (id, w) := generateId "comp" w in
  (id, with_system (with_components (Map_set id component (_components (system w)))
                                    (system w)) w).

(** [recordMetric] (line 68) *)
Definition recordMetric (name : string) (value : Q) (tags : JsObject) (w : World) : World :=
  let (draw, w) := random w in
  if Qgt_bool draw (samplingRate (system w)) then w
  else
    let (timestamp, w) := now w in
    let this := system w in
    let series := default [] (detailed (system_metrics this) !! name) in
    let series := push_capped (maxHistoryItems this) series (mkSample value timestamp tags) in
    with_system (with_detailed (<[name := series]> (detailed (system_metrics this))) this) w.

(** [recordError] (line 94) *)
Definition recordError (type : string) (error : JsError) (ctx : JsObject) (w : World) : World :=
  let (timestamp, w) := now w in
  let this := system w in
  let g := global (system_metrics this) in
  let record := mkErrorRecord type (message error) (stack error) ctx timestamp in
  with_system (with_global (with_errors (push_capped (maxErrors this) (errors g) record) g)
                           this) w.

(** [reportPerformanceIssue] (line 113); the warning goes to the console. *)
Definition reportPerformanceIssue (details : IssueDetails) (w : World) : World :=
  let (timestamp, w) := now w in
  let this := system w in
  let g := global (system_metrics this) in
  let fullIssue := mkIssue details timestamp in
  with_system
    (with_global
       (with_performanceIssues (push_capped (maxIssues this) (performanceIssues g) fullIssue) g)
       this) w.

(** [x || 0] on a number *)
Definition or_zero (x : Z) : Z := if x =? 0 then 0 else x.

(** The body of the first [forEach] of [updateGlobalCounters] (line 171). *)
Definition count_observable (acc : Z * Z * World) (entry : string * nat) : Z * Z * World :=
  let '(reads_so_far, writes_so_far, w) := acc in
  match getMetrics_at w (snd entry) with
  | Normal metrics =>
      (reads_so_far + or_zero (reads (snapshot_metrics metrics)),
       writes_so_far + or_zero (writes (snapshot_metrics metrics)), w)
  | Throw error => (reads_so_far, writes_so_far, recordError "metricsError" error [] w)
  end.

(** The body of the second (line 181). *)
Definition count_component (acc : Z * World) (entry : string * nat) : Z * World :=
  let '(renders_so_far, w) := acc in
  match Component_getMetrics_at w (snd entry) with
  | Normal metrics => (renders_so_far + or_zero (renders (component_metrics metrics)), w)
  | Throw error => (renders_so_far, recordError "metricsError" error [] w)
  end.

(** [updateGlobalCounters] (line 166) *)
Definition updateGlobalCounters (w : World) : World :=
  let '(total_reads, total_writes, w) :=
    fold_left count_observable (_observables (system w)) (0, 0, w) in
  let '(total_renders, w) := fold_left count_component (_components (system w)) (0, w) in
  let this := system w in
  with_system
    (with_global (with_totals total_reads total_writes total_renders
                              (global (system_metrics this))) this) w.


(** [startPeriodicCollection] (line 136) starts a timer only in a browser;
    the timer then runs [collect] at each tick. *)
Definition startPeriodicCollection (w : World) : bool := window_defined (host w).

(** The object [getMetrics] returns. *)
Record MetricsSnapshot := mkMetricsSnapshot {
  snapshot_global : GlobalMetrics;
  snapshot_detailed : option (gmap string (list Sample))
}.

(** [getMetrics] (line 200) *)
Definition getMetrics (includeDetailed : bool) (w : World) : MetricsSnapshot * World :=
  let w := updateGlobalCounters w in
  let this := system w in
  (mkMetricsSnapshot (global (system_metrics this))
     (if includeDetailed || isDetailedMode this
      then Some (detailed (system_metrics this)) else None), w).












Definition empty_metrics : Metrics := mkMetrics (mkGlobal 0 0 0 0 [] [] []) ∅.

(** [resetMetrics] (line 303) *)
Definition resetMetrics (w : World) : World :=
  with_system (with_metrics empty_metrics (system w)) w.



(** The singleton as the module creates it (lines 17 to 38), in a host. *)
Definition initial_system : ObservabilitySystem :=
  mkSystem [] [] empty_metrics false 1 1000 100 50.

Definition initial_world (h : Host) : World := mkWorld [] [] initial_system 1%nat h.

(** ** Computations on the store *)

(** A method runs on the store and completes normally or abruptly; [None] is
    a run that does not complete within its bound (or dereferences an
    address outside the heap, which no run of the program does). *)
Definition M (A : Type) : Type := World -> option (completion A * World).

Definition ret {A} (a : A) : M A := fun w => Some (Normal a, w).
Definition throw {A} (e : JsError) : M A := fun w => Some (Throw e, w).
Definition diverge {A} : M A := fun _ => None.

Definition bind {A B} (m : M A) (k : A -> M B) : M B :=
  fun w =>
    match m w with
    | Some (Normal a, w') => k a w'
    | Some (Throw e, w') => Some (Throw e, w')
    | None => None
    end.

(** [try { body } catch (error) { handler }] *)
Definition try_catch {A} (body : M A) (handler : JsError -> M A) : M A :=
  fun w =>
    match body w with
    | Some (Throw e, w') => handler e w'
    | other => other
    end.

(** The completion of [body], reified. *)
Definition attempt {A} (body : M A) : M (completion A) :=
  fun w =>
    match body w with
    | Some (c, w') => Some (Normal c, w')
    | None => None
    end.

Definition effect (f : World -> World) : M unit := fun w => Some (Normal tt, f w).
Definition read {A} (f : World -> A * World) : M A :=
  fun w => let (a, w') := f w in Some (Normal a, w').
Definition inspect {A} (f : World -> A) : M A := fun w => Some (Normal (f w), w).
Definition lift {A} (f : World -> completion A * World) : M A := fun w => Some (f w).

Declare Scope js_scope.
Delimit Scope js_scope with js.
Notation "x <- m ;; k" := (bind m (fun x => k))
  (at level 100, m at next level, right associativity) : js_scope.
Notation "m ;; k" := (bind m (fun _ => k))
  (at level 100, right associativity) : js_scope.
Local Open Scope js_scope.

(** [this], for the object at address [self]. *)
Definition this_observable (self : nat) : M Observable :=
  fun w =>
    match heap w !! self with
    | Some this => Some (Normal this, w)
    | None => None
    end.

Definition update (self : nat) (f : Observable -> Observable) : M unit :=
  fun w =>
    match heap w !! self with
    | Some this => Some (Normal tt, with_heap (<[self := f this]> (heap w)) w)
    | None => None
    end.

Definition update_metrics (self : nat) (f : ObservableMetrics -> ObservableMetrics) : M unit :=
  update self (fun this => with_observable_metrics (f (_metrics this)) this).

(** ** Observable *)

(** [new Observable(initialValue)] (observable.js, line 16) *)
Definition new_Observable (initialValue : JsValue) (w : World) : nat * World :=
  let (created, w) := now w in
  let this := length (heap w) in
  let w :=
    with_heap (heap w ++ [mkObservable "" initialValue []
                            (mkObservableMetrics 0 0 0 0 created []) None]) w in
  let (id, w) := register this w in
  (this, with_heap (alter (with_id id) this (heap w)) w).

(** [get value] (line 36) *)
Definition get_value (self : nat) : M JsValue :=
  startTime <- read perf_now ;;
  update_metrics self (fun m => with_reads (reads m + 1) m) ;;
  accessed <- read now ;;
  update_metrics self (with_lastAccessed accessed) ;;
  detailedMode <- inspect (fun w => isDetailedMode (system w)) ;;
  (if detailedMode : bool then
     trace <- inspect (fun w => Error_stack (host w)) ;;
     timestamp <- read now ;;
     update_metrics self (fun m => with_history (history m ++ [ReadEntry timestamp trace]) m)
   else ret tt) ;;
  this <- this_observable self ;;
  let value := _value this in
  endTime <- read perf_now ;;
  effect (recordMetric "readTime" (endTime - startTime) []) ;;
  ret value.

(** One call made by a notification: who was called, with what, and how the
    call completed. *)
Record Invocation := mkInvocation {
  subscriber : JsFunction;
  argument : JsValue;
  outcome : completion unit
}.

Section Notification.
(** How a function is called: see [invoke] below. *)
Variable invoke : JsFunction -> JsValue -> M unit.

(** [this._subscribers.forEach(subscriber => { try ... catch ... })]
    (line 86), from entry [index] on.  The entries are read again at each
    step; [steps] bounds the walk. *)
Fixpoint forEach_subscriber (steps : nat) (self : nat) (newValue : JsValue) (index : nat)
  : M (list Invocation) :=
  match steps with
  | O => diverge
  | S steps =>
      this <- this_observable self ;;
      match _subscribers this !! index with
      | None => ret []
      | Some None => forEach_subscriber steps self newValue (S index)
      | Some (Some f) =>
          result <- attempt (invoke f newValue) ;;
          match result with
          | Normal _ => ret tt
          | Throw error => effect (recordError "subscriberError" error [])
          end ;;
          rest <- forEach_subscriber steps self newValue (S index) ;;
          ret (mkInvocation f newValue result :: rest)
      end
  end.

(** [set value] (line 63).  The setter returns nothing; the model returns
    the calls its notification made, in order. *)
Definition set_value_with (steps : nat) (self : nat) (newValue : JsValue)
  : M (list Invocation) :=
  startTime <- read perf_now ;;
  update_metrics self (fun m => with_writes (writes m + 1) m) ;;
  detailedMode <- inspect (fun w => isDetailedMode (system w)) ;;
  (if detailedMode : bool then
     trace <- inspect (fun w => Error_stack (host w)) ;;
     timestamp <- read now ;;
     this <- this_observable self ;;
     update_metrics self (fun m =>
       with_history (history m ++ [WriteEntry timestamp (_value this) newValue trace]) m)
   else ret tt) ;;
  this <- this_observable self ;;
  calls <-
    (if Object_is (_value this) newValue then ret []
     else
       update self (with_value newValue) ;;
       updateStartTime <- read perf_now ;;
       calls <- forEach_subscriber steps self newValue 0 ;;
       updateEndTime <- read perf_now ;;
       effect (recordMetric "updateTime" (updateEndTime - updateStartTime) []) ;;
       this <- this_observable self ;;
       effect (recordMetric "subscriberCount"
                 (inject_Z (Z.of_nat (Set_size (_subscribers this)))) []) ;;
       ret calls) ;;
  endTime <- read perf_now ;;
  effect (recordMetric "writeTime" (endTime - startTime) []) ;;
  ret calls.
End Notification.

(** [subscribe] (line 109) *)
Definition subscribe (self : nat) (listener : JsValue) : M Unsubscriber :=
  match listener with
  | VFunction f =>
      update_metrics self (fun m => with_subscriptions (subscriptions m + 1) m) ;;
      update self (fun this => with_subscribers (Set_add f (_subscribers this)) this) ;;
      ret (mkUnsubscriber self f)
  | _ =>
      error <- inspect (fun w => new_Error w "Subscriber must be a function") ;;
      throw error
  end.

(** A call of the function that [subscribe] returned (line 118). *)
Definition unsubscribe (u : Unsubscriber) : M unit :=
  update (subscribed_to u)
         (fun this => with_subscribers (Set_delete (callback u) (_subscribers this)) this) ;;
  update_metrics (subscribed_to u) (fun m => with_subscriptions (subscriptions m - 1) m).

(** [silentSet] (line 141) *)
Definition silentSet (self : nat) (value : JsValue) : M unit :=
  update self (with_value value).

(** ** Computed *)

Definition this_computed (self : nat) : M Computed :=
  this <- this_observable self ;;
  match _computed this with
  | Some c => ret c
  | None => diverge
  end.

Definition update_computeMetrics (self : nat) (f : ComputeMetrics -> ComputeMetrics) : M unit :=
  update self (fun this =>
    with_computed ((fun c => with_computeMetrics (f (_computeMetrics c)) c) <$> _computed this)
                  this).

(** [const { lazy = false, name = 'computed' } = options] *)
Record ComputedOptions := mkComputedOptions {
  lazy : option bool;
  name : option string
}.

Section Program.
(** User code: function [k], applied to its arguments, runs on the store
    and returns or throws. *)
Variable user : nat -> list JsValue -> World -> completion JsValue * World.

Section Computation.
Variable invoke : JsFunction -> JsValue -> M unit.
Variable steps : nat.

(** [performComputation] (computed.js, line 45), for the computed at
    address [result]. *)
Definition performComputation_with (result : nat) : M JsValue :=
  computeStart <- read perf_now ;;
  update_computeMetrics result (fun m =>
    mkComputeMetrics (totalComputations m + 1) (lastComputeTime m)
                     (averageComputeTime m) (computeErrors m)) ;;
  try_catch
    (c <- this_computed result ;;
     newValue <- lift (user (computeFn c) []) ;;
     set_value_with invoke steps result newValue ;;
     computeEnd <- read perf_now ;;
     let thisComputeTime := (computeEnd - computeStart)%Q in
     update_computeMetrics result (fun m =>
       mkComputeMetrics (totalComputations m) thisComputeTime
         ((averageComputeTime m * inject_Z (totalComputations m - 1) + thisComputeTime)
          / inject_Z (totalComputations m))
         (computeErrors m)) ;;
     update_metrics result (fun m => with_computeTime (computeTime m + thisComputeTime) m) ;;
     effect (recordMetric "derivedComputeTime" thisComputeTime []) ;;
     (if Qgt_bool thisComputeTime 10 then
        c <- this_computed result ;;
        preview <- (fun w => Some (JSON_preview 50 w newValue, w)) ;;
        effect (reportPerformanceIssue
                  (SlowComputation (_computeName c) thisComputeTime preview))
      else ret tt) ;;
     ret newValue)
    (fun error =>
       update_computeMetrics result (fun m =>
         mkComputeMetrics (totalComputations m) (lastComputeTime m)
                          (averageComputeTime m) (computeErrors m + 1)) ;;
       c <- this_computed result ;;
       effect (recordError "computeError" error
                 [("name", VString (_computeName c));
                  ("dependencies", VNumber (Z.of_nat (length (deps c))))]) ;;
       throw error).

(** The listener of line 119: [() => { try { performComputation() }
    catch (error) {} }]. *)
Definition dependency_listener (result : nat) : M unit :=
  try_catch (performComputation_with result ;; ret tt) (fun _ => ret tt).
End Computation.

(** A call [f(arg)].  A dependency listener runs the computation, which
    writes, which calls listeners: [fuel] bounds the nesting of calls and
    the length of each notification. *)
Fixpoint invoke (fuel : nat) (f : JsFunction) (arg : JsValue) : M unit :=
  match fuel with
  | O => diverge
  | S fuel =>
      match f with
      | UserFunction k => lift (user k [arg]) ;; ret tt
      | DependencyListener result _ => dependency_listener (invoke fuel) fuel result
      end
  end.

(** [observable.value = newValue] *)
Definition set_value (fuel : nat) (self : nat) (newValue : JsValue) : M (list Invocation) :=
  set_value_with (invoke fuel) fuel self newValue.

(** [result.recompute()] (line 129) *)
Definition recompute (fuel : nat) (result : nat) : M JsValue :=
  performComputation_with (invoke fuel) fuel result.

(** [deps.map(dep => ...)] (line 113), from index [idx] on. *)
Fixpoint subscribe_dependencies (result : nat) (idx : nat) (dependencies : list (option nat))
  : M (list (option Unsubscriber)) :=
  match dependencies with
  | [] => ret []
  | None :: rest =>
      others <- subscribe_dependencies result (S idx) rest ;;
      ret (None :: others)
  | Some dep :: rest =>
      u <- subscribe dep (VFunction (DependencyListener result idx)) ;;
      others <- subscribe_dependencies result (S idx) rest ;;
      ret (Some u :: others)
  end.

(** [computed(computeFn, deps, options)] (line 18).  [fn] is [None] when
    the first argument is not a function, [dependencies] when the second is
    not an array. *)
Definition computed (fuel : nat) (fn : option nat) (dependencies : option (list (option nat)))
           (options : ComputedOptions) : M nat :=
  match fn, dependencies with
  | None, _ =>
      error <- inspect (fun w => new_Error w "First argument must be a function") ;;
      throw error
  | Some _, None =>
      error <- inspect (fun w => new_Error w "Dependencies must be an array") ;;
      throw error
  | Some fn, Some dependencies =>
      let label := default "computed" (name options) in
      result <- read (new_Observable VUndefined) ;;
      update result (with_computed
        (Some (mkComputed label (mkComputeMetrics 0 0 0 0) fn dependencies label []))) ;;
      (if default false (lazy options) then ret tt
       else
         try_catch
           (startTime <- read perf_now ;;
            recompute fuel result ;;
            endTime <- read perf_now ;;
            effect (recordMetric "initialComputeTime" (endTime - startTime) []))
           (fun _ => ret tt)) ;;
      handles <- subscribe_dependencies result 0 dependencies ;;
      update result (fun this =>
        with_computed (with_unsubscribers handles <$> _computed this) this) ;;
      ret result
  end.

(** [result.dispose()] (line 132) *)
Fixpoint dispose_all (handles : list (option Unsubscriber)) : M unit :=
  match handles with
  | [] => ret tt
  | None :: rest => dispose_all rest
  | Some u :: rest => unsubscribe u ;; dispose_all rest
  end.

Definition dispose (result : nat) : M unit :=
  c <- this_computed result ;;
  dispose_all (unsubscribers c).
End Program.

(** ** Component: the metrics it feeds *)

(** [new Component(props)] (component.js, line 15), of class [className] *)
Definition new_Component (className : string) (w : World) : nat * World :=
  let (created, w) := now w in
  let this := length (component_heap w) in
  let w :=
    with_component_heap
      (component_heap w ++ [mkComponent "" className 0 false
                              (mkComponentMetrics 0 0 0 0 0 created None)]) w in
  let (id, w) := registerComponent this w in
  (this,
   with_component_heap
     (alter (fun c => mkComponent id (constructor_name c) (_renderId c) (_mounted c)
                        (component_metrics c)) this (component_heap w)) w).

(** The body of [render] (line 66), up to the promise it returns. *)
Definition render (self : nat) (w : World) : World :=
  match component_heap w !! self with
  | None => w
  | Some this =>
      let (renderStart, w) := perf_now w in
      let (renderEnd, w) := perf_now w in
      let thisRenderTime := (renderEnd - renderStart)%Q in
      let m := component_metrics this in
      let this :=
        mkComponent (component_id this) (constructor_name this) (_renderId this + 1)
          (_mounted this)
          (mkComponentMetrics (renders m + 1) (renderTime m + thisRenderTime) thisRenderTime
             (updates m) (updateTime m) (createdAt m) (mountedAt m)) in
      let w := with_component_heap (<[self := this]> (component_heap w)) w in
      let w :=
        recordMetric "componentRenderTime" thisRenderTime
          [("component", VString (constructor_name this));
           ("renderId", VNumber (_renderId this));
           ("id", VString (component_id this))] w in
      if Qgt_bool thisRenderTime 16 then
        let w :=
          reportPerformanceIssue
            (SlowRender (constructor_name this) thisRenderTime (_renderId this)
                        (component_id this)) w in
        let g := global (system_metrics (system w)) in
        with_system (with_global (with_slowRenders (slowRenders g + 1) g) (system w)) w
      else w
  end.

(** [n] calls of the same function, one after the other. *)
Fixpoint times (n : nat) (call : M unit) : M unit :=
  match n with
  | O => ret tt
  | S n => call ;; times n call
  end.


(** ** Sample runs *)

(** The world of a run that completes, the starting world otherwise. *)
Definition world_after {A} (run : M A) (w : World) : World :=
  match run w with
  | Some (_, w') => w'
  | None => w
  end.

(** A host whose random generator always draws 0, whose clocks count their
    reads, and which is not a browser. *)
Definition sample_host : Host :=
  mkHost (fun _ => 0%Q) 0 (fun n => Z.of_nat n) 0 (fun n => inject_Z (Z.of_nat n)) 0
         "Error at <anonymous>" (fun _ => JsonText "{}") false None.

(** User code: function 1 throws, function 2 returns 7, function 3
    unsubscribes function 2 from the Observable at address 0, the others
    return [undefined]; only function 3 touches the store. *)
Definition sample_user (k : nat) (args : list JsValue) (w : World)
  : completion JsValue * World :=
  match k with
  | 1%nat => (Throw (mkError "Error" "boom" "Error: boom"), w)
  | 2%nat => (Normal (VNumber 7), w)
  | 3%nat => (Normal VUndefined, world_after (unsubscribe (mkUnsubscriber 0 (UserFunction 2))) w)
  | _ => (Normal VUndefined, w)
  end.

(** The module just loaded, then [new Observable(0)]. *)
Definition one_observable : World := snd (new_Observable (VNumber 0) (initial_world sample_host)).




(** [new Observable(0)], then [observable.value = 5]. *)
Definition written_once : World :=
  world_after (set_value sample_user 1 0 (VNumber 5)) one_observable.


(** [new Observable(0)] with three subscribers: user functions 0, 1 (which
    throws) and 2, in this order. *)
Definition three_subscribers : World :=
  world_after
    (subscribe 0 (VFunction (UserFunction 0)) ;;
     subscribe 0 (VFunction (UserFunction 1)) ;;
     subscribe 0 (VFunction (UserFunction 2)))
    one_observable.

(** [new Observable(0)], then a computed over it whose compute function
    (user function 1) throws. *)
Definition failing_computed : World :=
  world_after (computed sample_user 3 (Some 1%nat) (Some [Some 0%nat])
                        (mkComputedOptions None (Some "total")))
              one_observable.

(** The object at address [self], or an empty one. *)
Definition object_at (self : nat) (w : World) : Observable :=
  default (mkObservable "" VUndefined [] (mkObservableMetrics 0 0 0 0 0 []) None)
          (heap w !! self).

(** The computed part of the object at [self], or an empty one. *)
Definition computed_at (self : nat) (w : World) : Computed :=
  default (mkComputed "" (mkComputeMetrics 0 0 0 0) 0 [] "" []) (_computed (object_at self w)).

(** [new Observable(0)] with two subscribers: user function 3, which
    unsubscribes the other one, then user function 2. *)
Definition unsubscribing_subscriber : World :=
  world_after
    (subscribe 0 (VFunction (UserFunction 3)) ;;
     subscribe 0 (VFunction (UserFunction 2)))
    one_observable.





(** ** Computation *)

(** The store in which [performComputation] calls the compute function: the
    clock has been read and the computation counted.  [this] is the computed
    and [c] its computed part before the call. *)
Definition computation_started (result : nat) (this : Observable) (c : Computed) (w : World)
  : World :=
  let m := _computeMetrics c in
  with_heap
    (<[result :=
         with_computed
           (Some (with_computeMetrics
                    (mkComputeMetrics (totalComputations m + 1) (lastComputeTime m)
                                      (averageComputeTime m) (computeErrors m)) c))
           this]> (heap w))
    (snd (perf_now w)).

(** The store that the [catch] of [performComputation] leaves when the
    compute function has thrown [error] in [thrown]: the error is counted
    and recorded with the name and the number of dependencies.  [this] is
    the computed and [c] its computed part in [thrown]. *)
Definition compute_error_recorded (result : nat) (this : Observable) (c : Computed)
           (error : JsError) (thrown : World) : World :=
  let m := _computeMetrics c in
  recordError "computeError" error
    [("name", VString (_computeName c));
     ("dependencies", VNumber (Z.of_nat (length (deps c))))]
    (with_heap
       (<[result :=
            with_computed
              (Some (with_computeMetrics
                       (mkComputeMetrics (totalComputations m) (lastComputeTime m)
                                         (averageComputeTime m) (computeErrors m + 1)) c))
              this]> (heap thrown))
       thrown).


(** ** Notification *)

(** The store after the [try ... catch] of the notification loop, when the
    call completed as [result] in [w]: a throw has been recorded. *)
Definition caught (result : completion unit) (w : World) : World :=
  match result with
  | Normal _ => w
  | Throw error => recordError "subscriberError" error [] w
  end.

(** [notified invoke v fs w w' calls]: from [w], the functions [fs] are
    called with [v] one after the other, each in the store that the
    previous one left once its throw, if any, was recorded; [calls] are the
    calls and [w'] is the store in the end. *)
Inductive notified (invoke : JsFunction → JsValue → M unit) (v : JsValue)
  : list JsFunction → World → World → list Invocation → Prop :=
| notified_nil w : notified invoke v [] w w []
| notified_cons f fs w result w1 w' calls :
    invoke f v w = Some (result, w1) →
    notified invoke v fs (caught result w1) w' calls →
    notified invoke v (f :: fs) w w' (mkInvocation f v result :: calls).


(** A call of [f] returns or throws, and leaves the subscribers of [self] as
    they are. *)
Definition keeps_subscribers (invoke : JsFunction → JsValue → M unit) (self : nat)
           (f : JsFunction) : Prop :=
  ∀ v w this,
    heap w !! self = Some this →
    ∃ result w' this',
      invoke f v w = Some (result, w') ∧
      heap w' !! self = Some this' ∧
      _subscribers this' = _subscribers this.





(** ** The exposition format *)






(** ** What the hotspot analysis keeps *)



(** ** Order *)

(** [x] may stand before [y] in an array sorted by [compareFn]. *)
Definition before {A} (compareFn : A → A → Q) (x y : A) : Prop := (compareFn x y <= 0)%Q.

(** ** What the aggregation sums *)

(** The counters that the Observable at [obs] contributes to the totals:
    its own, unless its [getMetrics] throws. *)
Definition contribution (w : World) (obs : nat) : Z * Z :=
  match getMetrics_at w obs with
  | Normal metrics => (reads (snapshot_metrics metrics), writes (snapshot_metrics metrics))
  | Throw _ => (0, 0)
  end.

Definition sum_reads (w : World) (registry : list (string * nat)) : Z :=
  foldr (λ entry total, fst (contribution w (snd entry)) + total) 0 registry.

Definition sum_writes (w : World) (registry : list (string * nat)) : Z :=
  foldr (λ entry total, snd (contribution w (snd entry)) + total) 0 registry.

Definition sum_renders (w : World) (registry : list (string * nat)) : Z :=
  foldr (λ entry total,
           match Component_getMetrics_at w (snd entry) with
           | Normal metrics => renders (component_metrics metrics) + total
           | Throw _ => total
           end) 0 registry.

(** The errors that the [getMetrics] of the registered entities throw, in
    the order of the registry. *)
Definition observable_failures (w : World) (registry : list (string * nat)) : list JsError :=
  omap (λ entry, match getMetrics_at w (snd entry) with
                 | Throw error => Some error
                 | Normal _ => None
                 end) registry.

Definition component_failures (w : World) (registry : list (string * nat)) : list JsError :=
  omap (λ entry, match Component_getMetrics_at w (snd entry) with
                 | Throw error => Some error
                 | Normal _ => None
                 end) registry.

(** [recordError(type, error)] for each of [failures], in order. *)
Definition record_errors (type : string) (failures : list JsError) (w : World) : World :=
  fold_left (λ w error, recordError type error [] w) failures w.

(** ** The invariant of the bounded sequences *)





(** ** Sequences of calls *)

(** [observable.value], read [n] times in a row; the values read. *)
Fixpoint read_all (n : nat) (self : nat) : M (list JsValue) :=
  match n with
  | O => ret []
  | S n =>
      v <- get_value self ;;
      rest <- read_all n self ;;
      ret (v :: rest)
  end.

(** The entry that a read pushes on the history. *)
Definition is_read (entry : HistoryEntry) : Prop :=
  match entry with
  | ReadEntry _ _ => True
  | WriteEntry _ _ _ _ => False
  end.

(** [typeof v === 'function'] *)
Definition is_function (v : JsValue) : bool :=
  match v with
  | VFunction _ => true
  | _ => false
  end.

(** [observable.subscribe(listener)], [n] times in a row. *)
Definition subscribe_times (n : nat) (self : nat) (listener : JsValue) : M unit :=
  times n (subscribe self listener ;; ret tt).

(** ** The registry and polling *)

(** An identifier that [generateId(prefix)] returned while the counter was
    below [bound]. *)
Definition generated (prefix : string) (bound : nat) (id : string) : Prop :=
  ∃ k, (k < bound)%nat ∧ id = prefix +:+ "_" +:+ nat_toString k.

(** Every key of the two registries was generated: the counter is ahead of
    the keys. *)
Definition registry_generated (w : World) : Prop :=
  Forall (λ entry, generated "obs" (nextId w) (fst entry)) (_observables (system w)) ∧
  Forall (λ entry, generated "comp" (nextId w) (fst entry)) (_components (system w)).

(** [getMetrics(includeDetailed)], [n] times in a row: the store they leave. *)
Definition polled (n : nat) (includeDetailed : bool) (w : World) : World :=
  Nat.iter n (λ w, snd (getMetrics includeDetailed w)) w.

(** ** Renders *)

(** [component.render()], [n] times in a row. *)
Definition render_all (n : nat) (self : nat) (w : World) : World :=
  Nat.iter n (render self) w.

(** The time that the [i]-th render from [w] on measures: a render reads
    the clock twice. *)
Definition render_duration (w : World) (i : nat) : Q :=
  let h := host w in
  (performance_now h (performance_calls h + 2 * i + 1)
   - performance_now h (performance_calls h + 2 * i))%Q.

(** More than one frame at 60 frames a second (component.js, line 87). *)
Definition is_slow (duration : Q) : Prop := Qgt_bool duration 16 = true.

#[global] Instance is_slow_dec (duration : Q) : Decision (is_slow duration).
Proof. unfold is_slow. apply _. Defined.

(** A [slowRender] issue of the component [this]. *)
Definition is_slowRender_of (this : Component) (entry : PerformanceIssue) : Prop :=
  ∃ duration renderId,
    issue entry = SlowRender (constructor_name this) duration renderId (component_id this) ∧
    is_slow duration.

(** A host whose clock advances by 20 ms at each reading. *)
Definition slow_host : Host :=
  mkHost (fun _ => 0%Q) 0 (fun n => Z.of_nat n) 0 (fun n => inject_Z (20 * Z.of_nat n)) 0
         "Error at <anonymous>" (fun _ => JsonText "{}") false None.

(** On that host, [new Counter()] for a class [Counter] that extends
    [Component]. *)
Definition slow_component : World := snd (new_Component "Counter" (initial_world slow_host)).

(** ** One computation *)

(** The computed part of [c] once a computation that took [duration] has
    been measured (computed.js, lines 58 to 61). *)
Definition measured (duration : Q) (c : Computed) : Computed :=
  let m := _computeMetrics c in
  with_computeMetrics
    (mkComputeMetrics (totalComputations m) duration
       ((averageComputeTime m * inject_Z (totalComputations m - 1) + duration)
        / inject_Z (totalComputations m))
       (computeErrors m)) c.

(** The computed [this], whose computed part is [c], once the computation
    has been measured and its time added (line 63). *)
Definition after_computation (duration : Q) (this : Observable) (c : Computed) : Observable :=
  with_observable_metrics
    (with_computeTime (computeTime (_metrics this) + duration) (_metrics this))
    (with_computed (Some (measured duration c)) this).

(** The store that [performComputation] reaches at line 64, when the write
    of the new value has left [written]: the clock has been read, the
    computation measured and its time recorded.  [this] is the computed and
    [c] its computed part in [written]. *)
Definition computation_measured (result : nat) (this : Observable) (c : Computed)
           (duration : Q) (written : World) : World :=
  recordMetric "derivedComputeTime" duration []
    (with_heap (<[result := after_computation duration this c]> (heap written))
               (snd (perf_now written))).

(** ** Code that only reads *)

(** What a call that only reads an Observable may change in it: the read
    counter, the time of the last access and the history. *)
Definition same_but_reads (o o' : Observable) : Prop :=
  _id o' = _id o ∧
  _value o' = _value o ∧
  _subscribers o' = _subscribers o ∧
  _computed o' = _computed o ∧
  writes (_metrics o') = writes (_metrics o) ∧
  subscriptions (_metrics o') = subscriptions (_metrics o) ∧
  computeTime (_metrics o') = computeTime (_metrics o).

(** From [w] to [w'], the Observable at [self], if any, was only read. *)
Definition only_read (self : nat) (w w' : World) : Prop :=
  ∀ o, heap w !! self = Some o → ∃ o', heap w' !! self = Some o' ∧ same_but_reads o o'.

(** A call of [f] completes, and only reads the Observables at [cells]. *)
Definition quiet (invoke : JsFunction → JsValue → M unit) (cells : list nat)
           (f : JsFunction) : Prop :=
  ∀ v w, ∃ result w',
    invoke f v w = Some (result, w') ∧ ∀ a, a ∈ cells → only_read a w w'.

(** The computed part of [c] keeps what the closures of [computed] captured. *)
Definition same_closure (c c' : Computed) : Prop :=
  _computeName c' = _computeName c ∧ computeFn c' = computeFn c ∧ deps c' = deps c ∧
  closure_name c' = closure_name c ∧ unsubscribers c' = unsubscribers c.

(** ** The mean compute time *)



(** On that host, a lazy computed without dependencies whose compute
    function (user function 0) returns [undefined]. *)
Definition slow_computed : World :=
  world_after (computed sample_user 3 (Some 0%nat) (Some [])
                        (mkComputedOptions (Some true) None))
              (initial_world slow_host).

(** ** Dependency listeners *)


(** Twice a number, NaN for anything else. *)
Definition twice (v : JsValue) : JsValue :=
  match v with
  | VNumber z => VNumber (2 * z)
  | _ => VNaN
  end.

(** User code that reads the Observable at address 0 and returns twice its
    value. *)
Definition doubling_user (k : nat) (args : list JsValue) (w : World)
  : completion JsValue * World :=
  match get_value 0 w with
  | Some (Normal v, w') => (Normal (twice v), w')
  | _ => (Normal VNaN, w)
  end.


(** ** Subscriptions to the dependencies *)

(** The unsubscribe functions that [deps.map] returns (computed.js, line
    113), the listeners being numbered from [idx] on: the empty function
    ([None]) for what is no Observable. *)
Definition dependency_handles (result idx : nat) (dependencies : list (option nat))
  : list (option Unsubscriber) :=
  imap (λ i d, (λ dep, mkUnsubscriber dep (DependencyListener result (idx + i))) <$> d)
       dependencies.

(** The callbacks that [handles] remove from the Observable at [a]. *)
Definition handles_on (a : nat) (handles : list (option Unsubscriber)) : list JsFunction :=
  omap (λ h : option Unsubscriber,
          match h with
          | Some u => if decide (subscribed_to u = a) then Some (callback u) else None
          | None => None
          end) handles.

(** [this.subscribe(g)] on the object itself. *)
Definition subscribed (this : Observable) (g : JsFunction) : Observable :=
  with_subscribers (Set_add g (_subscribers this))
    (with_observable_metrics
       (with_subscriptions (subscriptions (_metrics this) + 1) (_metrics this)) this).

(** A call of the function that [this.subscribe(g)] returned, on the object
    itself. *)
Definition unsubscribed (this : Observable) (g : JsFunction) : Observable :=
  with_observable_metrics
    (with_subscriptions (subscriptions (_metrics this) - 1) (_metrics this))
    (with_subscribers (Set_delete g (_subscribers this)) this).

(** Every listener subscribed somewhere belongs to a computed of the heap. *)
Definition listeners_allocated (w : World) : Prop :=
  ∀ a o target idx,
    heap w !! a = Some o →
    DependencyListener target idx ∈ Set_entries (_subscribers o) →
    (target < length (heap w))%nat.

(** Two objects that differ at most in their subscribers and in the
    counter of subscriptions. *)
Definition same_but_subscribers (o o' : Observable) : Prop :=
  with_subscribers [] (with_observable_metrics (with_subscriptions 0 (_metrics o')) o') =
  with_subscribers [] (with_observable_metrics (with_subscriptions 0 (_metrics o)) o).

(** ** Component: state and subscriptions *)

(** The fields of a [Component] that its metrics do not read: [props],
    [state], the element it is mounted on (a reference into the DOM, which
    is not modelled) and the functions that [subscribe] collected.  They
    are kept in a table of their own, at the address of the component: the
    table of a [Page] runs parallel to the component heap of its store. *)
Record ComponentFields := mkComponentFields {
  component_props : gmap string JsValue;
  component_state : gmap string JsValue;
  _element : option nat;
  _subscriptions : list Unsubscriber
}.

Record Page := mkPage {
  store : World;
  component_fields : list ComponentFields
}.

Definition with_store (w : World) (p : Page) : Page := mkPage w (component_fields p).

(** [new Component(props)] (component.js, line 15), of class [className] *)
Definition new_Component_with (initial : gmap string JsValue) (className : string) (p : Page)
  : nat * Page :=
  let (this, w) := new_Component className (store p) in
  (this, mkPage w (component_fields p ++ [mkComponentFields initial ∅ None []])).

(** [setState] (line 42); [{ ...this.state, ...newState }] is the union in
    which [newState] wins. *)
Definition setState (self : nat) (newState : gmap string JsValue) (p : Page) : Page :=
  let (updateStart, w) := perf_now (store p) in
  let w :=
    with_component_heap
      (alter (λ this,
                let m := component_metrics this in
                mkComponent (component_id this) (constructor_name this) (_renderId this)
                  (_mounted this)
                  (mkComponentMetrics (renders m) (renderTime m) (lastRenderTime m)
                     (updates m + 1) (updateTime m) (createdAt m) (mountedAt m)))
             self (component_heap w)) w in
  let fields :=
    alter (λ f, mkComponentFields (component_props f) (newState ∪ component_state f)
                  (_element f) (_subscriptions f))
          self (component_fields p) in
  let w := render self w in
  let (updateEnd, w) := perf_now w in
  let w :=
    with_component_heap
      (alter (λ this,
                let m := component_metrics this in
                mkComponent (component_id this) (constructor_name this) (_renderId this)
                  (_mounted this)
                  (mkComponentMetrics (renders m) (renderTime m) (lastRenderTime m)
                     (updates m) (updateTime m + (updateEnd - updateStart))
                     (createdAt m) (mountedAt m)))
             self (component_heap w)) w in
  let w :=
    match component_heap w !! self with
    | Some this =>
        recordMetric "componentUpdateTime" (updateEnd - updateStart)
          [("component", VString (constructor_name this));
           ("id", VString (component_id this))] w
    | None => w
    end in
  mkPage w fields.

(** [Component.subscribe] (line 178).  [observable] is [None] when the
    argument is falsy or has no [subscribe] method; the function returned
    is then the empty one ([None]). *)
Definition Component_subscribe (self : nat) (observable : option nat) (listener : JsValue)
           (p : Page) : option (completion (option Unsubscriber) * Page) :=
  match observable with
  | None => Some (Normal None, p)
  | Some obs =>
      match subscribe obs listener (store p) with
      | Some (Normal unsubscribe, w) =>
          Some (Normal (Some unsubscribe),
                mkPage w
                  (alter (λ f, mkComponentFields (component_props f) (component_state f)
                                 (_element f) (_subscriptions f ++ [unsubscribe]))
                         self (component_fields p)))
      | Some (Throw error, w) => Some (Throw error, with_store w p)
      | None => None
      end
  end.

(** [unmount] (line 148).  Each collected function is called under a
    [try ... catch]; none of them throws.  Emptying the element (line 167)
    is an effect on the DOM. *)
Definition unmount (self : nat) (p : Page) : option Page :=
  match component_heap (store p) !! self, component_fields p !! self with
  | Some this, Some fields =>
      if _mounted this then
        match dispose_all (Some <$> _subscriptions fields) (store p) with
        | Some (_, w) =>
            Some (mkPage
                    (with_component_heap
                       (alter (λ this,
                                 mkComponent (component_id this) (constructor_name this)
                                   (_renderId this) false (component_metrics this))
                              self (component_heap w)) w)
                    (<[self := mkComponentFields (component_props fields)
                                 (component_state fields) None []]> (component_fields p)))
        | None => None
        end
      else Some p
  | _, _ => None
  end.

(** [component.setState(s)] for each [s] of [changes], in order. *)
Definition setState_all (self : nat) (changes : list (gmap string JsValue)) (p : Page) : Page :=
  foldl (λ p newState, setState self newState p) p changes.

(** The time that the [i]-th update from [w] on measures: an update reads
    the clock four times, twice of them in its render. *)
Definition update_duration (w : World) (i : nat) : Q :=
  let h := host w in
  (performance_now h (performance_calls h + 4 * i + 3)
   - performance_now h (performance_calls h + 4 * i))%Q.

(** The module just loaded, then [new Counter()] for a class [Counter]
    that extends [Component]. *)
Definition counter_page : Page :=
  snd (new_Component_with ∅ "Counter" (mkPage (initial_world sample_host) [])).

(** The callbacks that the functions collected in [handles] remove from the
    Observable at [a]. *)
Definition collected_on (a : nat) (handles : list Unsubscriber) : list JsFunction :=
  handles_on a (Some <$> handles).

(** On [counter_page]: [new Observable(0)], and the component mounted,
    that is with the flag that [mount] sets (line 125). *)
Definition mounted_page : Page :=
  let w := snd (new_Observable (VNumber 0) (store counter_page)) in
  let w :=
    with_component_heap
      (alter (λ this, mkComponent (component_id this) (constructor_name this) (_renderId this)
                        true (component_metrics this)) 0%nat (component_heap w)) w in
  mkPage w (component_fields counter_page).

(** Then [component.subscribe(observable, f)] for the user function 0. *)
Definition subscribed_page : Page :=
  match Component_subscribe 0 (Some 0%nat) (VFunction (UserFunction 0)) mounted_page with
  | Some (_, p) => p
  | None => mounted_page
  end.

(** * Properties *)

(** ** Sets *)

Lemma Set_entries_delete f s :
  Set_entries (Set_delete f s) = filter (λ g, g ≠ f) (Set_entries s).
Proof.
  unfold Set_entries, Set_delete. induction s as [|[g|] s IH]; [done| |].
  - rewrite fmap_cons. destruct (decide (Some g = Some f)) as [E|N]; cbn [omap list_omap id].
    + inversion E; subst. rewrite filter_cons_False; [apply IH | naive_solver].
    + rewrite filter_cons_True; [by rewrite <- IH | congruence].
  - rewrite fmap_cons. destruct (decide (None = Some f)); [done|]. apply IH.
Qed.

Lemma Set_delete_idem f s : Set_delete f (Set_delete f s) = Set_delete f s.
Proof.
  unfold Set_delete. rewrite <- list_fmap_compose. apply list_fmap_ext.
  intros i x _. simpl. destruct (decide (x = Some f)); [|by rewrite decide_False].
  by destruct (decide (None = Some f)).
Qed.

Lemma Set_has_spec f s : Set_has f s = true ↔ f ∈ Set_entries s.
Proof.
  unfold Set_has, Set_entries. rewrite bool_decide_eq_true, list_elem_of_omap.
  split; [intros H; by exists (Some f) | intros (x & H & E)].
  unfold id in E. by subst.
Qed.

Lemma Set_entries_add f s :
  Set_entries (Set_add f s) =
  if Set_has f s then Set_entries s else Set_entries s ++ [f].
Proof.
  unfold Set_add. destruct (Set_has f s); [done|].
  unfold Set_entries. by rewrite omap_app.
Qed.

Lemma Set_add_has f s : f ∈ Set_entries (Set_add f s).
Proof.
  rewrite Set_entries_add. destruct (Set_has f s) eqn:E.
  - by apply Set_has_spec.
  - apply elem_of_app. right. apply list_elem_of_singleton. done.
Qed.

(** ** The heap *)

Lemma update_at self f w this :
  heap w !! self = Some this →
  update self f w = Some (Normal tt, with_heap (<[self := f this]> (heap w)) w).
Proof. intros H. unfold update. by rewrite H. Qed.

Lemma lookup_updated (self : nat) (this this' : Observable) (h : list Observable) :
  h !! self = Some this → <[self := this']> h !! self = Some this'.
Proof. intros H. apply list_lookup_insert_eq. by eapply lookup_lt_Some. Qed.

(** ** Subscriptions *)

Lemma subscribe_at self f w this :
  heap w !! self = Some this →
  subscribe self (VFunction f) w =
  Some (Normal (mkUnsubscriber self f),
        with_heap (<[self :=
                      with_subscribers (Set_add f (_subscribers this))
                        (with_observable_metrics
                           (with_subscriptions (subscriptions (_metrics this) + 1)
                                               (_metrics this)) this)]>
                     (heap w)) w).
Proof.
  intros H. unfold subscribe, update_metrics, bind.
  rewrite (update_at _ _ _ _ H). unfold update, ret; simpl.
  rewrite (lookup_updated _ _ _ _ H). simpl.
  by rewrite list_insert_insert_eq.
Qed.

Lemma unsubscribe_at u w this :
  heap w !! subscribed_to u = Some this →
  unsubscribe u w =
  Some (Normal tt,
        with_heap (<[subscribed_to u :=
                      with_observable_metrics
                        (with_subscriptions (subscriptions (_metrics this) - 1) (_metrics this))
                        (with_subscribers (Set_delete (callback u) (_subscribers this)) this)]>
                     (heap w)) w).
Proof.
  intros H. unfold unsubscribe, update_metrics, bind.
  rewrite (update_at _ _ _ _ H). unfold update; simpl.
  rewrite (lookup_updated _ _ _ _ H). simpl.
  by rewrite list_insert_insert_eq.
Qed.

Lemma unsubscribe_times u n : ∀ w this,
  heap w !! subscribed_to u = Some this →
  ∃ wn after,
    times n (unsubscribe u) w = Some (Normal tt, wn) ∧
    heap wn !! subscribed_to u = Some after ∧
    subscriptions (_metrics after) = subscriptions (_metrics this) - Z.of_nat n ∧
    _subscribers after =
      match n with
      | O => _subscribers this
      | S _ => Set_delete (callback u) (_subscribers this)
      end.
Proof.
  induction n as [|n IH]; intros w this H.
  - exists w, this. repeat split; [done | lia].
  - cbn [times]. unfold bind. rewrite (unsubscribe_at _ _ _ H).
    match goal with |- context [with_heap (<[_ := ?o]> _) w] =>
      destruct (IH (with_heap (<[subscribed_to u := o]> (heap w)) w) o
                   (lookup_updated _ _ _ _ H))
        as (wn & after & Hrun & Hat & Hcount & Hset)
    end.
    exists wn, after. rewrite Hrun, Hat, Hcount, Hset. cbn.
    repeat split; [lia|]. destruct n; [done | apply Set_delete_idem].
Qed.

(** C10. The function that [subscribe] returns is not idempotent on the
    [subscriptions] counter.  For every Observable and every callback [f]:
    [subscribe] succeeds and leaves [f] among the subscribers; [n] calls of
    the function it returned all succeed, and leave [f] out of the set as
    soon as [n >= 1] (the other subscribers untouched, in order) while the
    counter, which [subscribe] had incremented, has lost [n]: each further
    call decrements it again.  With an empty set and a counter at 0, two
    calls leave the set empty and the counter at -1. *)
Theorem unsubscribe_is_not_idempotent (self : nat) (f : JsFunction) (w : World)
        (this : Observable) :
  heap w !! self = Some this →
  ∃ u w1 subscribed,
    subscribe self (VFunction f) w = Some (Normal u, w1) ∧
    heap w1 !! self = Some subscribed ∧
    f ∈ Set_entries (_subscribers subscribed) ∧
    subscriptions (_metrics subscribed) = subscriptions (_metrics this) + 1 ∧
    ∀ n : nat, ∃ wn after,
      times n (unsubscribe u) w1 = Some (Normal tt, wn) ∧
      heap wn !! self = Some after ∧
      subscriptions (_metrics after) = subscriptions (_metrics this) + 1 - Z.of_nat n ∧
      ((1 ≤ n)%nat →
       Set_entries (_subscribers after) = filter (λ g, g ≠ f) (Set_entries (_subscribers this))) ∧
      (n = 2%nat → _subscribers this = [] → subscriptions (_metrics this) = 0 →
       Set_size (_subscribers after) = 0%nat ∧ subscriptions (_metrics after) = -1).
Proof.
  intros H. eexists _, _, _. split; [apply (subscribe_at _ _ _ _ H)|].
  split; [cbn; eapply lookup_updated, H|]. cbn.
  split; [apply Set_add_has|]. split; [done|].
  intros n.
  match goal with |- context [with_heap (<[_ := ?o]> _) w] =>
    destruct (unsubscribe_times (mkUnsubscriber self f) n
                (with_heap (<[self := o]> (heap w)) w) o (lookup_updated _ _ _ _ H))
      as (wn & after & Hrun & Hat & Hc & Hs)
  end.
  cbn in *. exists wn, after.
  assert (Hentries : (1 ≤ n)%nat →
    Set_entries (_subscribers after) = filter (λ g, g ≠ f) (Set_entries (_subscribers this))).
  { intros Hn. destruct n; [lia|]. rewrite Hs.
    fold (Set_delete f (Set_add f (_subscribers this))).
    rewrite Set_entries_delete, Set_entries_add.
    destruct (Set_has f (_subscribers this)); [done|].
    rewrite filter_app, filter_cons_False, filter_nil, app_nil_r; [done | naive_solver]. }
  split_and!; [done | done | lia | done |].
  intros -> Hempty Hzero. unfold Set_size. rewrite Hentries by lia.
  rewrite Hempty. split; [done | lia].
Qed.

(** ** Bounded logs *)

Section PushCapped.
Context {A : Type}.
Implicit Types (l : list A) (x : A) (cap : Z).

(** With a cap of at least 1, pushing keeps the most recent entries. *)
Lemma push_capped_recent cap l x :
  1 ≤ cap →
  push_capped cap l x = drop (Z.to_nat (Z.of_nat (length l) + 1 - cap)) (l ++ [x]).
Proof.
  intros Hcap. unfold push_capped, slice_from.
  rewrite length_app. cbn [length].
  destruct (Z.ltb_spec cap (Z.of_nat (length l + 1))) as [Hlt|Hge].
  - destruct (Z.ltb_spec (- cap) 0); [|lia]. f_equal. lia.
  - replace (Z.to_nat (Z.of_nat (length l) + 1 - cap)) with 0%nat by lia. done.
Qed.

Lemma push_capped_length cap l x :
  1 ≤ cap →
  Z.of_nat (length (push_capped cap l x)) = Z.min (Z.of_nat (length l) + 1) cap.
Proof.
  intros Hcap. rewrite push_capped_recent by done.
  rewrite length_drop, length_app. cbn [length]. lia.
Qed.



Lemma push_capped_all_length cap (xs : list A) : ∀ l,
  1 ≤ cap → xs ≠ [] →
  Z.of_nat (length (fold_left (push_capped cap) xs l)) =
  Z.min (Z.of_nat (length l) + Z.of_nat (length xs)) cap.
Proof.
  induction xs as [|x xs IH]; intros l Hcap Hne; [done|].
  cbn [fold_left length]. destruct xs as [|y xs].
  - cbn [fold_left length]. rewrite push_capped_length by done. lia.
  - rewrite IH by done. rewrite push_capped_length by done. cbn [length]. lia.
Qed.
End PushCapped.

(** ** Sampling *)

Lemma Qgt_bool_true a b : Qgt_bool a b = true ↔ (b < a)%Q.
Proof.
  unfold Qgt_bool. rewrite negb_true_iff, <- not_true_iff_false, Qle_bool_iff.
  split; [apply Qnot_le_lt | apply Qlt_not_le].
Qed.






Lemma unsubscribe_twice_witness :
  ∃ u w1 w2 after,
    subscribe 0 (VFunction (UserFunction 0)) one_observable = Some (Normal u, w1) ∧
    times 2 (unsubscribe u) w1 = Some (Normal tt, w2) ∧
    heap w2 !! 0%nat = Some after ∧
    Set_size (_subscribers after) = 0%nat ∧
    subscriptions (_metrics after) = -1.
Proof.
  destruct (unsubscribe_is_not_idempotent 0 (UserFunction 0) one_observable
              (mkObservable "obs_1" (VNumber 0) [] (mkObservableMetrics 0 0 0 0 0 []) None)
              eq_refl)
    as (u & w1 & subscribed & Hsub & _ & _ & _ & Hn).
  destruct (Hn 2%nat) as (w2 & after & Hrun & Hat & _ & _ & Htwice).
  destruct (Htwice eq_refl eq_refl eq_refl) as [Hsize Hcount].
  by exists u, w1, w2, after.
Defined.




(** ** The caps *)












(** ** Aggregation *)

Lemma or_zero_id x : or_zero x = x.
Proof. unfold or_zero. destruct (Z.eqb_spec x 0); congruence. Qed.

(** [getMetrics] reads the heaps and the host's texts, which recording an
    error leaves alone. *)
Lemma getMetrics_at_recordError type error ctx w obs :
  getMetrics_at (recordError type error ctx w) obs = getMetrics_at w obs.
Proof. reflexivity. Qed.

Lemma Component_getMetrics_at_recordError type error ctx w comp :
  Component_getMetrics_at (recordError type error ctx w) comp = Component_getMetrics_at w comp.
Proof. reflexivity. Qed.

Lemma getMetrics_at_record_errors type failures obs : ∀ w,
  getMetrics_at (record_errors type failures w) obs = getMetrics_at w obs.
Proof.
  induction failures as [|e failures IH]; intros w; [done|].
  cbn [record_errors fold_left]. unfold record_errors in IH. by rewrite IH.
Qed.

Lemma Component_getMetrics_at_record_errors type failures comp : ∀ w,
  Component_getMetrics_at (record_errors type failures w) comp = Component_getMetrics_at w comp.
Proof.
  induction failures as [|e failures IH]; intros w; [done|].
  cbn [record_errors fold_left]. unfold record_errors in IH. by rewrite IH.
Qed.

Lemma record_errors_app type l1 l2 w :
  record_errors type (l1 ++ l2) w = record_errors type l2 (record_errors type l1 w).
Proof. unfold record_errors. by rewrite fold_left_app. Qed.

Lemma sums_recordError type error ctx w registry :
  sum_reads (recordError type error ctx w) registry = sum_reads w registry ∧
  sum_writes (recordError type error ctx w) registry = sum_writes w registry ∧
  sum_renders (recordError type error ctx w) registry = sum_renders w registry ∧
  observable_failures (recordError type error ctx w) registry = observable_failures w registry ∧
  component_failures (recordError type error ctx w) registry = component_failures w registry.
Proof. done. Qed.

Lemma sums_cons w id obs registry :
  sum_reads w ((id, obs) :: registry) = fst (contribution w obs) + sum_reads w registry ∧
  sum_writes w ((id, obs) :: registry) = snd (contribution w obs) + sum_writes w registry.
Proof. done. Qed.

(** The first loop of [updateGlobalCounters]. *)
Lemma count_observables registry : ∀ r wr w,
  fold_left count_observable registry (r, wr, w) =
  (r + sum_reads w registry, wr + sum_writes w registry,
   record_errors "metricsError" (observable_failures w registry) w).
Proof.
  induction registry as [|[id obs] registry IH]; intros r wr w.
  - cbn. by rewrite !Z.add_0_r.
  - cbn [fold_left]. unfold count_observable at 2. cbn [snd].
    destruct (sums_cons w id obs registry) as [-> ->].
    unfold observable_failures, contribution. cbn [omap list_omap snd].
    destruct (getMetrics_at w obs) as [metrics|error] eqn:Hm; rewrite IH.
    + rewrite !or_zero_id. cbn [fst snd]. by rewrite !Z.add_assoc.
    + cbn [fst snd]. by rewrite !Z.add_0_l.
Qed.

(** The second. *)
Lemma count_components registry : ∀ rn w,
  fold_left count_component registry (rn, w) =
  (rn + sum_renders w registry,
   record_errors "metricsError" (component_failures w registry) w).
Proof.
  induction registry as [|[id comp] registry IH]; intros rn w.
  - cbn. by rewrite Z.add_0_r.
  - cbn [fold_left]. unfold count_component at 2. cbn [snd].
    unfold sum_renders, component_failures. cbn [foldr omap list_omap snd].
    destruct (Component_getMetrics_at w comp) as [metrics|error] eqn:Hm; rewrite IH.
    + rewrite or_zero_id. by rewrite Z.add_assoc.
    + done.
Qed.

Lemma push_capped_Forall {A} (P : A → Prop) cap (l : list A) x :
  Forall P l → P x → Forall P (push_capped cap l x).
Proof.
  intros Hl Hx. assert (Hall : Forall P (l ++ [x])) by (apply Forall_app; auto).
  unfold push_capped, slice_from. destruct (_ <? _); [|done]. by apply Forall_drop.
Qed.

Lemma push_capped_all_Forall {A} (P : A → Prop) cap (xs : list A) : ∀ l,
  Forall P l → Forall P xs → Forall P (fold_left (push_capped cap) xs l).
Proof.
  induction xs as [|x xs IH]; intros l Hl Hxs; [done|].
  inversion Hxs; subst. cbn. apply IH; [by apply push_capped_Forall | done].
Qed.

(** Recording errors touches the error log and the clock, nothing else. *)
Lemma record_errors_system type failures : ∀ w,
  ∃ records,
    length records = length failures ∧
    Forall (λ r, error_type r = type) records ∧
    system (record_errors type failures w) =
      with_global
        (with_errors
           (fold_left (push_capped (maxErrors (system w))) records
                      (errors (global (system_metrics (system w)))))
           (global (system_metrics (system w))))
        (system w) ∧
    heap (record_errors type failures w) = heap w ∧
    component_heap (record_errors type failures w) = component_heap w ∧
    nextId (record_errors type failures w) = nextId w.
Proof.
  induction failures as [|e failures IH]; intros w.
  - exists []. split_and!; try done.
    cbn. destruct (system w) as [? ? [g d] ? ? ? ? ?]. by destruct g.
  - cbn [record_errors fold_left].
    destruct (IH (recordError type e [] w)) as (records & Hlen & Htype & Hsys & Hh & Hc & Hn).
    exists (mkErrorRecord type (message e) (stack e) []
                          (Date_now (host w) (date_calls (host w))) :: records).
    split_and!.
    + cbn. by rewrite Hlen.
    + constructor; [|exact Htype]. done.
    + unfold record_errors in Hsys. rewrite Hsys. reflexivity.
    + exact Hh.
    + exact Hc.
    + exact Hn.
Qed.

(** [updateGlobalCounters]: the totals are the sums over the entities whose
    [getMetrics] returns, and each failure is recorded. *)
Lemma updateGlobalCounters_spec w :
  let observables := _observables (system w) in
  let components := _components (system w) in
  let recorded :=
    record_errors "metricsError"
      (observable_failures w observables ++ component_failures w components) w in
  updateGlobalCounters w =
  with_system
    (with_global
       (with_totals (sum_reads w observables) (sum_writes w observables)
                    (sum_renders w components)
                    (global (system_metrics (system recorded))))
       (system recorded)) recorded.
Proof.
  intros observables components recorded. unfold updateGlobalCounters.
  fold observables. rewrite count_observables.
  destruct (record_errors_system "metricsError" (observable_failures w observables) w)
    as (records & _ & _ & Hsys & _).
  rewrite Hsys. cbn [_components with_global with_metrics].
  fold components. rewrite count_components.
  subst recorded. rewrite record_errors_app. rewrite !Z.add_0_l.
  set (w1 := record_errors "metricsError" (observable_failures w observables) w).
  assert (Hrenders : sum_renders w1 components = sum_renders w components).
  { unfold sum_renders. apply foldr_ext; [|done..]. intros entry total.
    subst w1. by rewrite Component_getMetrics_at_record_errors. }
  assert (Hfail : component_failures w1 components = component_failures w components).
  { unfold component_failures. apply list_omap_ext, Forall2_same_length_lookup.
    split; [done|]. intros i x y Hx Hy. rewrite Hx in Hy. injection Hy as <-.
    subst w1. by rewrite Component_getMetrics_at_record_errors. }
  by rewrite Hrenders, Hfail.
Qed.

(** ** Reset *)

(** C1, as the code has it.  [resetMetrics] replaces the metrics block by
    the empty one and leaves the registry and the registered objects as they
    are, and so does the [getMetrics] that follows.  That [getMetrics]
    returns no slow render, no memory sample and no issue, and a detailed
    block that is [null], or empty when it is asked for or in detailed mode.
    Its three totals are not reset: they are summed again over the
    registered entities whose own [getMetrics] returns; and its error log
    holds one [metricsError] for each registered entity whose [getMetrics]
    throws, up to [maxErrors]. *)
Theorem resetMetrics_then_getMetrics (includeDetailed : bool) (w : World) :
  let reset := resetMetrics w in
  let snapshot := fst (getMetrics includeDetailed reset) in
  let after := snd (getMetrics includeDetailed reset) in
  let observables := _observables (system w) in
  let components := _components (system w) in
  let failures := observable_failures w observables ++ component_failures w components in
  system_metrics (system reset) = empty_metrics ∧
  (_observables (system reset) = observables ∧ _components (system reset) = components ∧
   heap reset = heap w ∧ component_heap reset = component_heap w) ∧
  (_observables (system after) = observables ∧ _components (system after) = components ∧
   heap after = heap w ∧ component_heap after = component_heap w) ∧
  (∀ id, Map_get id (_observables (system after)) = Map_get id observables ∧
         Map_get id (_components (system after)) = Map_get id components) ∧
  totalReads (snapshot_global snapshot) = sum_reads w observables ∧
  totalWrites (snapshot_global snapshot) = sum_writes w observables ∧
  totalRenders (snapshot_global snapshot) = sum_renders w components ∧
  slowRenders (snapshot_global snapshot) = 0 ∧
  memoryUsage (snapshot_global snapshot) = [] ∧
  performanceIssues (snapshot_global snapshot) = [] ∧
  Forall (λ r, error_type r = "metricsError") (errors (snapshot_global snapshot)) ∧
  (failures = [] → errors (snapshot_global snapshot) = []) ∧
  (1 ≤ maxErrors (system w) →
   Z.of_nat (length (errors (snapshot_global snapshot))) =
   Z.min (Z.of_nat (length failures)) (maxErrors (system w))) ∧
  snapshot_detailed snapshot =
    (if includeDetailed || isDetailedMode (system w) then Some ∅ else None).
Proof.
  intros reset snapshot after observables components failures.
  assert (Hafter : after = updateGlobalCounters reset) by done.
  assert (Hsnapshot : snapshot =
    mkMetricsSnapshot (global (system_metrics (system after)))
      (if includeDetailed || isDetailedMode (system after)
       then Some (detailed (system_metrics (system after))) else None)) by done.
  clearbody after snapshot.
  rewrite updateGlobalCounters_spec in Hafter.
  change (_observables (system reset)) with observables in Hafter.
  change (_components (system reset)) with components in Hafter.
  change (observable_failures reset observables) with (observable_failures w observables)
    in Hafter.
  change (component_failures reset components) with (component_failures w components)
    in Hafter.
  fold failures in Hafter.
  destruct (record_errors_system "metricsError" failures reset)
    as (records & Hlen & Htype & Hsys & Hheap & Hcomp & _).
  rewrite Hsys in Hafter. cbn in Hafter.
  assert (Herrors : errors (snapshot_global snapshot) =
                    fold_left (push_capped (maxErrors (system w))) records []).
  { rewrite Hsnapshot, Hafter. done. }
  split_and!; try done; try (rewrite ?Hsnapshot, Hafter; done).
  - rewrite Herrors. by apply push_capped_all_Forall.
  - intros Hnone. rewrite Herrors. rewrite Hnone in Hlen. by destruct records.
  - intros Hcap. rewrite Herrors. destruct records as [|r records].
    + cbn in *. rewrite <- Hlen. lia.
    + rewrite push_capped_all_length by done. rewrite <- Hlen. cbn [length]. lia.
Qed.

(** One write, a reset, and [getMetrics] reports the write. *)
Lemma reset_keeps_counters_counterexample :
  ¬ (∀ (includeDetailed : bool) (w : World),
       let snapshot := snapshot_global (fst (getMetrics includeDetailed (resetMetrics w))) in
       totalReads snapshot = 0 ∧ totalWrites snapshot = 0 ∧ totalRenders snapshot = 0 ∧
       slowRenders snapshot = 0 ∧ performanceIssues snapshot = [] ∧ errors snapshot = []).
Proof.
  intros Hclaim. destruct (Hclaim false written_once) as (_ & Hwrites & _).
  vm_compute in Hwrites. discriminate Hwrites.
Qed.

(** ** Sorting *)

Section Sorting.
Context {A : Type} (compareFn : A → A → Q).

Hypothesis before_total : ∀ x y, before compareFn x y ∨ before compareFn y x.
Hypothesis before_trans :
  ∀ x y z, before compareFn x y → before compareFn y z → before compareFn x z.





End Sorting.

(** ** Hotspots *)









(** ** Creation *)

(** [new Observable(v)]: a new object at the end of the heap, registered
    under a new identifier. *)
Lemma new_Observable_spec v w :
  new_Observable v w =
  (length (heap w),
   mkWorld
     (heap w ++ [mkObservable ("obs" +:+ "_" +:+ nat_toString (nextId w)) v []
                   (mkObservableMetrics 0 0 0 0 (Date_now (host w) (date_calls (host w))) [])
                   None])
     (component_heap w)
     (with_observables
        (Map_set ("obs" +:+ "_" +:+ nat_toString (nextId w)) (length (heap w))
                 (_observables (system w))) (system w))
     (S (nextId w))
     (host (snd (now w)))).
Proof.
  unfold new_Observable, now, register, generateId. cbn -[String.append nat_toString].
  f_equal. unfold with_heap. cbn -[String.append nat_toString]. f_equal.
  replace (length (heap w)) with (length (heap w) + 0)%nat at 1 by lia.
  by rewrite (alter_app_r _ (heap w) [_] 0).
Qed.





Lemma Map_get_set {A} key (v : A) m : Map_get key (Map_set key v m) = Some v.
Proof.
  induction m as [|[k old] m IH]; cbn.
  - by rewrite String.eqb_refl.
  - destruct (String.eqb k key) eqn:Hk; cbn; rewrite Hk; [done | exact IH].
Qed.


(** ** Values without a JSON text *)



(** ** Text *)

Lemma String_app (c : ascii) (a b : string) : String c a +:+ b = String c (a +:+ b).
Proof. reflexivity. Qed.




















(** ** Notification *)

Lemma recordError_heap type error ctx w : heap (recordError type error ctx w) = heap w.
Proof. done. Qed.

Lemma caught_heap result w : heap (caught result w) = heap w.
Proof. by destruct result. Qed.

(** One step of the walk. *)
Lemma forEach_subscriber_step invoke steps self v index w this :
  heap w !! self = Some this →
  forEach_subscriber invoke (S steps) self v index w =
  match _subscribers this !! index with
  | None => Some (Normal [], w)
  | Some None => forEach_subscriber invoke steps self v (S index) w
  | Some (Some f) =>
      match invoke f v w with
      | Some (result, w1) =>
          match forEach_subscriber invoke steps self v (S index) (caught result w1) with
          | Some (Normal rest, w2) => Some (Normal (mkInvocation f v result :: rest), w2)
          | Some (Throw e, w2) => Some (Throw e, w2)
          | None => None
          end
      | None => None
      end
  end.
Proof.
  intros Hthis. cbn [forEach_subscriber]. unfold bind at 1, this_observable. rewrite Hthis.
  destruct (_subscribers this !! index) as [[f|]|]; [|done|done].
  unfold bind, attempt, effect, ret. destruct (invoke f v w) as [[[[]|error] w1]|]; done.
Qed.

(** When no subscriber touches the set, the walk calls the entries that
    were there when it started, in order. *)
Lemma forEach_subscriber_notified invoke self v steps : ∀ index w this,
  heap w !! self = Some this →
  (∀ f, f ∈ Set_entries (_subscribers this) → keeps_subscribers invoke self f) →
  (0 < steps)%nat →
  (length (_subscribers this) < index + steps)%nat →
  ∃ calls w' this',
    forEach_subscriber invoke steps self v index w = Some (Normal calls, w') ∧
    notified invoke v (Set_entries (drop index (_subscribers this))) w w' calls ∧
    heap w' !! self = Some this' ∧
    _subscribers this' = _subscribers this.
Proof.
  induction steps as [|steps IH]; intros index w this Hthis Hquiet Hpos Hsteps; [lia|].
  - rewrite (forEach_subscriber_step _ _ _ _ _ _ _ Hthis).
    destruct (_subscribers this !! index) as [[f|]|] eqn:Hentry.
    + assert (Hf : f ∈ Set_entries (_subscribers this)).
      { unfold Set_entries. apply list_elem_of_omap. exists (Some f).
        split; [by eapply list_elem_of_lookup_2 | done]. }
      destruct (Hquiet f Hf v w this Hthis) as (result & w1 & this1 & Hcall & Hthis1 & Hsame).
      rewrite Hcall.
      destruct (IH (S index) (caught result w1) this1)
        as (rest & w2 & this2 & Hrun & Hrest & Hthis2 & Hsame2).
      { by rewrite caught_heap. }
      { by rewrite Hsame. }
      { apply lookup_lt_Some in Hentry. lia. }
      { rewrite Hsame. lia. }
      rewrite Hrun. exists (mkInvocation f v result :: rest), w2, this2.
      split_and!; [done | | done | congruence].
      rewrite (drop_S _ _ _ Hentry). cbn [Set_entries omap list_omap id].
      econstructor; [exact Hcall|]. by rewrite Hsame in Hrest.
    + destruct (IH (S index) w this Hthis Hquiet) as (rest & w2 & this2 & Hrun & Hrest & H2);
        [apply lookup_lt_Some in Hentry; lia | lia |].
      exists rest, w2, this2. split_and!; try done; [|apply H2..].
      by rewrite (drop_S _ _ _ Hentry).
    + exists [], w, this. apply lookup_ge_None in Hentry. rewrite drop_ge by done.
      split_and!; try done. constructor.
Qed.

Lemma notified_calls invoke v fs w w' calls :
  notified invoke v fs w w' calls →
  subscriber <$> calls = fs ∧ Forall (λ c, argument c = v) calls.
Proof.
  induction 1 as [|f fs w result w1 w' calls Hcall Hrest [IHs IHa]]; [done|].
  split; [by rewrite fmap_cons, IHs | by constructor].
Qed.

(** *** Running a method step by step *)

Lemma bind_read {A B} (f : World → A * World) (k : A → M B) w :
  (x <- read f ;; k x) w = k (fst (f w)) (snd (f w)).
Proof. unfold bind, read. by destruct (f w). Qed.

Lemma bind_inspect {A B} (f : World → A) (k : A → M B) w :
  (x <- inspect f ;; k x) w = k (f w) w.
Proof. done. Qed.

Lemma bind_effect {B} (f : World → World) (k : M B) w :
  (effect f ;; k) w = k (f w).
Proof. done. Qed.

Lemma bind_ret {A B} (a : A) (k : A → M B) w : (x <- ret a ;; k x) w = k a w.
Proof. done. Qed.

Lemma bind_this {B} self (k : Observable → M B) w this :
  heap w !! self = Some this →
  (o <- this_observable self ;; k o) w = k this w.
Proof. intros H. unfold bind, this_observable. by rewrite H. Qed.

Lemma bind_update {B} self f (k : M B) w this :
  heap w !! self = Some this →
  (update self f ;; k) w = k (with_heap (<[self := f this]> (heap w)) w).
Proof. intros H. unfold bind. by rewrite (update_at _ _ _ _ H). Qed.

Lemma bind_update_metrics {B} self f (k : M B) w this :
  heap w !! self = Some this →
  (update_metrics self f ;; k) w =
  k (with_heap (<[self := with_observable_metrics (f (_metrics this)) this]> (heap w)) w).
Proof. intros H. unfold update_metrics. by rewrite (bind_update _ _ _ _ _ H). Qed.

Lemma bind_bind {A B C} (m : M A) (k : A → M B) (h : B → M C) w :
  (y <- (x <- m ;; k x) ;; h y) w = (x <- m ;; y <- k x ;; h y) w.
Proof. unfold bind. by destruct (m w) as [[[a|e] w']|]. Qed.

Lemma perf_now_heap w : heap (snd (perf_now w)) = heap w.
Proof. done. Qed.


Lemma recordMetric_heap name value tags w : heap (recordMetric name value tags w) = heap w.
Proof.
  unfold recordMetric, random. cbn. by destruct (Qgt_bool _ _).
Qed.

Lemma recordMetric_global name value tags w :
  global (system_metrics (system (recordMetric name value tags w))) =
  global (system_metrics (system w)).
Proof.
  unfold recordMetric, random. cbn. by destruct (Qgt_bool _ _).
Qed.


















(** ** Sequences of writes *)





(** ** Errors of a computation *)





(** A write to the dependency of a computed whose compute function throws:
    the write returns, its only call, to the listener, has returned, and
    the error is counted and logged. *)
Example dependency_write_survives :
  ∃ w',
    set_value sample_user 4 0 (VNumber 6) failing_computed =
      Some (Normal [mkInvocation (DependencyListener 1 0) (VNumber 6) (Normal tt)], w') ∧
    computeErrors (_computeMetrics (computed_at 1 w')) = 2 ∧
    error_type <$> errors (global (system_metrics (system w'))) =
      ["computeError"; "computeError"].
Proof. eexists. split_and!; vm_compute; reflexivity. Qed.



(** Outside the hypothesis of C2 and C6: a subscriber that unsubscribes a
    later one while it is notified.  The set had two subscribers when the
    write began; the walk finds the second entry deleted and calls the
    first subscriber only. *)
Example unsubscribed_while_notified :
  ∃ w' this',
    Set_size (_subscribers (object_at 0 unsubscribing_subscriber)) = 2%nat ∧
    set_value sample_user 4 0 (VNumber 5) unsubscribing_subscriber =
      Some (Normal [mkInvocation (UserFunction 3) (VNumber 5) (Normal tt)], w') ∧
    heap w' !! 0%nat = Some this' ∧
    _subscribers this' = [Some (UserFunction 3); None].
Proof. eexists _, _. split_and!; vm_compute; reflexivity. Qed.


Lemma resetMetrics_then_getMetrics_witness :
  totalWrites (snapshot_global (fst (getMetrics false (resetMetrics written_once)))) =
    sum_writes written_once (_observables (system written_once)) ∧
  errors (snapshot_global (fst (getMetrics false (resetMetrics written_once)))) = [].
Proof.
  destruct (resetMetrics_then_getMetrics false written_once)
    as (_ & _ & _ & _ & _ & Hwrites & _ & _ & _ & _ & _ & Hnone & _).
  split; [exact Hwrites | apply Hnone; vm_compute; reflexivity].
Defined.

(** * Further properties *)

(** ** Observable: reads, writes and subscriptions *)

Lemma recordMetric_but_detailed name value tags w :
  with_detailed ∅ (system (recordMetric name value tags w)) = with_detailed ∅ (system w).
Proof.
  unfold recordMetric, random. cbn. by destruct (Qgt_bool _ _).
Qed.

Lemma recordMetric_component_heap name value tags w :
  component_heap (recordMetric name value tags w) = component_heap w.
Proof.
  unfold recordMetric, random. cbn. by destruct (Qgt_bool _ _).
Qed.

(** One read. *)
Lemma get_value_spec self w this :
  heap w !! self = Some this →
  let m := _metrics this in
  let read_at := Date_now (host w) (date_calls (host w)) in
  let entries :=
    if isDetailedMode (system w)
    then [ReadEntry (Date_now (host w) (S (date_calls (host w)))) (Error_stack (host w))]
    else [] in
  ∃ w',
    get_value self w = Some (Normal (_value this), w') ∧
    heap w' =
      <[self := with_observable_metrics
                  (mkObservableMetrics (reads m + 1) (writes m) (subscriptions m)
                     (computeTime m) read_at (history m ++ entries)) this]> (heap w) ∧
    with_detailed ∅ (system w') = with_detailed ∅ (system w) ∧
    component_heap w' = component_heap w.
Proof.
  intros Hthis m read_at entries. unfold get_value.
  rewrite bind_read. rewrite (bind_update_metrics _ _ _ _ this) by exact Hthis.
  rewrite bind_read.
  set (counted := with_observable_metrics _ this).
  assert (Hcounted : ∀ h, h !! self = Some this → <[self := counted]> h !! self = Some counted)
    by (intros h Hh; eapply lookup_updated, Hh).
  rewrite (bind_update_metrics _ _ _ _ counted) by (apply Hcounted, Hthis).
  rewrite bind_inspect.
  set (accessed := with_observable_metrics _ counted).
  cbn [system with_heap snd now perf_now with_host].
  subst entries. destruct (isDetailedMode (system w)).
  - rewrite bind_bind, bind_inspect, bind_bind, bind_read.
    rewrite (bind_update_metrics _ _ _ _ accessed)
      by (cbn; rewrite list_insert_insert_eq; eapply lookup_updated, Hthis).
    set (logged := with_observable_metrics _ accessed).
    rewrite (bind_this _ _ _ logged)
      by (cbn; rewrite !list_insert_insert_eq; eapply lookup_updated, Hthis).
    rewrite bind_read, bind_effect. eexists. split; [reflexivity|].
    rewrite recordMetric_heap, recordMetric_but_detailed, recordMetric_component_heap.
    cbn. by rewrite !list_insert_insert_eq.
  - rewrite bind_ret.
    rewrite (bind_this _ _ _ accessed)
      by (cbn; rewrite !list_insert_insert_eq; eapply lookup_updated, Hthis).
    rewrite bind_read, bind_effect. eexists. split; [reflexivity|].
    rewrite recordMetric_heap, recordMetric_but_detailed, recordMetric_component_heap.
    cbn. rewrite !list_insert_insert_eq. by rewrite app_nil_r.
Qed.

(** X1. Reading [observable.value] [n] times in a row returns the stored
    value each time and changes nothing but the bookkeeping of that
    Observable: [reads] grows by [n], and the history gains one read entry
    per read in detailed mode, none otherwise.  The value, the subscribers,
    the other counters, every other Observable, the components and the
    system (the detailed series that [recordMetric] feeds apart) are as
    before. *)
Theorem reads_are_counted_and_change_nothing (n self : nat) (w : World) (this : Observable) :
  heap w !! self = Some this →
  ∃ w' this' entries,
    read_all n self w = Some (Normal (replicate n (_value this)), w') ∧
    heap w' !! self = Some this' ∧
    _id this' = _id this ∧
    _value this' = _value this ∧
    _subscribers this' = _subscribers this ∧
    _computed this' = _computed this ∧
    reads (_metrics this') = reads (_metrics this) + Z.of_nat n ∧
    writes (_metrics this') = writes (_metrics this) ∧
    subscriptions (_metrics this') = subscriptions (_metrics this) ∧
    computeTime (_metrics this') = computeTime (_metrics this) ∧
    history (_metrics this') = history (_metrics this) ++ entries ∧
    Forall is_read entries ∧
    length entries = (if isDetailedMode (system w) then n else 0%nat) ∧
    (∀ other, other ≠ self → heap w' !! other = heap w !! other) ∧
    with_detailed ∅ (system w') = with_detailed ∅ (system w) ∧
    component_heap w' = component_heap w.
Proof.
  revert w this. induction n as [|n IH]; intros w this Hthis.
  - exists w, this, []. rewrite app_nil_r. split_and!; try done; [lia | by destruct (isDetailedMode _)].
  - destruct (get_value_spec self w this Hthis) as (w1 & Hread & Hheap & Hsystem & Hcomponents).
    cbn zeta in Hheap.
    set (read := with_observable_metrics _ this) in Hheap.
    assert (Hread1 : heap w1 !! self = Some read)
      by (rewrite Hheap; eapply lookup_updated, Hthis).
    destruct (IH w1 read Hread1)
      as (w' & this' & entries & Hrest & Hthis' & Hid & Hvalue & Hsubs & Hcomputed & Hreads
          & Hwrites & Hsubscriptions & Hcompute & Hhistory & Hentries & Hlength & Hothers
          & Hsystem' & Hcomponents').
    assert (Hmode : isDetailedMode (system w1) = isDetailedMode (system w))
      by (apply (f_equal isDetailedMode) in Hsystem; exact Hsystem).
    exists w', this'.
    eexists (_ ++ entries).
    split_and!.
    + cbn [read_all]. unfold bind at 1. rewrite Hread. unfold bind at 1. by rewrite Hrest.
    + done.
    + by rewrite Hid.
    + by rewrite Hvalue.
    + by rewrite Hsubs.
    + by rewrite Hcomputed.
    + rewrite Hreads. cbn. lia.
    + by rewrite Hwrites.
    + by rewrite Hsubscriptions.
    + by rewrite Hcompute.
    + rewrite Hhistory. cbn. by rewrite <- app_assoc.
    + apply Forall_app. split; [|done]. by destruct (isDetailedMode (system w)); repeat constructor.
    + rewrite length_app, Hlength, Hmode. by destruct (isDetailedMode (system w)).
    + intros other Hother. rewrite (Hothers other Hother), Hheap.
      by apply list_lookup_insert_ne.
    + by rewrite Hsystem'.
    + by rewrite Hcomponents'.
Qed.

Lemma reads_are_counted_and_change_nothing_witness :
  ∃ w' this',
    read_all 3 0 three_subscribers = Some (Normal [VNumber 0; VNumber 0; VNumber 0], w') ∧
    heap w' !! 0%nat = Some this' ∧
    reads (_metrics this') = 3 ∧
    Set_size (_subscribers this') = 3%nat.
Proof.
  destruct (reads_are_counted_and_change_nothing 3 0 three_subscribers
              (object_at 0 three_subscribers) eq_refl)
    as (w' & this' & entries & Hrun & Hthis' & _ & _ & Hsubs & _ & Hreads & _).
  exists w', this'. split; [exact Hrun|]. split; [exact Hthis'|].
  split; [rewrite Hreads; reflexivity | rewrite Hsubs; reflexivity].
Defined.


Lemma subscribe_times_spec f n : ∀ self w this,
  heap w !! self = Some this →
  ∃ w' this',
    subscribe_times n self (VFunction f) w = Some (Normal tt, w') ∧
    heap w' = <[self := this']> (heap w) ∧
    system w' = system w ∧ host w' = host w ∧
    this' = with_subscribers
              (match n with O => _subscribers this | S _ => Set_add f (_subscribers this) end)
              (with_observable_metrics
                 (with_subscriptions (subscriptions (_metrics this) + Z.of_nat n)
                                     (_metrics this)) this).
Proof.
  induction n as [|n IH]; intros self w this Hthis.
  - exists w, this. split_and!; try done.
    + by rewrite list_insert_id.
    + destruct this as [? ? ? [] ?]. cbn. unfold with_subscribers, with_observable_metrics, with_subscriptions.
      cbn. by rewrite Z.add_0_r.
  - unfold subscribe_times. cbn [times]. rewrite bind_bind. unfold bind at 1.
    rewrite (subscribe_at _ _ _ _ Hthis). rewrite bind_ret.
    match goal with |- context [with_heap (<[_ := ?o]> _) w] =>
      destruct (IH self (with_heap (<[self := o]> (heap w)) w) o (lookup_updated _ _ _ _ Hthis))
        as (w' & this' & Hrun & Hheap & Hsystem & Hhost & Hthis')
    end.
    exists w'. eexists. split; [exact Hrun|]. cbn in Hheap.
    rewrite list_insert_insert_eq in Hheap. split; [exact Hheap|].
    split; [done|]. split; [done|].
    rewrite Hthis'. unfold with_subscribers, with_observable_metrics, with_subscriptions. cbn.
    f_equal.
    + destruct n; [done|]. unfold Set_add at 1.
      assert (Hhas : Set_has f (Set_add f (_subscribers this)) = true)
        by (apply Set_has_spec, Set_add_has).
      by rewrite Hhas.
    + f_equal. lia.
Qed.

(** X3. Subscribing the same callback [n >= 1] times leaves it once in the
    subscriber set (at the end if it was not there, where it was otherwise;
    a set without duplicates stays so), while the [subscriptions] counter
    grows by [n].  One call of the returned function then removes the
    callback and leaves the counter [n - 1] above what it was. *)
Theorem subscribing_again_only_counts (f : JsFunction) (n self : nat) (w : World)
        (this : Observable) :
  heap w !! self = Some this →
  (1 ≤ n)%nat →
  ∃ w' this',
    subscribe_times n self (VFunction f) w = Some (Normal tt, w') ∧
    heap w' !! self = Some this' ∧
    Set_entries (_subscribers this') =
      (if Set_has f (_subscribers this) then Set_entries (_subscribers this)
       else Set_entries (_subscribers this) ++ [f]) ∧
    (NoDup (Set_entries (_subscribers this)) → NoDup (Set_entries (_subscribers this'))) ∧
    subscriptions (_metrics this') = subscriptions (_metrics this) + Z.of_nat n ∧
    _value this' = _value this ∧
    system w' = system w ∧
    ∃ w'' after,
      unsubscribe (mkUnsubscriber self f) w' = Some (Normal tt, w'') ∧
      heap w'' !! self = Some after ∧
      (f ∉ Set_entries (_subscribers after)) ∧
      subscriptions (_metrics after) = (subscriptions (_metrics this) + Z.of_nat n) - 1.
Proof.
  intros Hthis Hn.
  destruct (subscribe_times_spec f n self w this Hthis)
    as (w' & this' & Hrun & Hheap & Hsystem & _ & Hthis').
  assert (Hat : heap w' !! self = Some this') by (rewrite Hheap; eapply lookup_updated, Hthis).
  destruct n as [|n]; [lia|].
  assert (Hsubs : _subscribers this' = Set_add f (_subscribers this)) by (by rewrite Hthis').
  exists w', this'. split_and!; try done.
  - by rewrite Hsubs, Set_entries_add.
  - intros Hnodup. rewrite Hsubs, Set_entries_add.
    destruct (Set_has f (_subscribers this)) eqn:Hhas; [done|].
    apply NoDup_app. split_and!; [done | | apply NoDup_singleton].
    intros g Hg ->%list_elem_of_singleton.
    apply Set_has_spec in Hg. congruence.
  - by rewrite Hthis'.
  - by rewrite Hthis'.
  - eexists _, _. split; [apply (unsubscribe_at (mkUnsubscriber self f) w' this' Hat)|].
    cbn. split; [eapply lookup_updated, Hat|]. cbn. split.
    + fold (Set_delete f (_subscribers this')). rewrite Set_entries_delete.
      intros Hin. apply list_elem_of_filter in Hin. destruct Hin as [Hne _]. by apply Hne.
    + rewrite Hthis'. cbn. lia.
Qed.

Lemma subscribing_again_only_counts_witness :
  ∃ w' this' w'' after,
    subscribe_times 2 0 (VFunction (UserFunction 5)) three_subscribers = Some (Normal tt, w') ∧
    heap w' !! 0%nat = Some this' ∧
    Set_size (_subscribers this') = 4%nat ∧
    subscriptions (_metrics this') = 5 ∧
    unsubscribe (mkUnsubscriber 0 (UserFunction 5)) w' = Some (Normal tt, w'') ∧
    heap w'' !! 0%nat = Some after ∧
    subscriptions (_metrics after) = 4.
Proof.
  destruct (subscribing_again_only_counts (UserFunction 5) 2 0 three_subscribers
              (object_at 0 three_subscribers) eq_refl)
    as (w' & this' & Hrun & Hthis' & Hentries & _ & Hcount & _ & _ & w'' & after & Hun & Hafter
        & _ & Hleft); [lia|].
  exists w', this', w'', after.
  split; [exact Hrun|]. split; [exact Hthis'|].
  split; [unfold Set_size; rewrite Hentries; reflexivity|].
  split; [rewrite Hcount; reflexivity|].
  split; [exact Hun|]. split; [exact Hafter|]. rewrite Hleft. reflexivity.
Defined.

(** The setter up to the test of line 81: the write is counted and, in
    detailed mode, logged; the rest runs in [wb]. *)
Lemma set_value_with_begin invoke steps self v w this :
  heap w !! self = Some this →
  let m := _metrics this in
  let entries :=
    if isDetailedMode (system w)
    then [WriteEntry (Date_now (host w) (date_calls (host w))) (_value this) v
                     (Error_stack (host w))]
    else [] in
  let counted :=
    with_observable_metrics
      (mkObservableMetrics (reads m) (writes m + 1) (subscriptions m) (computeTime m)
                           (lastAccessed m) (history m ++ entries)) this in
  ∃ wb,
    heap wb = <[self := counted]> (heap w) ∧
    system wb = system w ∧
    component_heap wb = component_heap w ∧
    set_value_with invoke steps self v w =
      (calls <-
         (if Object_is (_value this) v then ret []
          else
            update self (with_value v) ;;
            updateStartTime <- read perf_now ;;
            calls <- forEach_subscriber invoke steps self v 0 ;;
            updateEndTime <- read perf_now ;;
            effect (recordMetric "updateTime" (updateEndTime - updateStartTime) []) ;;
            this <- this_observable self ;;
            effect (recordMetric "subscriberCount"
                      (inject_Z (Z.of_nat (Set_size (_subscribers this)))) []) ;;
            ret calls) ;;
       endTime <- read perf_now ;;
       effect (recordMetric "writeTime" (endTime - fst (perf_now w)) []) ;;
       ret calls) wb.
Proof.
  intros Hthis m entries counted. unfold set_value_with.
  rewrite bind_read. rewrite (bind_update_metrics _ _ _ _ this) by exact Hthis.
  rewrite bind_inspect.
  set (written := with_observable_metrics _ this).
  cbn [system with_heap snd perf_now with_host].
  subst entries counted. destruct (isDetailedMode (system w)).
  - rewrite bind_bind, bind_inspect, bind_bind, bind_read, bind_bind.
    rewrite (bind_this _ _ _ written) by (cbn; eapply lookup_updated, Hthis).
    rewrite (bind_update_metrics _ _ _ _ written) by (cbn; eapply lookup_updated, Hthis).
    set (logged := with_observable_metrics _ written).
    rewrite (bind_this _ _ _ logged) by (cbn; eapply lookup_updated, lookup_updated, Hthis).
    eexists. split_and!; [| | |reflexivity]; [|done|done].
    cbn. by rewrite !list_insert_insert_eq.
  - rewrite bind_ret.
    rewrite (bind_this _ _ _ written) by (cbn; eapply lookup_updated, Hthis).
    eexists. split_and!; [| | |reflexivity]; [|done|done].
    cbn. by rewrite app_nil_r.
Qed.

(** A write of the stored value. *)
Lemma set_value_with_unchanged invoke steps self v w this :
  heap w !! self = Some this →
  Object_is (_value this) v = true →
  let m := _metrics this in
  let entries :=
    if isDetailedMode (system w)
    then [WriteEntry (Date_now (host w) (date_calls (host w))) (_value this) v
                     (Error_stack (host w))]
    else [] in
  ∃ w',
    set_value_with invoke steps self v w = Some (Normal [], w') ∧
    heap w' =
      <[self := with_observable_metrics
                  (mkObservableMetrics (reads m) (writes m + 1) (subscriptions m)
                     (computeTime m) (lastAccessed m) (history m ++ entries)) this]> (heap w) ∧
    with_detailed ∅ (system w') = with_detailed ∅ (system w) ∧
    component_heap w' = component_heap w.
Proof.
  intros Hthis Hsame m entries.
  destruct (set_value_with_begin invoke steps self v w this Hthis)
    as (wb & Hheap & Hsystem & Hcomponents & ->).
  rewrite Hsame, bind_ret, bind_read, bind_effect.
  eexists. split; [reflexivity|].
  rewrite recordMetric_heap, recordMetric_but_detailed, recordMetric_component_heap.
  cbn [snd perf_now with_host heap system component_heap].
  by rewrite Hsystem, Hcomponents.
Qed.

(** X4. [silentSet] stores the value and nothing else: no counter moves, no
    subscriber is called, nothing is recorded.  The write of the same value
    that follows is then taken for no change: it is counted in [writes] but
    calls no subscriber, so that a value set silently is never announced. *)
Theorem silentSet_hides_the_change
        (user : nat → list JsValue → World → completion JsValue * World)
        (fuel self : nat) (value : JsValue) (w : World) (this : Observable) :
  heap w !! self = Some this →
  ∃ w1 w' this',
    silentSet self value w = Some (Normal tt, w1) ∧
    heap w1 = <[self := with_value value this]> (heap w) ∧
    system w1 = system w ∧
    host w1 = host w ∧
    set_value user fuel self value w1 = Some (Normal [], w') ∧
    heap w' !! self = Some this' ∧
    _value this' = value ∧
    _subscribers this' = _subscribers this ∧
    writes (_metrics this') = writes (_metrics this) + 1 ∧
    with_detailed ∅ (system w') = with_detailed ∅ (system w).
Proof.
  intros Hthis. unfold silentSet. rewrite (update_at _ _ _ _ Hthis).
  set (w1 := with_heap _ w).
  assert (Hset : heap w1 !! self = Some (with_value value this))
    by (eapply lookup_updated, Hthis).
  destruct (set_value_with_unchanged (invoke user fuel) fuel self value w1 _ Hset)
    as (w' & Hrun & Hheap & Hsystem & _); [by apply bool_decide_eq_true|].
  assert (Hthis' : ∃ this', heap w' !! self = Some this' ∧ _value this' = value ∧
            _subscribers this' = _subscribers this ∧
            writes (_metrics this') = writes (_metrics this) + 1).
  { eexists. split; [rewrite Hheap; eapply lookup_updated, Hset | done]. }
  destruct Hthis' as (this' & Hthis' & Hvalue & Hsubs & Hwrites).
  exists w1, w', this'. split_and!; done.
Qed.

Lemma silentSet_hides_the_change_witness :
  ∃ w1 w',
    silentSet 0 (VNumber 5) three_subscribers = Some (Normal tt, w1) ∧
    set_value sample_user 4 0 (VNumber 5) w1 = Some (Normal [], w').
Proof.
  destruct (silentSet_hides_the_change sample_user 4 0 (VNumber 5) three_subscribers
              (object_at 0 three_subscribers) eq_refl)
    as (w1 & w' & this' & Hsilent & _ & _ & _ & Hwrite & _).
  exists w1, w'. split; [exact Hsilent | exact Hwrite].
Defined.






(** ** The registry, the configuration and polling *)

Lemma nat_toString_inj n m : nat_toString n = nat_toString m → n = m.
Proof.
  unfold nat_toString. intros H. apply Unsigned.to_uint_inj.
  apply (f_equal NilEmpty.uint_of_string) in H. rewrite !NilEmpty.usu in H. congruence.
Qed.

Lemma Map_get_absent {A} key (m : list (string * A)) :
  Forall (λ entry, fst entry ≠ key) m → Map_get key m = None.
Proof.
  induction 1 as [|[k v] m Hk _ IH]; [done|]. cbn in *.
  destruct (String.eqb_spec k key); [done | exact IH].
Qed.

Lemma Map_set_absent {A} key (v : A) (m : list (string * A)) :
  Forall (λ entry, fst entry ≠ key) m → Map_set key v m = m ++ [(key, v)].
Proof.
  induction 1 as [|[k old] m Hk _ IH]; [done|]. cbn in *.
  destruct (String.eqb_spec k key); [done | by rewrite IH].
Qed.

Lemma Map_get_set_ne {A} key other (v : A) (m : list (string * A)) :
  other ≠ key → Map_get other (Map_set key v m) = Map_get other m.
Proof.
  intros Hne. induction m as [|[k old] m IH]; cbn.
  - destruct (String.eqb_spec key other); [congruence | done].
  - destruct (String.eqb_spec k key) as [->|Hk]; cbn.
    + destruct (String.eqb_spec key other); [congruence | done].
    + destruct (String.eqb_spec k other); [done | exact IH].
Qed.

Lemma generated_mono prefix bound bound' id :
  (bound ≤ bound')%nat → generated prefix bound id → generated prefix bound' id.
Proof. intros Hle (k & Hk & ->). exists k. split; [lia | done]. Qed.

Lemma generated_fresh prefix bound id :
  generated prefix bound id → id ≠ prefix +:+ "_" +:+ nat_toString bound.
Proof.
  intros (k & Hk & ->) Heq.
  apply String.app_inj, String.app_inj, nat_toString_inj in Heq. lia.
Qed.

Lemma generated_apart bound id n :
  generated "obs" bound id → id ≠ "comp" +:+ "_" +:+ nat_toString n.
Proof. intros (k & _ & ->). rewrite !String_app. discriminate. Qed.

Lemma generated_apart' bound id n :
  generated "comp" bound id → id ≠ "obs" +:+ "_" +:+ nat_toString n.
Proof. intros (k & _ & ->). rewrite !String_app. discriminate. Qed.

(** X7. Identifiers are fresh.  In a store whose registered identifiers
    were all generated ([obs_k] or [comp_k] with [k] below the counter),
    [register] returns [obs_] followed by the counter and
    [registerComponent] returns [comp_] followed by the counter, an
    identifier that is in neither registry; the entry is added at the end
    of its registry, every other key maps to what it did, the counter moves
    by one and the store is again of that kind.  [new Observable] allocates
    the next address, takes such an identifier and is found under it in the
    registry. *)
Theorem generated_ids_are_fresh (w : World) :
  registry_generated w →
  (∀ observable,
     let id := fst (register observable w) in
     let w' := snd (register observable w) in
     id = "obs_" +:+ nat_toString (nextId w) ∧
     Map_get id (_observables (system w)) = None ∧
     Map_get id (_components (system w)) = None ∧
     _observables (system w') = _observables (system w) ++ [(id, observable)] ∧
     _components (system w') = _components (system w) ∧
     Map_get id (_observables (system w')) = Some observable ∧
     (∀ key, key ≠ id →
             Map_get key (_observables (system w')) = Map_get key (_observables (system w))) ∧
     nextId w' = S (nextId w) ∧
     registry_generated w') ∧
  (∀ component,
     let id := fst (registerComponent component w) in
     let w' := snd (registerComponent component w) in
     id = "comp_" +:+ nat_toString (nextId w) ∧
     Map_get id (_components (system w)) = None ∧
     Map_get id (_observables (system w)) = None ∧
     _components (system w') = _components (system w) ++ [(id, component)] ∧
     _observables (system w') = _observables (system w) ∧
     Map_get id (_components (system w')) = Some component ∧
     (∀ key, key ≠ id →
             Map_get key (_components (system w')) = Map_get key (_components (system w))) ∧
     nextId w' = S (nextId w) ∧
     registry_generated w') ∧
  (∀ initialValue,
     let this := fst (new_Observable initialValue w) in
     let w' := snd (new_Observable initialValue w) in
     ∃ created,
       this = length (heap w) ∧
       heap w' = heap w ++ [created] ∧
       _id created = "obs_" +:+ nat_toString (nextId w) ∧
       Map_get (_id created) (_observables (system w')) = Some this ∧
       registry_generated w').
Proof.
  intros [Hobservables Hcomponents].
  assert (Hfresh : Forall (λ entry : string * nat,
                      fst entry ≠ "obs" +:+ "_" +:+ nat_toString (nextId w))
                     (_observables (system w)))
    by (eapply Forall_impl; [exact Hobservables | intros e; apply generated_fresh]).
  assert (Hfresh' : Forall (λ entry : string * nat,
                       fst entry ≠ "comp" +:+ "_" +:+ nat_toString (nextId w))
                      (_components (system w)))
    by (eapply Forall_impl; [exact Hcomponents | intros e; apply generated_fresh]).
  assert (Hapart : Forall (λ entry : string * nat,
                      fst entry ≠ "comp" +:+ "_" +:+ nat_toString (nextId w))
                     (_observables (system w)))
    by (eapply Forall_impl; [exact Hobservables | intros e He; eapply generated_apart, He]).
  assert (Hapart' : Forall (λ entry : string * nat,
                       fst entry ≠ "obs" +:+ "_" +:+ nat_toString (nextId w))
                      (_components (system w)))
    by (eapply Forall_impl; [exact Hcomponents | intros e He; eapply generated_apart', He]).
  assert (Hnext : ∀ prefix registry,
            Forall (λ entry : string * nat, generated prefix (nextId w) (fst entry)) registry →
            Forall (λ entry : string * nat, generated prefix (S (nextId w)) (fst entry))
                   registry).
  { intros prefix registry H. eapply Forall_impl; [exact H|].
    intros e. apply generated_mono. lia. }
  assert (Hself : ∀ prefix, generated prefix (S (nextId w))
                                      (prefix +:+ "_" +:+ nat_toString (nextId w)))
    by (intros prefix; exists (nextId w); split; [lia | done]).
  split_and!.
  - intros observable. unfold register, generateId. cbn.
    change ("obs_" +:+ ?s) with ("obs" +:+ "_" +:+ s).
    split_and!; try done.
    + by apply Map_get_absent.
    + by apply Map_get_absent.
    + by apply Map_set_absent.
    + apply Map_get_set.
    + intros key Hkey. by apply Map_get_set_ne.
    + split; cbn; [|by apply Hnext].
      rewrite Map_set_absent by done. apply Forall_app. split; [by apply Hnext|].
      constructor; [apply Hself | constructor].
  - intros component. unfold registerComponent, generateId. cbn.
    change ("comp_" +:+ ?s) with ("comp" +:+ "_" +:+ s).
    split_and!; try done.
    + by apply Map_get_absent.
    + by apply Map_get_absent.
    + by apply Map_set_absent.
    + apply Map_get_set.
    + intros key Hkey. by apply Map_get_set_ne.
    + split; cbn; [by apply Hnext|].
      rewrite Map_set_absent by done. apply Forall_app. split; [by apply Hnext|].
      constructor; [apply Hself | constructor].
  - intros initialValue. rewrite new_Observable_spec. cbn.
    eexists. split_and!; try done.
    + cbn. apply Map_get_set.
    + split; cbn; [|by apply Hnext].
      rewrite Map_set_absent by done. apply Forall_app. split; [by apply Hnext|].
      constructor; [apply Hself | constructor].
Qed.

Lemma generated_ids_are_fresh_witness :
  fst (register 0 (initial_world sample_host)) = "obs_1" ∧
  fst (registerComponent 0 (snd (register 0 (initial_world sample_host)))) = "comp_2".
Proof.
  destruct (generated_ids_are_fresh (initial_world sample_host)) as (Hfirst & _ & _).
  { split; constructor. }
  destruct (Hfirst 0%nat) as (Hid & _ & _ & _ & _ & _ & _ & _ & Hnext).
  destruct (generated_ids_are_fresh (snd (register 0 (initial_world sample_host))) Hnext)
    as (_ & Hsecond & _).
  destruct (Hsecond 0%nat) as (Hid' & _).
  split; [exact Hid | exact Hid'].
Defined.


(** What [updateGlobalCounters] sums depends on the heaps and on the texts
    of the host only. *)
Lemma sums_ext w w' :
  (∀ obs, getMetrics_at w' obs = getMetrics_at w obs) →
  (∀ comp, Component_getMetrics_at w' comp = Component_getMetrics_at w comp) →
  ∀ registry,
    sum_reads w' registry = sum_reads w registry ∧
    sum_writes w' registry = sum_writes w registry ∧
    sum_renders w' registry = sum_renders w registry ∧
    observable_failures w' registry = observable_failures w registry ∧
    component_failures w' registry = component_failures w registry.
Proof.
  intros Hobs Hcomp registry.
  unfold sum_reads, sum_writes, sum_renders, observable_failures, component_failures,
    contribution.
  induction registry as [|[id addr] registry (IH1 & IH2 & IH3 & IH4 & IH5)]; [done|].
  cbn. rewrite Hobs, Hcomp, IH1, IH2, IH3, IH4, IH5. done.
Qed.

Lemma updateGlobalCounters_reads w :
  (∀ obs, getMetrics_at (updateGlobalCounters w) obs = getMetrics_at w obs) ∧
  (∀ comp, Component_getMetrics_at (updateGlobalCounters w) comp =
           Component_getMetrics_at w comp).
Proof.
  rewrite updateGlobalCounters_spec. split; intros addr.
  - etransitivity; [|apply getMetrics_at_record_errors]. reflexivity.
  - etransitivity; [|apply Component_getMetrics_at_record_errors]. reflexivity.
Qed.

(** One refresh of the counters. *)
Lemma updateGlobalCounters_step w :
  let observables := _observables (system w) in
  let components := _components (system w) in
  let failures := observable_failures w observables ++ component_failures w components in
  let after := updateGlobalCounters w in
  let g := global (system_metrics (system w)) in
  let g' := global (system_metrics (system after)) in
  heap after = heap w ∧
  component_heap after = component_heap w ∧
  nextId after = nextId w ∧
  with_global g (system after) = system w ∧
  totalReads g' = sum_reads w observables ∧
  totalWrites g' = sum_writes w observables ∧
  totalRenders g' = sum_renders w components ∧
  slowRenders g' = slowRenders g ∧
  memoryUsage g' = memoryUsage g ∧
  performanceIssues g' = performanceIssues g ∧
  ∃ records,
    length records = length failures ∧
    Forall (λ r, error_type r = "metricsError") records ∧
    errors g' = fold_left (push_capped (maxErrors (system w))) records (errors g).
Proof.
  intros observables components failures after g g'.
  assert (Hafter : after = updateGlobalCounters w) by done.
  clearbody after. rewrite updateGlobalCounters_spec in Hafter.
  fold observables components failures in Hafter.
  destruct (record_errors_system "metricsError" failures w)
    as (records & Hlen & Htype & Hsys & Hheap & Hcomp & Hnext).
  rewrite Hsys in Hafter. subst g g'. rewrite Hafter. cbn.
  split_and!; try done.
  - destruct (system w) as [? ? [[] ?] ? ? ? ? ?]. done.
  - by exists records.
Qed.

(** X9. [getMetrics] can be polled.  After [n] calls, one more returns the
    totals of reads, writes and renders summed over the registered entities
    whose own [getMetrics] returns, with the slow-render counter, the
    memory series and the issue log as they were at the start, and the
    detailed block when it is asked for or in detailed mode ([null]
    otherwise); the heaps and the registry are untouched.  Only the error
    log moves: every call appends one [metricsError] per registered entity
    whose [getMetrics] throws, within the cap [maxErrors], so that [n + 1]
    calls over [k] failing entities have pushed [(n + 1) * k] records. *)
Theorem polling_the_metrics (n : nat) (includeDetailed : bool) (w : World) :
  let observables := _observables (system w) in
  let components := _components (system w) in
  let failures := observable_failures w observables ++ component_failures w components in
  let before := polled n includeDetailed w in
  let snapshot := fst (getMetrics includeDetailed before) in
  let g := global (system_metrics (system w)) in
  heap before = heap w ∧
  component_heap before = component_heap w ∧
  _observables (system before) = observables ∧
  _components (system before) = components ∧
  totalReads (snapshot_global snapshot) = sum_reads w observables ∧
  totalWrites (snapshot_global snapshot) = sum_writes w observables ∧
  totalRenders (snapshot_global snapshot) = sum_renders w components ∧
  slowRenders (snapshot_global snapshot) = slowRenders g ∧
  memoryUsage (snapshot_global snapshot) = memoryUsage g ∧
  performanceIssues (snapshot_global snapshot) = performanceIssues g ∧
  snapshot_detailed snapshot =
    (if includeDetailed || isDetailedMode (system w)
     then Some (detailed (system_metrics (system w))) else None) ∧
  ∃ records,
    length records = (S n * length failures)%nat ∧
    Forall (λ r, error_type r = "metricsError") records ∧
    errors (snapshot_global snapshot) =
      fold_left (push_capped (maxErrors (system w))) records (errors g) ∧
    (failures = [] → errors (snapshot_global snapshot) = errors g) ∧
    (failures ≠ [] → 1 ≤ maxErrors (system w) →
     Z.of_nat (length (errors (snapshot_global snapshot))) =
     Z.min (Z.of_nat (length (errors g)) + Z.of_nat (S n * length failures))
           (maxErrors (system w))).
Proof.
  intros observables components failures before snapshot g.
  assert (Hsteps : ∀ k,
    let after := Nat.iter k updateGlobalCounters w in
    heap after = heap w ∧ component_heap after = component_heap w ∧
    (_observables (system after) = observables ∧
     _components (system after) = components ∧
     maxErrors (system after) = maxErrors (system w) ∧
     isDetailedMode (system after) = isDetailedMode (system w) ∧
     detailed (system_metrics (system after)) = detailed (system_metrics (system w))) ∧
    (∀ obs, getMetrics_at after obs = getMetrics_at w obs) ∧
    (∀ comp, Component_getMetrics_at after comp = Component_getMetrics_at w comp) ∧
    slowRenders (global (system_metrics (system after))) = slowRenders g ∧
    memoryUsage (global (system_metrics (system after))) = memoryUsage g ∧
    performanceIssues (global (system_metrics (system after))) = performanceIssues g ∧
    ((1 ≤ k)%nat →
     totalReads (global (system_metrics (system after))) = sum_reads w observables ∧
     totalWrites (global (system_metrics (system after))) = sum_writes w observables ∧
     totalRenders (global (system_metrics (system after))) = sum_renders w components) ∧
    ∃ records,
      length records = (k * length failures)%nat ∧
      Forall (λ r, error_type r = "metricsError") records ∧
      errors (global (system_metrics (system after))) =
        fold_left (push_capped (maxErrors (system w))) records (errors g)).
  { induction k as [|k IH]; intros after; subst after.
    - cbn [Nat.iter nat_rect]. split_and!; try done; [lia|]. by exists [].
    - change (Nat.iter (S k) updateGlobalCounters w)
        with (updateGlobalCounters (Nat.iter k updateGlobalCounters w)).
      set (previous := Nat.iter k updateGlobalCounters w) in *.
      destruct IH as (Hheap & Hcomp & (Hobservables & Hcomponents & Hcap & Hmode & Hdetailed)
                      & Hobs & Hcomps & Hslow & Hmem & Hissues & _
                      & records & Hlen & Htype & Herrors).
      destruct (updateGlobalCounters_step previous)
        as (Hheap' & Hcomp' & _ & Hsys' & Hreads & Hwrites & Hrenders & Hslow' & Hmem'
            & Hissues' & records' & Hlen' & Htype' & Herrors').
      destruct (updateGlobalCounters_reads previous) as [Hobs' Hcomps'].
      rewrite Hobservables, Hcomponents in *.
      destruct (sums_ext w previous Hobs Hcomps observables) as (S1 & S2 & _ & S4 & _).
      destruct (sums_ext w previous Hobs Hcomps components) as (_ & _ & S3 & _ & S5).
      rewrite S1, S2, S3, S4, S5 in *. fold failures in Hlen'.
      split_and!.
      + by rewrite Hheap'.
      + by rewrite Hcomp'.
      + apply (f_equal _observables) in Hsys'. by rewrite <- Hobservables, <- Hsys'.
      + apply (f_equal _components) in Hsys'. by rewrite <- Hcomponents, <- Hsys'.
      + apply (f_equal maxErrors) in Hsys'. by rewrite <- Hcap, <- Hsys'.
      + apply (f_equal isDetailedMode) in Hsys'. by rewrite <- Hmode, <- Hsys'.
      + apply (f_equal (λ s, detailed (system_metrics s))) in Hsys'.
        by rewrite <- Hdetailed, <- Hsys'.
      + intros obs. by rewrite Hobs'.
      + intros comp. by rewrite Hcomps'.
      + by rewrite Hslow'.
      + by rewrite Hmem'.
      + by rewrite Hissues'.
      + done.
      + exists (records ++ records'). split_and!.
        * rewrite length_app, Hlen, Hlen'. lia.
        * by apply Forall_app.
        * rewrite Herrors', Herrors, Hcap. by rewrite fold_left_app. }
  assert (Hbefore : before = Nat.iter n updateGlobalCounters w) by done.
  assert (Hsnapshot : snapshot =
    mkMetricsSnapshot
      (global (system_metrics (system (Nat.iter (S n) updateGlobalCounters w))))
      (if includeDetailed || isDetailedMode (system (Nat.iter (S n) updateGlobalCounters w))
       then Some (detailed (system_metrics (system (Nat.iter (S n) updateGlobalCounters w))))
       else None)) by done.
  clearbody before snapshot.
  destruct (Hsteps n) as (Hheap & Hcomp & (Hobservables & Hcomponents & _) & _).
  destruct (Hsteps (S n)) as (_ & _ & (_ & _ & _ & Hmode & Hdetailed) & _ & _ & Hslow & Hmem
                              & Hissues & Htotals & records & Hlen & Htype & Herrors).
  destruct Htotals as (Hreads & Hwrites & Hrenders); [lia|].
  rewrite Hbefore, Hsnapshot. cbn [snapshot_global snapshot_detailed].
  split_and!; try done.
  - by rewrite Hmode, Hdetailed.
  - exists records. split_and!; try done.
    + intros Hnone. rewrite Herrors. rewrite Hnone in Hlen.
      replace (S n * length (@nil JsError))%nat with 0%nat in Hlen by (cbn; lia).
      by destruct records.
    + intros Hsome Hcap. rewrite Herrors.
      rewrite push_capped_all_length; [by rewrite Hlen | done |].
      intros ->. cbn in Hlen. destruct failures; [done | cbn in Hlen; lia].
Qed.

(** ** Component: renders *)

Lemma recordMetric_host name value tags w :
  performance_now (host (recordMetric name value tags w)) = performance_now (host w) ∧
  performance_calls (host (recordMetric name value tags w)) = performance_calls (host w).
Proof.
  unfold recordMetric, random. cbn. by destruct (Qgt_bool _ _).
Qed.

Lemma recordMetric_registry name value tags w :
  _observables (system (recordMetric name value tags w)) = _observables (system w) ∧
  _components (system (recordMetric name value tags w)) = _components (system w) ∧
  maxIssues (system (recordMetric name value tags w)) = maxIssues (system w).
Proof.
  unfold recordMetric, random. cbn. by destruct (Qgt_bool _ _).
Qed.

Lemma reportPerformanceIssue_spec details w :
  let w' := reportPerformanceIssue details w in
  let g := global (system_metrics (system w)) in
  let g' := global (system_metrics (system w')) in
  heap w' = heap w ∧
  component_heap w' = component_heap w ∧
  _observables (system w') = _observables (system w) ∧
  _components (system w') = _components (system w) ∧
  maxIssues (system w') = maxIssues (system w) ∧
  performance_now (host w') = performance_now (host w) ∧
  performance_calls (host w') = performance_calls (host w) ∧
  errors g' = errors g ∧
  slowRenders g' = slowRenders g ∧
  performanceIssues g' =
    push_capped (maxIssues (system w)) (performanceIssues g)
                (mkIssue details (Date_now (host w) (date_calls (host w)))).
Proof. done. Qed.

(** One render. *)
Lemma render_step self w this :
  component_heap w !! self = Some this →
  let m := component_metrics this in
  let duration := render_duration w 0 in
  let w' := render self w in
  let g := global (system_metrics (system w)) in
  let g' := global (system_metrics (system w')) in
  component_heap w' =
    <[self := mkComponent (component_id this) (constructor_name this) (_renderId this + 1)
                (_mounted this)
                (mkComponentMetrics (renders m + 1) (renderTime m + duration) duration
                   (updates m) (updateTime m) (createdAt m) (mountedAt m))]>
      (component_heap w) ∧
  heap w' = heap w ∧
  _observables (system w') = _observables (system w) ∧
  _components (system w') = _components (system w) ∧
  maxIssues (system w') = maxIssues (system w) ∧
  performance_now (host w') = performance_now (host w) ∧
  performance_calls (host w') = S (S (performance_calls (host w))) ∧
  errors g' = errors g ∧
  (if Qgt_bool duration 16
   then slowRenders g' = slowRenders g + 1 ∧
        ∃ timestamp,
          performanceIssues g' =
          push_capped (maxIssues (system w)) (performanceIssues g)
            (mkIssue (SlowRender (constructor_name this) duration (_renderId this + 1)
                                 (component_id this)) timestamp)
   else slowRenders g' = slowRenders g ∧ performanceIssues g' = performanceIssues g).
Proof.
  intros Hthis m duration w' g g'. subst w' g'. unfold render. rewrite Hthis.
  cbn [perf_now fst snd host with_host performance_now performance_calls component_heap].
  assert (Hduration :
    (performance_now (host w) (S (performance_calls (host w)))
     - performance_now (host w) (performance_calls (host w)))%Q = duration).
  { unfold duration, render_duration. do 2 f_equal; f_equal; lia. }
  rewrite Hduration.
  set (rendered := mkComponent _ _ _ _ _).
  set (w1 := with_component_heap _ _).
  set (w2 := recordMetric _ _ _ w1).
  destruct (recordMetric_host "componentRenderTime" duration
              [("component", VString (constructor_name rendered));
               ("renderId", VNumber (_renderId rendered));
               ("id", VString (component_id rendered))] w1) as [Hnow Hcalls].
  destruct (recordMetric_registry "componentRenderTime" duration
              [("component", VString (constructor_name rendered));
               ("renderId", VNumber (_renderId rendered));
               ("id", VString (component_id rendered))] w1) as (Hobs & Hcomps & Hcap).
  fold w2 in Hnow, Hcalls, Hobs, Hcomps, Hcap.
  assert (Hcomponents : component_heap w2 = <[self := rendered]> (component_heap w))
    by (unfold w2; by rewrite recordMetric_component_heap).
  assert (Hheap : heap w2 = heap w) by (unfold w2; by rewrite recordMetric_heap).
  assert (Hglobal : global (system_metrics (system w2)) = g)
    by (unfold w2; by rewrite recordMetric_global).
  destruct (Qgt_bool duration 16).
  - set (w3 := reportPerformanceIssue _ w2).
    destruct (reportPerformanceIssue_spec
                (SlowRender (constructor_name rendered) duration (_renderId rendered)
                            (component_id rendered)) w2)
      as (Hheap3 & Hcomponents3 & Hobs3 & Hcomps3 & Hcap3 & Hnow3 & Hcalls3 & Herrors3
          & Hslow3 & Hissues3).
    fold w3 in Hheap3, Hcomponents3, Hobs3, Hcomps3, Hcap3, Hnow3, Hcalls3, Herrors3, Hslow3,
      Hissues3.
    cbn [component_heap heap system host with_system with_global with_metrics
         system_metrics global with_slowRenders errors slowRenders performanceIssues
         _observables _components maxIssues].
    rewrite Hcomponents3, Hheap3, Hobs3, Hcomps3, Hcap3, Hnow3, Hcalls3, Herrors3, Hslow3,
      Hissues3, Hglobal, Hcap.
    split_and!; try done. by eexists.
  - rewrite Hglobal. split_and!; done.
Qed.

Lemma render_duration_shift self w this i :
  component_heap w !! self = Some this →
  render_duration (render self w) i = render_duration w (S i).
Proof.
  intros Hthis. destruct (render_step self w this Hthis)
    as (_ & _ & _ & _ & _ & Hnow & Hcalls & _).
  unfold render_duration. rewrite Hnow, Hcalls.
  replace (S (S (performance_calls (host w))) + 2 * i + 1)%nat
    with (performance_calls (host w) + 2 * S i + 1)%nat by lia.
  replace (S (S (performance_calls (host w))) + 2 * i)%nat
    with (performance_calls (host w) + 2 * S i)%nat by lia.
  reflexivity.
Qed.

(** X10. [n] renders of a component add [n] to its [renders] counter and to
    its [_renderId], add the [n] measured durations to [renderTime] and
    leave the last of them in [lastRenderTime].  A render that measures more
    than 16 ms is slow: [slowRenders] grows by the number of slow renders,
    and the issue log receives one [slowRender] issue of this component for
    each of them, within the cap [maxIssues].  The [updates] counter, the
    mounted flag, the error log, the Observables and the registry are
    untouched. *)
Theorem renders_are_counted (n self : nat) (w : World) (this : Component) :
  component_heap w !! self = Some this →
  let m := component_metrics this in
  let w' := render_all n self w in
  let durations := render_duration w <$> seq 0 n in
  let g := global (system_metrics (system w)) in
  let g' := global (system_metrics (system w')) in
  ∃ this' issues,
    component_heap w' !! self = Some this' ∧
    component_id this' = component_id this ∧
    constructor_name this' = constructor_name this ∧
    _mounted this' = _mounted this ∧
    _renderId this' = _renderId this + Z.of_nat n ∧
    renders (component_metrics this') = renders m + Z.of_nat n ∧
    renderTime (component_metrics this') = fold_left Qplus durations (renderTime m) ∧
    lastRenderTime (component_metrics this') = default (lastRenderTime m) (last durations) ∧
    updates (component_metrics this') = updates m ∧
    slowRenders g' = slowRenders g + Z.of_nat (length (filter is_slow durations)) ∧
    performanceIssues g' =
      fold_left (push_capped (maxIssues (system w))) issues (performanceIssues g) ∧
    length issues = length (filter is_slow durations) ∧
    Forall (is_slowRender_of this) issues ∧
    errors g' = errors g ∧
    heap w' = heap w ∧
    _observables (system w') = _observables (system w) ∧
    _components (system w') = _components (system w).
Proof.
  revert w this. induction n as [|n IH]; intros w this Hthis m w' durations g g'.
  - exists this, []. subst w' durations g g' m. cbn. split_and!; try done; lia.
  - subst w' durations g g' m. unfold render_all. rewrite Nat.iter_succ_r.
    fold (render_all n self (render self w)).
    destruct (render_step self w this Hthis)
      as (Hcomponents & Hheap & Hobs & Hcomps & Hcap & _ & _ & Herrors & Hslow).
    cbn zeta in Hcomponents, Hslow.
    set (rendered := mkComponent _ _ _ _ _) in Hcomponents.
    assert (Hrendered : component_heap (render self w) !! self = Some rendered).
    { rewrite Hcomponents. apply list_lookup_insert_eq. by eapply lookup_lt_Some. }
    destruct (IH (render self w) rendered Hrendered)
      as (this' & issues & Hthis' & Hid & Hname & Hmounted & HrenderId & Hrenders & Htime
          & Hlast & Hupdates & Hslow' & Hissues' & Hlength & Hall & Herrors' & Hheap' & Hobs'
          & Hcomps').
    assert (Hshift : render_duration (render self w) <$> seq 0 n =
                     render_duration w <$> seq 1 n).
    { rewrite <- fmap_S_seq, <- list_fmap_compose. apply list_fmap_ext.
      intros i j _. cbn. by apply render_duration_shift with this. }
    rewrite Hshift in *. clear Hshift.
    cbn [seq fmap list_fmap].
    change (list_fmap nat Q (render_duration w) (seq 1 n))
      with (render_duration w <$> seq 1 n).
    set (first := render_duration w 0) in *.
    set (others := render_duration w <$> seq 1 n) in *.
    assert (Hmine : ∀ entry, is_slowRender_of rendered entry → is_slowRender_of this entry)
      by done.
    destruct (Qgt_bool first 16) eqn:Hfirst.
    + destruct Hslow as (Hslow & timestamp & Hissues).
      exists this'.
      exists (mkIssue (SlowRender (constructor_name this) first (_renderId this + 1)
                                  (component_id this)) timestamp :: issues).
      rewrite filter_cons_True by done.
      split_and!; try done.
      * rewrite HrenderId. unfold rendered. cbn [_renderId]. lia.
      * rewrite Hrenders. unfold rendered. cbn [renders component_metrics]. lia.
      * rewrite Hlast. cbn [lastRenderTime component_metrics rendered].
        clearbody others. destruct others as [|d rest]; [done|].
        rewrite last_cons_cons.
        destruct (last (d :: rest)) eqn:Hsome; [done | by apply last_None in Hsome].
      * rewrite Hslow', Hslow. cbn [length]. lia.
      * rewrite Hissues', Hcap, Hissues. reflexivity.
      * cbn. by rewrite Hlength.
      * constructor; [|by eapply Forall_impl].
        eexists _, _. split; [reflexivity | exact Hfirst].
      * by rewrite Herrors'.
      * by rewrite Hheap'.
      * by rewrite Hobs'.
      * by rewrite Hcomps'.
    + destruct Hslow as (Hslow & Hissues).
      exists this', issues.
      rewrite filter_cons_False by (unfold is_slow; congruence).
      split_and!; try done.
      * rewrite HrenderId. unfold rendered. cbn [_renderId]. lia.
      * rewrite Hrenders. unfold rendered. cbn [renders component_metrics]. lia.
      * rewrite Hlast. cbn [lastRenderTime component_metrics rendered].
        clearbody others. destruct others as [|d rest]; [done|].
        rewrite last_cons_cons.
        destruct (last (d :: rest)) eqn:Hsome; [done | by apply last_None in Hsome].
      * rewrite Hslow', Hslow. lia.
      * by rewrite Hissues', Hcap, Hissues.
      * by rewrite Herrors'.
      * by rewrite Hheap'.
      * by rewrite Hobs'.
      * by rewrite Hcomps'.
Qed.

Lemma renders_are_counted_witness :
  ∃ this',
    component_heap (render_all 3 0 slow_component) !! 0%nat = Some this' ∧
    renders (component_metrics this') = 3 ∧
    slowRenders (global (system_metrics (system (render_all 3 0 slow_component)))) = 3.
Proof.
  destruct (renders_are_counted 3 0 slow_component
              (mkComponent "comp_1" "Counter" 0 false (mkComponentMetrics 0 0 0 0 0 0 None))
              eq_refl)
    as (this' & issues & Hthis' & _ & _ & _ & _ & Hrenders & _ & _ & _ & Hslow & _).
  exists this'. split; [exact Hthis'|]. split; [exact Hrenders | exact Hslow].
Defined.

(** ** Computed: one computation *)

(** [performComputation] when the compute function returns [v]. *)
Lemma performComputation_returns user invoke steps result w this c v returned calls written
      this' c' :
  heap w !! result = Some this →
  _computed this = Some c →
  user (computeFn c) [] (computation_started result this c w) = (Normal v, returned) →
  set_value_with invoke steps result v returned = Some (Normal calls, written) →
  heap written !! result = Some this' →
  _computed this' = Some c' →
  let duration := (fst (perf_now written) - fst (perf_now w))%Q in
  let reached := computation_measured result this' c' duration written in
  performComputation_with user invoke steps result w =
  if Qgt_bool duration 10 then
    match JSON_preview 50 reached v with
    | Normal preview =>
        Some (Normal v,
              reportPerformanceIssue (SlowComputation (_computeName c') duration preview)
                                     reached)
    | Throw error =>
        Some (Throw error,
              compute_error_recorded result (after_computation duration this' c')
                                     (measured duration c') error reached)
    end
  else Some (Normal v, reached).
Proof.
  intros Hthis Hc Hreturns Hwrite Hthis' Hc' duration reached.
  unfold performComputation_with.
  rewrite bind_read. unfold update_computeMetrics at 1.
  rewrite (bind_update _ _ _ _ this) by exact Hthis. rewrite Hc. cbn [fmap option_fmap option_map].
  fold (computation_started result this c w).
  set (started := computation_started result this c w) in *.
  assert (Hstarted : heap started !! result =
    Some (with_computed
            (Some (with_computeMetrics
                     (mkComputeMetrics (totalComputations (_computeMetrics c) + 1)
                        (lastComputeTime (_computeMetrics c))
                        (averageComputeTime (_computeMetrics c))
                        (computeErrors (_computeMetrics c))) c)) this))
    by (eapply lookup_updated, Hthis).
  unfold try_catch. unfold this_computed at 1. rewrite bind_bind.
  rewrite (bind_this _ _ _ _ Hstarted). cbn [_computed with_computed].
  rewrite bind_ret. cbn [computeFn with_computeMetrics].
  unfold bind at 1, lift. rewrite Hreturns.
  unfold bind at 1. rewrite Hwrite.
  rewrite bind_read. fold duration.
  unfold update_computeMetrics at 1.
  rewrite (bind_update _ _ _ _ this') by (cbn; exact Hthis').
  rewrite Hc'. cbn [fmap option_fmap option_map].
  fold (measured duration c').
  erewrite bind_update_metrics by (cbn; eapply lookup_updated, Hthis').
  cbn [_metrics with_computed heap with_heap].
  rewrite list_insert_insert_eq.
  rewrite bind_effect.
  change (with_observable_metrics _ _) with (after_computation duration this' c').
  match goal with |- context [recordMetric "derivedComputeTime" duration [] ?x] =>
    change (recordMetric "derivedComputeTime" duration [] x) with reached
  end.
  assert (Hreached : heap reached !! result = Some (after_computation duration this' c')).
  { unfold reached, computation_measured. rewrite recordMetric_heap. cbn.
    eapply lookup_updated, Hthis'. }
  destruct (Qgt_bool duration 10).
  - unfold this_computed at 1. rewrite !bind_bind.
    rewrite (bind_this _ _ _ _ Hreached). cbn [_computed after_computation with_computed
      with_observable_metrics].
    rewrite bind_ret.
    assert (Hpreview :
      (preview <- (λ w, Some (JSON_preview 50 w v, w)) ;;
       effect (reportPerformanceIssue
                 (SlowComputation (_computeName (measured duration c')) duration preview)))
        reached =
      match JSON_preview 50 reached v with
      | Normal preview =>
          Some (Normal tt,
                reportPerformanceIssue
                  (SlowComputation (_computeName (measured duration c')) duration preview)
                  reached)
      | Throw error => Some (Throw error, reached)
      end) by (unfold bind, effect; by destruct (JSON_preview 50 reached v)).
    unfold bind at 1. rewrite Hpreview.
    destruct (JSON_preview 50 reached v) as [preview|error].
    + reflexivity.
    + unfold update_computeMetrics.
      rewrite (bind_update _ _ _ _ _ Hreached).
      cbn [_computed after_computation with_computed with_observable_metrics fmap option_fmap
           option_map].
      unfold this_computed. rewrite bind_bind.
      erewrite bind_this by (eapply lookup_updated, Hreached).
      cbn [_computed with_computed]. rewrite bind_ret, bind_effect. reflexivity.
  - reflexivity.
Qed.

(** ** Code that only reads *)

Lemma same_but_reads_refl o : same_but_reads o o.
Proof. by repeat split. Qed.

Lemma same_but_reads_trans o1 o2 o3 :
  same_but_reads o1 o2 → same_but_reads o2 o3 → same_but_reads o1 o3.
Proof.
  intros (? & ? & ? & ? & ? & ? & ?) (? & ? & ? & ? & ? & ? & ?).
  repeat split; congruence.
Qed.

Lemma only_read_refl self w : only_read self w w.
Proof. intros o Ho. exists o. split; [done | apply same_but_reads_refl]. Qed.

Lemma only_read_trans self w1 w2 w3 :
  only_read self w1 w2 → only_read self w2 w3 → only_read self w1 w3.
Proof.
  intros H12 H23 o1 Ho1. destruct (H12 o1 Ho1) as (o2 & Ho2 & E12).
  destruct (H23 o2 Ho2) as (o3 & Ho3 & E23). exists o3. split; [done|].
  by eapply same_but_reads_trans.
Qed.

Lemma only_read_heap self w w' : heap w' = heap w → only_read self w w'.
Proof. intros Hheap o Ho. exists o. rewrite Hheap. split; [done | apply same_but_reads_refl]. Qed.

Lemma only_read_elsewhere self other o w w' :
  heap w' = <[other := o]> (heap w) → other ≠ self → only_read self w w'.
Proof.
  intros Hheap Hne o1 Ho1. exists o1. rewrite Hheap.
  split; [by rewrite list_lookup_insert_ne | apply same_but_reads_refl].
Qed.

Lemma quiet_keeps_subscribers invoke cells self f :
  quiet invoke cells f → self ∈ cells → keeps_subscribers invoke self f.
Proof.
  intros Hquiet Hself v w this Hthis.
  destruct (Hquiet v w) as (result & w' & Hcall & Hcells).
  destruct (Hcells self Hself this Hthis) as (this' & Hthis' & _ & _ & Hsubs & _).
  by exists result, w', this'.
Qed.

Lemma notified_quiet invoke cells v fs w w' calls :
  notified invoke v fs w w' calls →
  (∀ f, f ∈ fs → quiet invoke cells f) →
  ∀ a, a ∈ cells → only_read a w w'.
Proof.
  induction 1 as [w | f fs w result w1 w' calls Hcall Hrest IH]; intros Hquiet a Ha.
  - apply only_read_refl.
  - destruct (Hquiet f (list_elem_of_here _ _) v w) as (result' & w1' & Hcall' & Hcells).
    rewrite Hcall in Hcall'. injection Hcall' as <- <-.
    eapply only_read_trans; [apply Hcells, Ha|].
    eapply only_read_trans; [apply only_read_heap, caught_heap|].
    apply IH; [|done]. intros g Hg. apply Hquiet. by apply list_elem_of_further.
Qed.

(** A write of a new value: the store in which the notification starts. *)
Lemma set_value_with_notifying invoke steps self v w this :
  heap w !! self = Some this →
  Object_is (_value this) v = false →
  let m := _metrics this in
  let entries :=
    if isDetailedMode (system w)
    then [WriteEntry (Date_now (host w) (date_calls (host w))) (_value this) v
                     (Error_stack (host w))]
    else [] in
  let stored :=
    with_value v
      (with_observable_metrics
         (mkObservableMetrics (reads m) (writes m + 1) (subscriptions m) (computeTime m)
                              (lastAccessed m) (history m ++ entries)) this) in
  ∃ w0 (finish : World → Observable → World),
    heap w0 = <[self := stored]> (heap w) ∧
    system w0 = system w ∧
    component_heap w0 = component_heap w ∧
    (∀ w1 t, heap (finish w1 t) = heap w1 ∧
             with_detailed ∅ (system (finish w1 t)) = with_detailed ∅ (system w1) ∧
             component_heap (finish w1 t) = component_heap w1) ∧
    set_value_with invoke steps self v w =
      match forEach_subscriber invoke steps self v 0 w0 with
      | Some (Normal calls, w1) =>
          match heap w1 !! self with
          | Some t => Some (Normal calls, finish w1 t)
          | None => None
          end
      | Some (Throw e, w1) => Some (Throw e, w1)
      | None => None
      end.
Proof.
  intros Hthis Hchanged m entries stored.
  destruct (set_value_with_begin invoke steps self v w this Hthis)
    as (wb & Hheap & Hsystem & Hcomponents & ->).
  rewrite Hchanged, !bind_bind.
  assert (Hcounted : ∃ counted, heap wb !! self = Some counted ∧ with_value v counted = stored).
  { eexists. split; [rewrite Hheap; eapply lookup_updated, Hthis | done]. }
  destruct Hcounted as (counted & Hcounted & Hstored).
  rewrite (bind_update _ _ _ _ counted) by exact Hcounted.
  rewrite bind_bind, bind_read, bind_bind.
  exists (snd (perf_now (with_heap (<[self := with_value v counted]> (heap wb)) wb))),
    (λ w1 t,
       let wc := recordMetric "updateTime"
                   (fst (perf_now w1)
                    - fst (perf_now (with_heap (<[self := with_value v counted]> (heap wb)) wb)))
                   [] (snd (perf_now w1)) in
       let wd := recordMetric "subscriberCount"
                              (inject_Z (Z.of_nat (Set_size (_subscribers t)))) [] wc in
       recordMetric "writeTime" (fst (perf_now wd) - fst (perf_now w)) [] (snd (perf_now wd))).
  split_and!.
  - cbn. by rewrite Hheap, list_insert_insert_eq, Hstored.
  - done.
  - done.
  - intros w1 t. cbn zeta.
    split_and!; repeat (rewrite ?recordMetric_heap, ?recordMetric_but_detailed,
                          ?recordMetric_component_heap; cbn [perf_now snd heap system
                          component_heap with_host]); done.
  - unfold bind at 1.
    destruct (forEach_subscriber invoke steps self v 0 _) as [[[calls|e] w1]|]; [|done|done].
    rewrite bind_bind, bind_read, bind_bind, bind_effect, bind_bind.
    unfold bind at 1, this_observable. rewrite recordMetric_heap, perf_now_heap.
    destruct (heap w1 !! self) as [t|]; [|done].
    by rewrite bind_bind, bind_effect, bind_ret, bind_read, bind_effect.
Qed.

(** A write to [self] whose subscribers only read the Observables at
    [cells]: the value is stored, the write counted, the subscribers called
    in order unless the value is the stored one, and the other Observables
    of [cells] are at most read. *)
Lemma set_value_with_quiet invoke steps self v w this cells :
  heap w !! self = Some this →
  self ∈ cells →
  (∀ f, f ∈ Set_entries (_subscribers this) → quiet invoke cells f) →
  (length (_subscribers this) < steps)%nat →
  ∃ calls w' this',
    set_value_with invoke steps self v w = Some (Normal calls, w') ∧
    (if Object_is (_value this) v then calls = []
     else subscriber <$> calls = Set_entries (_subscribers this) ∧
          Forall (λ c, argument c = v) calls) ∧
    heap w' !! self = Some this' ∧
    _id this' = _id this ∧
    _value this' = v ∧
    _subscribers this' = _subscribers this ∧
    _computed this' = _computed this ∧
    writes (_metrics this') = writes (_metrics this) + 1 ∧
    subscriptions (_metrics this') = subscriptions (_metrics this) ∧
    computeTime (_metrics this') = computeTime (_metrics this) ∧
    (∀ a, a ∈ cells → a ≠ self → only_read a w w').
Proof.
  intros Hthis Hself Hquiet Hsteps.
  destruct (Object_is (_value this) v) eqn:Hchanged.
  - destruct (set_value_with_unchanged invoke steps self v w this Hthis Hchanged)
      as (w' & Hrun & Hheap & _).
    cbn zeta in Hheap. set (counted := with_observable_metrics _ this) in Hheap.
    exists [], w', counted. split_and!; try done.
    + rewrite Hheap. eapply lookup_updated, Hthis.
    + by apply bool_decide_eq_true in Hchanged.
    + intros a _ Ha. by eapply only_read_elsewhere.
  - destruct (set_value_with_notifying invoke steps self v w this Hthis Hchanged)
      as (w0 & finish & Hheap & _ & _ & Hfinish & Hrun).
    cbn zeta in Hheap. set (stored := with_value v _) in Hheap.
    assert (Hstored : heap w0 !! self = Some stored)
      by (rewrite Hheap; eapply lookup_updated, Hthis).
    destruct (forEach_subscriber_notified invoke self v steps 0 w0 stored Hstored)
      as (calls & w1 & this1 & Hloop & Hnotified & Hthis1 & Hsubs1).
    { intros f Hf. eapply quiet_keeps_subscribers; [by apply Hquiet | done]. }
    { lia. }
    { cbn. lia. }
    rewrite drop_0 in Hnotified. change (_subscribers stored) with (_subscribers this) in *.
    pose proof (notified_quiet _ _ _ _ _ _ _ Hnotified Hquiet) as Hcells.
    destruct (Hcells self Hself stored Hstored)
      as (this1' & Hthis1' & Hid & Hvalue & _ & Hcomputed & Hwrites & Hsubscriptions & Hcompute).
    rewrite Hthis1 in Hthis1'. injection Hthis1' as <-.
    exists calls, (finish w1 this1), this1.
    split_and!.
    + by rewrite Hrun, Hloop, Hthis1.
    + by apply notified_calls in Hnotified as [? ?].
    + by apply notified_calls in Hnotified as [? ?].
    + by rewrite (proj1 (Hfinish w1 this1)).
    + by rewrite Hid.
    + by rewrite Hvalue.
    + done.
    + by rewrite Hcomputed.
    + by rewrite Hwrites.
    + by rewrite Hsubscriptions.
    + by rewrite Hcompute.
    + intros a Ha Hne.
      eapply only_read_trans; [by eapply only_read_elsewhere|].
      eapply only_read_trans; [by apply Hcells|].
      apply only_read_heap, Hfinish.
Qed.

Lemma only_read_with_heap self other o w w' :
  heap w' = <[other := o]> (heap w) → other ≠ self → only_read self w w'.
Proof. apply only_read_elsewhere. Qed.

(** [performComputation] when the compute function returns [v] and, like
    the subscribers of the computed, only reads the Observables at [cells]. *)
Lemma performComputation_quiet user invoke steps result w this c v returned cells :
  heap w !! result = Some this →
  _computed this = Some c →
  result ∈ cells →
  user (computeFn c) [] (computation_started result this c w) = (Normal v, returned) →
  (∀ a, a ∈ cells → only_read a (computation_started result this c w) returned) →
  (∀ f, f ∈ Set_entries (_subscribers this) → quiet invoke cells f) →
  (length (_subscribers this) < steps)%nat →
  ∃ outcome w' final cf duration,
    performComputation_with user invoke steps result w = Some (outcome, w') ∧
    heap w' !! result = Some final ∧
    _id final = _id this ∧
    _value final = v ∧
    _subscribers final = _subscribers this ∧
    writes (_metrics final) = writes (_metrics this) + 1 ∧
    subscriptions (_metrics final) = subscriptions (_metrics this) ∧
    computeTime (_metrics final) = (computeTime (_metrics this) + duration)%Q ∧
    _computed final = Some cf ∧
    same_closure c cf ∧
    totalComputations (_computeMetrics cf) = totalComputations (_computeMetrics c) + 1 ∧
    lastComputeTime (_computeMetrics cf) = duration ∧
    averageComputeTime (_computeMetrics cf) =
      ((averageComputeTime (_computeMetrics c)
        * inject_Z (totalComputations (_computeMetrics c) + 1 - 1) + duration)
       / inject_Z (totalComputations (_computeMetrics c) + 1))%Q ∧
    (outcome = Normal v ∧
     computeErrors (_computeMetrics cf) = computeErrors (_computeMetrics c) ∨
     ∃ error unpreviewed,
       outcome = Throw error ∧
       Qgt_bool duration 10 = true ∧
       JSON_preview 50 unpreviewed v = Throw error ∧
       computeErrors (_computeMetrics cf) = computeErrors (_computeMetrics c) + 1) ∧
    (∀ a, a ∈ cells → a ≠ result → only_read a w w').
Proof.
  intros Hthis Hc Hresult Hreturns Hcompute Hquiet Hsteps.
  set (started := computation_started result this c w) in *.
  assert (Hstarted : heap started !! result =
    Some (with_computed
            (Some (with_computeMetrics
                     (mkComputeMetrics (totalComputations (_computeMetrics c) + 1)
                        (lastComputeTime (_computeMetrics c))
                        (averageComputeTime (_computeMetrics c))
                        (computeErrors (_computeMetrics c))) c)) this))
    by (eapply lookup_updated, Hthis).
  destruct (Hcompute result Hresult _ Hstarted)
    as (this1 & Hthis1 & Hid1 & Hvalue1 & Hsubs1 & Hcomputed1 & Hwrites1 & Hsubscriptions1
        & Htime1).
  cbn in Hid1, Hvalue1, Hsubs1, Hcomputed1, Hwrites1, Hsubscriptions1, Htime1.
  destruct (set_value_with_quiet invoke steps result v returned this1 cells Hthis1 Hresult)
    as (calls & written & this2 & Hwrite & _ & Hthis2 & Hid2 & Hvalue2 & Hsubs2 & Hcomputed2
        & Hwrites2 & Hsubscriptions2 & Htime2 & Hcells2).
  { by rewrite Hsubs1. }
  { by rewrite Hsubs1. }
  rewrite Hcomputed1 in Hcomputed2.
  pose proof (performComputation_returns user invoke steps result w this c v returned calls
                written this2 _ Hthis Hc Hreturns Hwrite Hthis2 Hcomputed2) as Hrun.
  cbn zeta in Hrun.
  set (duration := (fst (perf_now written) - fst (perf_now w))%Q) in *.
  set (c2 := with_computeMetrics _ c) in *.
  set (reached := computation_measured result this2 c2 duration written) in *.
  assert (Hreached : heap reached = <[result := after_computation duration this2 c2]>
                                      (heap written))
    by (unfold reached, computation_measured; by rewrite recordMetric_heap).
  assert (Hothers : ∀ a, a ∈ cells → a ≠ result → only_read a w reached).
  { intros a Ha Hne.
    eapply only_read_trans;
      [eapply (only_read_elsewhere a result _ w started); [reflexivity | done]|].
    eapply only_read_trans; [by apply Hcompute|].
    eapply only_read_trans; [by apply Hcells2|].
    by eapply only_read_elsewhere. }
  destruct (Qgt_bool duration 10) eqn:Hslow; [destruct (JSON_preview 50 reached v) eqn:Hpreview|].
  - eexists _, _, (after_computation duration this2 c2), (measured duration c2), duration.
    split; [exact Hrun|].
    split_and!;
      try (unfold after_computation;
           cbn [computeTime _metrics with_observable_metrics with_computeTime with_computed];
           by rewrite Htime2, Htime1);
      try (by left); try (by cbn; congruence); try done.
    change (heap (reportPerformanceIssue _ reached)) with (heap reached).
    rewrite Hreached. eapply lookup_updated, Hthis2.
  - set (failed :=
           with_computeMetrics
             (mkComputeMetrics (totalComputations (_computeMetrics (measured duration c2)))
                (lastComputeTime (_computeMetrics (measured duration c2)))
                (averageComputeTime (_computeMetrics (measured duration c2)))
                (computeErrors (_computeMetrics (measured duration c2)) + 1))
             (measured duration c2)).
    eexists _, _, (with_computed (Some failed) (after_computation duration this2 c2)), failed,
      duration.
    split; [exact Hrun|].
    split_and!;
      try (cbn [computeTime _metrics with_observable_metrics with_computeTime with_computed
                after_computation];
           by rewrite Htime2, Htime1);
      try (right; by exists e, reached);
      try (by cbn; congruence); try done.
    + unfold compute_error_recorded. rewrite recordError_heap. cbn [heap with_heap].
      apply list_lookup_insert_eq. rewrite Hreached, length_insert.
      by eapply lookup_lt_Some.
    + intros a Ha Hne. eapply only_read_trans; [by apply Hothers|].
      unfold compute_error_recorded.
      eapply only_read_trans; [|apply only_read_heap, recordError_heap].
      by eapply only_read_elsewhere.
  - eexists _, _, (after_computation duration this2 c2), (measured duration c2), duration.
    split; [exact Hrun|].
    split_and!;
      try (unfold after_computation;
           cbn [computeTime _metrics with_observable_metrics with_computeTime with_computed];
           by rewrite Htime2, Htime1);
      try (by left); try (by cbn; congruence); try done.
    rewrite Hreached. eapply lookup_updated, Hthis2.
Qed.

(** ** Computed: what a computation stores *)






Lemma JSON_preview_undefined n w v :
  v = VUndefined ∨ is_function v = true →
  JSON_preview n w v =
  Throw (TypeError w "Cannot read properties of undefined (reading 'substring')").
Proof. intros [-> | Hfunction]; [done | by destruct v]. Qed.

Lemma recordMetric_maxErrors name value tags w :
  maxErrors (system (recordMetric name value tags w)) = maxErrors (system w).
Proof.
  pose proof (recordMetric_but_detailed name value tags w) as H.
  by apply (f_equal maxErrors) in H.
Qed.

(** X13. A computation that takes more than 10 ms and returns [undefined]
    (or a function) fails after the fact.  The value is written and the
    subscribers are notified; then the preview of the slow-computation
    report, [JSON.stringify(newValue).substring(0, 50)], throws a
    TypeError, which [recompute] rethrows after counting it in the [errors]
    of the computed and recording it as a [computeError] with the name and
    the number of dependencies.  The listener that a dependency calls
    swallows the error and ends in the same store. *)
Theorem slow_computation_of_undefined_fails
        (user : nat → list JsValue → World → completion JsValue * World)
        (fuel result : nat) (w : World) (this : Observable) (c : Computed)
        (v : JsValue) (returned : World) (calls : list Invocation) (written : World)
        (this' : Observable) (c' : Computed) :
  heap w !! result = Some this →
  _computed this = Some c →
  user (computeFn c) [] (computation_started result this c w) = (Normal v, returned) →
  set_value user fuel result v returned = Some (Normal calls, written) →
  heap written !! result = Some this' →
  _computed this' = Some c' →
  v = VUndefined ∨ is_function v = true →
  let duration := (fst (perf_now written) - fst (perf_now w))%Q in
  (10 < duration)%Q →
  ∃ error w' final cf record,
    recompute user fuel result w = Some (Throw error, w') ∧
    error_name error = "TypeError" ∧
    message error = "Cannot read properties of undefined (reading 'substring')" ∧
    (∀ idx arg,
       invoke user (S fuel) (DependencyListener result idx) arg w = Some (Normal tt, w')) ∧
    heap w' !! result = Some final ∧
    _value final = _value this' ∧
    writes (_metrics final) = writes (_metrics this') ∧
    _computed final = Some cf ∧
    totalComputations (_computeMetrics cf) = totalComputations (_computeMetrics c') ∧
    computeErrors (_computeMetrics cf) = computeErrors (_computeMetrics c') + 1 ∧
    lastComputeTime (_computeMetrics cf) = duration ∧
    errors (global (system_metrics (system w'))) =
      push_capped (maxErrors (system written))
                  (errors (global (system_metrics (system written)))) record ∧
    error_type record = "computeError" ∧
    error_message record = message error ∧
    context record = [("name", VString (_computeName c'));
                      ("dependencies", VNumber (Z.of_nat (length (deps c'))))].
Proof.
  intros Hthis Hc Hreturns Hwrite Hthis' Hc' Hundefined duration Hslow.
  pose proof (performComputation_returns user (invoke user fuel) fuel result w this c v
                returned calls written this' c' Hthis Hc Hreturns Hwrite Hthis' Hc') as Hrun.
  cbn zeta in Hrun. fold duration in Hrun.
  set (reached := computation_measured result this' c' duration written) in *.
  apply Qgt_bool_true in Hslow. rewrite Hslow in Hrun.
  rewrite (JSON_preview_undefined 50 reached v Hundefined) in Hrun.
  eexists _, _, _, _, _. split; [exact Hrun|].
  split; [done|]. split; [done|]. split.
  { intros idx arg. cbn [invoke]. unfold dependency_listener, try_catch, bind at 1.
    unfold recompute in Hrun. by rewrite Hrun. }
  split.
  { unfold compute_error_recorded. rewrite recordError_heap. cbn [heap with_heap].
    apply list_lookup_insert_eq. unfold reached, computation_measured.
    rewrite recordMetric_heap. cbn [heap with_heap]. rewrite length_insert.
    by eapply lookup_lt_Some. }
  cbn [_value _metrics _computed with_computed after_computation with_observable_metrics
       writes with_computeTime].
  split; [done|]. split; [done|]. split; [reflexivity|].
  split; [done|]. split; [done|]. split; [done|].
  split.
  { assert (Hglobal : global (system_metrics (system reached)) =
                      global (system_metrics (system written)))
      by (unfold reached, computation_measured; by rewrite recordMetric_global).
    assert (Hcap : maxErrors (system reached) = maxErrors (system written))
      by (unfold reached, computation_measured; by rewrite recordMetric_maxErrors).
    rewrite <- Hglobal, <- Hcap. reflexivity. }
  split; [done|]. split; [done|]. done.
Qed.

Lemma slow_computation_of_undefined_fails_witness :
  ∃ error w' final cf,
    recompute sample_user 3 0 slow_computed = Some (Throw error, w') ∧
    error_name error = "TypeError" ∧
    heap w' !! 0%nat = Some final ∧
    _computed final = Some cf ∧
    computeErrors (_computeMetrics cf) = 1.
Proof.
  pose (started := computation_started 0 (object_at 0 slow_computed)
                                       (computed_at 0 slow_computed) slow_computed).
  pose (written := world_after (set_value sample_user 3 0 VUndefined) started).
  destruct (slow_computation_of_undefined_fails sample_user 3 0 slow_computed
              (object_at 0 slow_computed) (computed_at 0 slow_computed) VUndefined
              started [] written (object_at 0 written) (computed_at 0 written))
    as (error & w' & final & cf & record & Hrun & Hname & _ & _ & Hfinal & _ & _ & Hcomputed
        & _ & Herrors & _).
  - vm_compute. reflexivity.
  - vm_compute. reflexivity.
  - vm_compute. reflexivity.
  - vm_compute. reflexivity.
  - vm_compute. reflexivity.
  - vm_compute. reflexivity.
  - by left.
  - vm_compute. reflexivity.
  - exists error, w', final, cf. split; [exact Hrun|]. split; [exact Hname|].
    split; [exact Hfinal|]. split; [exact Hcomputed|]. rewrite Herrors. reflexivity.
Defined.

(** ** Computed: a dependency changes *)





Lemma doubling_user_reads k args w d :
  heap w !! 0%nat = Some d →
  ∃ w', doubling_user k args w = (Normal (twice (_value d)), w') ∧
        ∀ a, only_read a w w'.
Proof.
  intros Hd. destruct (get_value_spec 0 w d Hd) as (w' & Hread & Hheap & _).
  exists w'. unfold doubling_user. rewrite Hread. split; [done|].
  intros a o Ho. rewrite Hheap. destruct (decide (a = 0%nat)) as [-> | Hne].
  - rewrite Hd in Ho. injection Ho as <-. eexists.
    split; [eapply lookup_updated, Hd | by repeat split].
  - exists o. split; [by rewrite list_lookup_insert_ne | apply same_but_reads_refl].
Qed.


(** ** Computed: subscriptions to the dependencies *)

Lemma handles_on_cons a h handles :
  handles_on a (h :: handles) =
  match h with
  | Some u => if decide (subscribed_to u = a) then callback u :: handles_on a handles
              else handles_on a handles
  | None => handles_on a handles
  end.
Proof. unfold handles_on. cbn. destruct h as [u|]; [|done]. by destruct (decide _). Qed.

Lemma dependency_handles_cons result idx d dependencies :
  dependency_handles result idx (d :: dependencies) =
  ((λ dep, mkUnsubscriber dep (DependencyListener result idx)) <$> d)
  :: dependency_handles result (S idx) dependencies.
Proof.
  unfold dependency_handles. cbn. rewrite Nat.add_0_r. f_equal.
  apply imap_ext. intros i x _. cbn. by replace (idx + S i)%nat with (S (idx + i)) by lia.
Qed.

(** The heap after the callbacks of [handles] were subscribed, or
    unsubscribed, each at its Observable. *)
Lemma imap_insert_step (step : Observable → JsFunction → Observable) dep g u handles
      (h : list Observable) o :
  h !! dep = Some o →
  subscribed_to u = dep → callback u = g →
  imap (λ a o, foldl step o (handles_on a handles)) (<[dep := step o g]> h) =
  imap (λ a o, foldl step o (handles_on a (Some u :: handles))) h.
Proof.
  intros Ho <- <-. apply list_eq. intros a.
  rewrite !list_lookup_imap. destruct (decide (a = subscribed_to u)) as [-> | Hne].
  - rewrite list_lookup_insert_eq by (by eapply lookup_lt_Some). rewrite Ho.
    rewrite handles_on_cons, decide_True by done. done.
  - rewrite list_lookup_insert_ne by done. destruct (h !! a) as [oa|]; [|done].
    rewrite handles_on_cons, decide_False by done. done.
Qed.

Lemma subscribe_dependencies_heap result dependencies : ∀ idx w,
  Forall (λ d, ∀ dep, d = Some dep → is_Some (heap w !! dep)) dependencies →
  ∃ w',
    subscribe_dependencies result idx dependencies w =
      Some (Normal (dependency_handles result idx dependencies), w') ∧
    heap w' =
      imap (λ a o, foldl subscribed o (handles_on a (dependency_handles result idx dependencies)))
           (heap w) ∧
    system w' = system w ∧ host w' = host w ∧ component_heap w' = component_heap w ∧
    nextId w' = nextId w.
Proof.
  induction dependencies as [|[dep|] dependencies IH]; intros idx w Hvalid.
  - exists w. split_and!; try done. cbn.
    apply list_eq. intros i. rewrite list_lookup_imap. by destruct (heap w !! i).
  - inversion Hvalid as [|? ? Hdep Hrest]; subst.
    destruct (Hdep dep eq_refl) as [o Ho].
    cbn [subscribe_dependencies]. unfold bind at 1.
    rewrite (subscribe_at _ _ _ _ Ho).
    fold (subscribed o (DependencyListener result idx)).
    set (w1 := with_heap _ w).
    destruct (IH (S idx) w1) as (w' & Hrun & Hheap & Hsystem & Hhost & Hcomponents & Hnext).
    { eapply Forall_impl; [exact Hrest|]. intros d Hd dep' ->. cbn.
      destruct (Hd dep' eq_refl) as [o' Ho'].
      apply lookup_lt_is_Some. rewrite length_insert. by eapply lookup_lt_Some. }
    exists w'. unfold bind at 1. rewrite Hrun. rewrite dependency_handles_cons. cbn [fmap option_fmap option_map].
    split_and!; try done.
    rewrite Hheap. cbn [heap with_heap w1].
    by apply imap_insert_step.
  - inversion Hvalid as [|? ? Hdep Hrest]; subst.
    cbn [subscribe_dependencies]. unfold bind at 1.
    destruct (IH (S idx) w Hrest) as (w' & Hrun & Hheap & Hsystem & Hhost & Hcomponents & Hnext).
    exists w'. rewrite Hrun. rewrite dependency_handles_cons. cbn [fmap option_fmap option_map].
    split_and!; try done.
Qed.

Lemma dispose_all_heap handles : ∀ w,
  Forall (λ h : option Unsubscriber,
            ∀ u, h = Some u → is_Some (heap w !! subscribed_to u)) handles →
  ∃ w',
    dispose_all handles w = Some (Normal tt, w') ∧
    heap w' = imap (λ a o, foldl unsubscribed o (handles_on a handles)) (heap w) ∧
    system w' = system w ∧ host w' = host w ∧ component_heap w' = component_heap w ∧
    nextId w' = nextId w.
Proof.
  induction handles as [|[u|] handles IH]; intros w Hvalid.
  - exists w. split_and!; try done. cbn.
    apply list_eq. intros i. rewrite list_lookup_imap. by destruct (heap w !! i).
  - inversion Hvalid as [|? ? Hu Hrest]; subst.
    destruct (Hu u eq_refl) as [o Ho].
    cbn [dispose_all]. unfold bind at 1. rewrite (unsubscribe_at _ _ _ Ho).
    fold (unsubscribed o (callback u)).
    set (w1 := with_heap _ w).
    destruct (IH w1) as (w' & Hrun & Hheap & Hsystem & Hhost & Hcomponents & Hnext).
    { eapply Forall_impl; [exact Hrest|]. intros h Hh u' ->. cbn.
      destruct (Hh u' eq_refl) as [o' Ho'].
      apply lookup_lt_is_Some. rewrite length_insert. by eapply lookup_lt_Some. }
    exists w'. rewrite Hrun. split_and!; try done.
    rewrite Hheap. cbn [heap with_heap w1]. by apply imap_insert_step.
  - inversion Hvalid as [|? ? Hu Hrest]; subst.
    cbn [dispose_all]. destruct (IH w Hrest) as (w' & Hrun & Hrest').
    exists w'. split; [exact Hrun | exact Hrest'].
Qed.

Lemma foldl_subscribed gs : ∀ o,
  let o' := foldl subscribed o gs in
  same_but_subscribers o o' ∧
  subscriptions (_metrics o') = subscriptions (_metrics o) + Z.of_nat (length gs) ∧
  (∀ g, g ∈ Set_entries (_subscribers o') ↔ g ∈ Set_entries (_subscribers o) ∨ g ∈ gs) ∧
  (NoDup gs → (∀ g, g ∈ gs → g ∉ Set_entries (_subscribers o)) →
   Set_entries (_subscribers o') = Set_entries (_subscribers o) ++ gs).
Proof.
  induction gs as [|g gs IH]; intros o o'; subst o'.
  - cbn. split_and!; try done; [lia | | intros; by rewrite app_nil_r].
    intros g. split; [by left | intros [H | H]; [done | by apply elem_of_nil in H]].
  - cbn [foldl]. destruct (IH (subscribed o g)) as (Hsame & Hcount & Hin & Hexact).
    cbn zeta in *. set (o' := foldl subscribed (subscribed o g) gs) in *.
    split_and!.
    + unfold same_but_subscribers in *. rewrite Hsame. done.
    + rewrite Hcount. cbn. lia.
    + intros f. rewrite Hin. cbn [_subscribers subscribed with_subscribers].
      rewrite Set_entries_add. destruct (Set_has g (_subscribers o)) eqn:Hhas.
      * apply Set_has_spec in Hhas. rewrite elem_of_cons.
        split; [tauto | intros [H | [-> | H]]; tauto].
      * rewrite elem_of_app, list_elem_of_singleton, elem_of_cons. tauto.
    + intros Hnodup Hfresh. apply NoDup_cons in Hnodup as [Hg Hnodup].
      rewrite Hexact; [|done|].
      * cbn [_subscribers subscribed with_subscribers]. rewrite Set_entries_add.
        destruct (Set_has g (_subscribers o)) eqn:Hhas.
        -- apply Set_has_spec in Hhas. destruct (Hfresh g (list_elem_of_here _ _) Hhas).
        -- by rewrite <- app_assoc.
      * intros f Hf. cbn [_subscribers subscribed with_subscribers].
        rewrite Set_entries_add. destruct (Set_has g (_subscribers o)) eqn:Hhas.
        -- apply Hfresh. by apply list_elem_of_further.
        -- intros Hin'. apply elem_of_app in Hin' as [Hin' | Hin'].
           ++ by apply (Hfresh f (list_elem_of_further _ _ _ Hf)).
           ++ apply list_elem_of_singleton in Hin' as ->. done.
Qed.

Lemma foldl_unsubscribed gs : ∀ o,
  let o' := foldl unsubscribed o gs in
  same_but_subscribers o o' ∧
  subscriptions (_metrics o') = subscriptions (_metrics o) - Z.of_nat (length gs) ∧
  Set_entries (_subscribers o') = filter (λ g, g ∉ gs) (Set_entries (_subscribers o)).
Proof.
  induction gs as [|g gs IH]; intros o o'; subst o'.
  - cbn. split_and!; try done; [lia|].
    induction (Set_entries (_subscribers o)) as [|f fs IHfs]; [done|].
    rewrite filter_cons_True by (apply not_elem_of_nil). by rewrite <- IHfs.
  - cbn [foldl]. destruct (IH (unsubscribed o g)) as (Hsame & Hcount & Hentries).
    cbn zeta in *. set (o' := foldl unsubscribed (unsubscribed o g) gs) in *.
    split_and!.
    + unfold same_but_subscribers in *. rewrite Hsame. done.
    + rewrite Hcount. cbn. lia.
    + rewrite Hentries. cbn [_subscribers unsubscribed with_subscribers with_observable_metrics].
      rewrite Set_entries_delete, list_filter_filter. apply list_filter_iff.
      intros f. rewrite not_elem_of_cons. tauto.
Qed.

(** The listeners that [computed] subscribes to the Observable at [a]: one
    for each occurrence of [a] among the dependencies. *)
Lemma dependency_listeners result dependencies : ∀ idx a,
  let listeners := handles_on a (dependency_handles result idx dependencies) in
  (∀ g, g ∈ listeners ↔
        ∃ i, dependencies !! i = Some (Some a) ∧ g = DependencyListener result (idx + i)) ∧
  NoDup listeners ∧
  length listeners = length (filter (λ d, d = Some a) dependencies).
Proof.
  induction dependencies as [|d dependencies IH]; intros idx a listeners; subst listeners.
  - cbn. split_and!; [|constructor|done].
    intros g. split; [intros H; by apply elem_of_nil in H | intros (i & H & _); done].
  - rewrite dependency_handles_cons, handles_on_cons.
    destruct (IH (S idx) a) as (Hin & Hnodup & Hlength). cbn zeta in *.
    assert (Hshift : ∀ g,
      (∃ i, (d :: dependencies) !! i = Some (Some a) ∧ g = DependencyListener result (idx + i))
      ↔ (d = Some a ∧ g = DependencyListener result idx) ∨
        ∃ i, dependencies !! i = Some (Some a) ∧ g = DependencyListener result (S idx + i)).
    { intros g. split.
      - intros ([|i] & Hi & ->); cbn in Hi.
        + left. split; [congruence | by rewrite Nat.add_0_r].
        + right. exists i. split; [done | f_equal; lia].
      - intros [[-> ->] | (i & Hi & ->)].
        + exists 0%nat. split; [done | by rewrite Nat.add_0_r].
        + exists (S i). split; [done | f_equal; lia]. }
    destruct d as [dep|]; cbn [fmap option_fmap option_map subscribed_to callback].
    + destruct (decide (dep = a)) as [-> | Hne].
      * rewrite filter_cons_True by done. split_and!.
        -- intros g. rewrite elem_of_cons, Hin, Hshift. split; [intros [-> | H] | intros [[_ ->] | H]]; tauto.
        -- apply NoDup_cons. split; [|done]. rewrite Hin. intros (i & _ & Hi).
           injection Hi as Hi. lia.
        -- cbn. by rewrite Hlength.
      * rewrite filter_cons_False by congruence. split_and!; [|done|done].
        intros g. rewrite Hin, Hshift. split; [tauto | intros [[H _] | H]; [congruence | done]].
    + rewrite filter_cons_False by done. split_and!; [|done|done].
      intros g. rewrite Hin, Hshift. split; [tauto | intros [[H _] | H]; [done | done]].
Qed.

Lemma handles_on_outside result idx dependencies a :
  Forall (λ d, ∀ dep, d = Some dep → dep ≠ a) dependencies →
  handles_on a (dependency_handles result idx dependencies) = [].
Proof.
  intros Hvalid. destruct (dependency_listeners result dependencies idx a) as (Hin & _).
  cbn zeta in Hin. destruct (handles_on _ _) as [|g gs]; [done|].
  destruct (proj1 (Hin g) (list_elem_of_here _ _)) as (i & Hi & _).
  rewrite Forall_lookup in Hvalid. by destruct (Hvalid i _ Hi a eq_refl).
Qed.

(** A lazy [computed]: the heap and the registry that it leaves. *)
Lemma computed_lazy_heap user fuel fn dependencies label w :
  Forall (λ d, ∀ dep, d = Some dep → is_Some (heap w !! dep)) dependencies →
  let result := length (heap w) in
  let handles := dependency_handles result 0 dependencies in
  let text := default "computed" label in
  let id := "obs" +:+ "_" +:+ nat_toString (nextId w) in
  ∃ w',
    computed user fuel (Some fn) (Some dependencies) (mkComputedOptions (Some true) label) w =
      Some (Normal result, w') ∧
    heap w' =
      imap (λ a o, foldl subscribed o (handles_on a handles)) (heap w) ++
      [mkObservable id VUndefined []
         (mkObservableMetrics 0 0 0 0 (Date_now (host w) (date_calls (host w))) [])
         (Some (mkComputed text (mkComputeMetrics 0 0 0 0) fn dependencies text handles))] ∧
    system w' = with_observables (Map_set id result (_observables (system w))) (system w) ∧
    component_heap w' = component_heap w ∧
    nextId w' = S (nextId w).
Proof.
  intros Hvalid result handles text id. unfold computed. cbn [lazy name default].
  unfold bind at 1, read. rewrite new_Observable_spec.
  fold result id.
  set (o := mkObservable id VUndefined [] _ None).
  set (w1 := mkWorld _ _ _ _ _).
  assert (H1 : heap w1 !! result = Some o) by apply list_lookup_middle, eq_refl.
  unfold bind at 1. rewrite (update_at _ _ _ _ H1).
  fold text.
  set (c := mkComputed _ _ _ _ _ _).
  set (w2 := with_heap _ w1).
  assert (Hheap2 : heap w2 = heap w ++ [with_computed (Some c) o]).
  { subst w2 w1. cbn [heap with_heap]. unfold result.
    by rewrite insert_app_r_alt, Nat.sub_diag by lia. }
  change (Datatypes.id true) with true. cbv iota.
  unfold bind at 1, ret at 1. unfold bind at 1.
  destruct (subscribe_dependencies_heap result dependencies 0 w2)
    as (w3 & Hrun & Hheap & Hsys & Hhost & Hcomponents & Hnext).
  { eapply Forall_impl; [exact Hvalid|]. intros d Hd dep Hdep.
    apply lookup_lt_is_Some. specialize (Hd dep Hdep). apply lookup_lt_is_Some in Hd.
    rewrite Hheap2, length_app. lia. }
  rewrite Hrun. fold handles in Hheap.
  assert (Hheap3 : heap w3 =
    imap (λ a o, foldl subscribed o (handles_on a handles)) (heap w)
    ++ [with_computed (Some c) o]).
  { rewrite Hheap, Hheap2, imap_app. f_equal. cbn. rewrite Nat.add_0_r. fold result.
    unfold handles. rewrite handles_on_outside; [done|].
    eapply Forall_impl; [exact Hvalid|]. intros d Hd dep Hdep.
    specialize (Hd dep Hdep). apply lookup_lt_is_Some in Hd. unfold result. lia. }
  assert (H3 : heap w3 !! result = Some (with_computed (Some c) o)).
  { rewrite Hheap3. apply list_lookup_middle. by rewrite length_imap. }
  unfold bind at 1. rewrite (update_at _ _ _ _ H3). unfold ret.
  eexists. split; [reflexivity|]. cbn [heap with_heap system component_heap nextId].
  split_and!.
  - rewrite Hheap3. rewrite insert_app_r_alt by (rewrite length_imap; unfold result; lia).
    rewrite length_imap. unfold result. by rewrite Nat.sub_diag.
  - by rewrite Hsys.
  - by rewrite Hcomponents.
  - by rewrite Hnext.
Qed.

Lemma handles_lookup result idx dependencies i :
  dependency_handles result idx dependencies !! i =
  (λ d : option nat,
     (λ dep, mkUnsubscriber dep (DependencyListener result (idx + i))) <$> d)
  <$> dependencies !! i.
Proof. unfold dependency_handles. by rewrite list_lookup_imap. Qed.

Lemma listeners_fresh w a o result idx dependencies :
  listeners_allocated w →
  heap w !! a = Some o →
  (length (heap w) ≤ result)%nat →
  ∀ g, g ∈ handles_on a (dependency_handles result idx dependencies) →
       g ∉ Set_entries (_subscribers o).
Proof.
  intros Hallocated Ho Hresult g Hg Hin.
  destruct (dependency_listeners result dependencies idx a) as (Hlisteners & _).
  apply Hlisteners in Hg as (i & _ & ->).
  specialize (Hallocated a o result (idx + i)%nat Ho Hin). lia.
Qed.

(** X15. A lazy [computed] over [dependencies] allocates one Observable,
    without subscribers, and subscribes a fresh listener to each dependency
    that is an Observable, one per occurrence: an Observable that occurs
    [k] times among the dependencies gains [k] listeners at the end of its
    subscriber set and [k] on its [subscriptions] counter, and nothing else
    of it changes.  What is no Observable gets the empty function.  The
    unsubscribe functions are kept in the order of the dependencies. *)
Theorem computed_subscribes_a_listener_per_dependency
        (user : nat → list JsValue → World → completion JsValue * World)
        (fuel fn : nat) (dependencies : list (option nat)) (label : option string)
        (w : World) :
  listeners_allocated w →
  Forall (λ d, ∀ dep, d = Some dep → is_Some (heap w !! dep)) dependencies →
  let result := length (heap w) in
  let handles := dependency_handles result 0 dependencies in
  ∃ w' created c,
    computed user fuel (Some fn) (Some dependencies) (mkComputedOptions (Some true) label) w =
      Some (Normal result, w') ∧
    heap w' !! result = Some created ∧
    _subscribers created = [] ∧
    _computed created = Some c ∧
    deps c = dependencies ∧
    unsubscribers c = handles ∧
    (∀ i, dependencies !! i = Some None → handles !! i = Some None) ∧
    (∀ i dep, dependencies !! i = Some (Some dep) →
              handles !! i = Some (Some (mkUnsubscriber dep (DependencyListener result i)))) ∧
    (∀ a o,
       heap w !! a = Some o →
       ∃ o',
         heap w' !! a = Some o' ∧
         same_but_subscribers o o' ∧
         Set_entries (_subscribers o') = Set_entries (_subscribers o) ++ handles_on a handles ∧
         (∀ g, g ∈ handles_on a handles ↔
               ∃ i, dependencies !! i = Some (Some a) ∧ g = DependencyListener result i) ∧
         subscriptions (_metrics o') =
           subscriptions (_metrics o)
           + Z.of_nat (length (filter (λ d, d = Some a) dependencies))) ∧
    listeners_allocated w'.
Proof.
  intros Hallocated Hvalid result handles.
  destruct (computed_lazy_heap user fuel fn dependencies label w Hvalid)
    as (w' & Hrun & Hheap & _). cbn zeta in Hheap. fold result handles in Hheap, Hrun.
  set (created := mkObservable _ _ _ _ _) in Hheap.
  assert (Hcells : ∀ a o,
    heap w !! a = Some o →
    ∃ o',
      heap w' !! a = Some o' ∧
      same_but_subscribers o o' ∧
      Set_entries (_subscribers o') = Set_entries (_subscribers o) ++ handles_on a handles ∧
      (∀ g, g ∈ handles_on a handles ↔
            ∃ i, dependencies !! i = Some (Some a) ∧ g = DependencyListener result i) ∧
      subscriptions (_metrics o') =
        subscriptions (_metrics o)
        + Z.of_nat (length (filter (λ d, d = Some a) dependencies))).
  { intros a o Ho.
    destruct (foldl_subscribed (handles_on a handles) o) as (Hsame & Hcount & _ & Hexact).
    destruct (dependency_listeners result dependencies 0 a) as (Hin & Hnodup & Hlength).
    cbn zeta in *. fold handles in Hin, Hnodup, Hlength.
    eexists. split_and!.
    - rewrite Hheap, lookup_app_l by (rewrite length_imap; by eapply lookup_lt_Some).
      rewrite list_lookup_imap, Ho. reflexivity.
    - exact Hsame.
    - apply Hexact; [exact Hnodup|].
      by eapply listeners_fresh.
    - exact Hin.
    - by rewrite Hcount, Hlength. }
  exists w', created, (mkComputed (default "computed" label) (mkComputeMetrics 0 0 0 0) fn
                         dependencies (default "computed" label) handles).
  split_and!; try done.
  - rewrite Hheap. apply list_lookup_middle. by rewrite length_imap.
  - intros i Hi. unfold handles. by rewrite handles_lookup, Hi.
  - intros i dep Hi. unfold handles. by rewrite handles_lookup, Hi.
  - intros a o' target idx Ho' Hin.
    assert (Hlength : length (heap w') = S result)
      by (rewrite Hheap, length_app, length_imap; cbn; unfold result; lia).
    rewrite Hlength.
    destruct (decide (a < result)%nat) as [Hlt | Hge].
    + destruct (lookup_lt_is_Some_2 (heap w) a Hlt) as [o Ho].
      destruct (Hcells a o Ho) as (o'' & Ho'' & _ & Hentries & Hlisteners & _).
      rewrite Ho' in Ho''. injection Ho'' as <-.
      rewrite Hentries in Hin. apply elem_of_app in Hin as [Hin | Hin].
      * specialize (Hallocated a o target idx Ho Hin). fold result in Hallocated. lia.
      * apply Hlisteners in Hin as (i & _ & Hi). injection Hi as -> _. lia.
    + apply lookup_lt_Some in Ho' as Hbound. rewrite Hlength in Hbound.
      assert (a = result) as -> by lia.
      rewrite Hheap, list_lookup_middle in Ho' by (by rewrite length_imap).
      injection Ho' as <-. cbn in Hin. by apply elem_of_nil in Hin.
Qed.

Lemma computed_subscribes_a_listener_per_dependency_witness :
  ∃ w' dependency,
    computed sample_user 3 (Some 2%nat) (Some [Some 0%nat; None; Some 0%nat])
             (mkComputedOptions (Some true) None) one_observable =
      Some (Normal 1%nat, w') ∧
    heap w' !! 0%nat = Some dependency ∧
    Set_entries (_subscribers dependency) =
      [DependencyListener 1 0; DependencyListener 1 2] ∧
    subscriptions (_metrics dependency) = 2.
Proof.
  destruct (computed_subscribes_a_listener_per_dependency sample_user 3 2
              [Some 0%nat; None; Some 0%nat] None one_observable)
    as (w' & created & c & Hrun & _ & _ & _ & _ & _ & _ & _ & Hcells & _).
  - intros a o target idx Ho Hin.
    destruct a as [|a]; [|done]. injection Ho as <-. by apply elem_of_nil in Hin.
  - repeat constructor; intros dep [= <-]; by eexists.
  - destruct (Hcells 0%nat (object_at 0 one_observable) eq_refl)
      as (dependency & Hdependency & _ & Hentries & _ & Hcount).
    exists w', dependency. split; [exact Hrun|]. split; [exact Hdependency|].
    split; [rewrite Hentries; reflexivity | rewrite Hcount; reflexivity].
Defined.

Lemma filter_out_appended (gs fs : list JsFunction) :
  (∀ g, g ∈ gs → g ∉ fs) →
  filter (λ g, g ∉ gs) (fs ++ gs) = fs.
Proof.
  intros Hfresh. rewrite filter_app.
  assert (Hnone : ∀ l : list JsFunction, (∀ g, g ∈ l → g ∈ gs) → filter (λ g, g ∉ gs) l = []).
  { induction l as [|g l IH]; intros Hl; [done|].
    rewrite filter_cons_False by (intros Hg; apply Hg, Hl, list_elem_of_here).
    apply IH. intros f Hf. by apply Hl, list_elem_of_further. }
  rewrite (Hnone gs) by done. rewrite app_nil_r.
  induction fs as [|f fs IH]; [done|].
  rewrite filter_cons_True.
  - rewrite IH; [done|]. intros g Hg Hin. apply (Hfresh g Hg). by apply list_elem_of_further.
  - intros Hin. apply (Hfresh f Hin), list_elem_of_here.
Qed.

Lemma filter_keeps_all (gs fs : list JsFunction) :
  (∀ g, g ∈ gs → g ∉ fs) →
  filter (λ g, g ∉ gs) fs = fs.
Proof.
  intros Hfresh. induction fs as [|f fs IH]; [done|].
  rewrite filter_cons_True.
  - rewrite IH; [done|]. intros g Hg Hin. apply (Hfresh g Hg). by apply list_elem_of_further.
  - intros Hin. apply (Hfresh f Hin), list_elem_of_here.
Qed.

(** X16. [dispose] undoes what [computed] subscribed.  After a lazy computed
    was created and disposed of, every Observable that existed before has
    its subscriber set and its [subscriptions] counter back, and the system
    is untouched.  [dispose] is not idempotent on the counter: a second call
    leaves the subscriber sets as they are but takes the counter of each
    dependency down again, by its number of occurrences among the
    dependencies. *)
Theorem dispose_undoes_the_subscriptions
        (user : nat → list JsValue → World → completion JsValue * World)
        (fuel fn : nat) (dependencies : list (option nat)) (label : option string)
        (w : World) :
  listeners_allocated w →
  Forall (λ d, ∀ dep, d = Some dep → is_Some (heap w !! dep)) dependencies →
  let result := length (heap w) in
  ∃ created disposed again,
    computed user fuel (Some fn) (Some dependencies) (mkComputedOptions (Some true) label) w =
      Some (Normal result, created) ∧
    dispose result created = Some (Normal tt, disposed) ∧
    dispose result disposed = Some (Normal tt, again) ∧
    system disposed = system created ∧
    system again = system created ∧
    heap disposed !! result = heap created !! result ∧
    (∀ a o,
       heap w !! a = Some o →
       ∃ o2 o3,
         heap disposed !! a = Some o2 ∧
         same_but_subscribers o o2 ∧
         Set_entries (_subscribers o2) = Set_entries (_subscribers o) ∧
         subscriptions (_metrics o2) = subscriptions (_metrics o) ∧
         heap again !! a = Some o3 ∧
         Set_entries (_subscribers o3) = Set_entries (_subscribers o) ∧
         subscriptions (_metrics o3) =
           subscriptions (_metrics o)
           - Z.of_nat (length (filter (λ d, d = Some a) dependencies))).
Proof.
  intros Hallocated Hvalid result.
  set (handles := dependency_handles result 0 dependencies).
  destruct (computed_lazy_heap user fuel fn dependencies label w Hvalid)
    as (w1 & Hrun & Hheap & _). cbn zeta in Hheap. fold result handles in Hheap, Hrun.
  set (cell := mkObservable _ _ _ _ _) in Hheap.
  assert (Houtside : handles_on result handles = []).
  { unfold handles. rewrite handles_on_outside; [done|].
    eapply Forall_impl; [exact Hvalid|]. intros d Hd dep Hdep.
    specialize (Hd dep Hdep). apply lookup_lt_is_Some in Hd. unfold result. lia. }
  assert (Hlength : length (heap w1) = S result)
    by (rewrite Hheap, length_app, length_imap; cbn; unfold result; lia).
  assert (Htargets : ∀ x, length (heap x) = S result →
    Forall (λ h : option Unsubscriber,
              ∀ u, h = Some u → is_Some (heap x !! subscribed_to u)) handles).
  { intros x Hx. apply Forall_lookup. intros i h Hi u ->.
    unfold handles in Hi. rewrite handles_lookup in Hi.
    destruct (dependencies !! i) as [[dep|]|] eqn:Hdep; try done.
    injection Hi as <-. cbn. rewrite Forall_lookup in Hvalid.
    specialize (Hvalid i _ Hdep dep eq_refl). apply lookup_lt_is_Some in Hvalid.
    apply lookup_lt_is_Some. fold result in Hvalid. lia. }
  assert (Hdispose : ∀ x,
    heap x !! result = Some cell → length (heap x) = S result →
    ∃ x', dispose result x = Some (Normal tt, x') ∧
          heap x' = imap (λ a o, foldl unsubscribed o (handles_on a handles)) (heap x) ∧
          system x' = system x).
  { intros x Hx Hlen. unfold dispose, this_computed. rewrite bind_bind.
    rewrite (bind_this _ _ _ _ Hx). cbn [_computed cell]. rewrite bind_ret.
    cbn [unsubscribers].
    destruct (dispose_all_heap handles x (Htargets x Hlen)) as (x' & Hx' & Hh & Hs & _).
    by exists x'. }
  assert (Hcell1 : heap w1 !! result = Some cell).
  { rewrite Hheap. apply list_lookup_middle. by rewrite length_imap. }
  destruct (Hdispose w1 Hcell1 Hlength) as (w2 & Hrun2 & Hheap2 & Hsystem2).
  assert (Hlength2 : length (heap w2) = S result) by (by rewrite Hheap2, length_imap).
  assert (Hcell2 : heap w2 !! result = Some cell)
    by (by rewrite Hheap2, list_lookup_imap, Hcell1, Houtside).
  destruct (Hdispose w2 Hcell2 Hlength2) as (w3 & Hrun3 & Hheap3 & Hsystem3).
  exists w1, w2, w3. split_and!; try done; [congruence | congruence |].
  intros a o Ho.
  assert (Ha : (a < length (heap w))%nat) by (by eapply lookup_lt_Some).
  set (listeners := handles_on a handles).
  destruct (foldl_subscribed listeners o) as (Hsame & Hcount & _ & Hexact).
  destruct (dependency_listeners result dependencies 0 a) as (_ & Hnodup & Hnumber).
  cbn zeta in *. fold handles listeners in Hnodup, Hnumber.
  set (o1 := foldl subscribed o listeners) in *.
  destruct (foldl_unsubscribed listeners o1) as (Hsame2 & Hcount2 & Hentries2).
  cbn zeta in *. set (o2 := foldl unsubscribed o1 listeners) in *.
  destruct (foldl_unsubscribed listeners o2) as (Hsame3 & Hcount3 & Hentries3).
  cbn zeta in *. set (o3 := foldl unsubscribed o2 listeners) in *.
  assert (Hfresh : ∀ g, g ∈ listeners → g ∉ Set_entries (_subscribers o))
    by (by eapply listeners_fresh).
  assert (Ho1 : heap w1 !! a = Some o1).
  { rewrite Hheap, lookup_app_l by (by rewrite length_imap).
    by rewrite list_lookup_imap, Ho. }
  assert (Ho2 : heap w2 !! a = Some o2) by (by rewrite Hheap2, list_lookup_imap, Ho1).
  assert (Ho3 : heap w3 !! a = Some o3) by (by rewrite Hheap3, list_lookup_imap, Ho2).
  assert (Hback : Set_entries (_subscribers o2) = Set_entries (_subscribers o)).
  { rewrite Hentries2, Hexact by done. by apply filter_out_appended. }
  exists o2, o3. split_and!; try done.
  - unfold same_but_subscribers in *. congruence.
  - rewrite Hcount2, Hcount. lia.
  - rewrite Hentries3, Hback. by apply filter_keeps_all.
  - rewrite Hcount3, Hcount2, Hcount, Hnumber. lia.
Qed.

Lemma dispose_undoes_the_subscriptions_witness :
  ∃ created disposed dependency,
    computed sample_user 3 (Some 2%nat) (Some [Some 0%nat])
             (mkComputedOptions (Some true) None) three_subscribers =
      Some (Normal 1%nat, created) ∧
    dispose 1 created = Some (Normal tt, disposed) ∧
    heap disposed !! 0%nat = Some dependency ∧
    Set_entries (_subscribers dependency) = [UserFunction 0; UserFunction 1; UserFunction 2] ∧
    subscriptions (_metrics dependency) = 3.
Proof.
  destruct (dispose_undoes_the_subscriptions sample_user 3 2 [Some 0%nat] None
              three_subscribers)
    as (created & disposed & again & Hrun & Hdispose & _ & _ & _ & _ & Hcells).
  - intros a o target idx Ho Hin.
    destruct a as [|a]; [|done]. injection Ho as <-. vm_compute in Hin.
    repeat (apply elem_of_cons in Hin as [Hin | Hin]; [discriminate Hin|]).
    by apply elem_of_nil in Hin.
  - repeat constructor; intros dep [= <-]; by eexists.
  - destruct (Hcells 0%nat (object_at 0 three_subscribers) eq_refl)
      as (dependency & _ & Hdependency & _ & Hentries & Hcount & _).
    exists created, disposed, dependency. split; [exact Hrun|]. split; [exact Hdispose|].
    split; [exact Hdependency|].
    split; [rewrite Hentries; reflexivity | rewrite Hcount; reflexivity].
Defined.

(** ** Computed: creation *)

(** The first computation of a [computed] that is not lazy: whatever its
    outcome, the creation goes on. *)
Lemma initial_computation user fuel result w outcome w' :
  recompute user fuel result (snd (perf_now w)) = Some (outcome, w') →
  ∃ y,
    try_catch
      (startTime <- read perf_now ;;
       recompute user fuel result ;;
       endTime <- read perf_now ;;
       effect (recordMetric "initialComputeTime" (endTime - startTime) []))
      (λ _, ret tt) w = Some (Normal tt, y) ∧
    heap y = heap w'.
Proof.
  intros Hrun. unfold try_catch. rewrite bind_read. unfold bind at 1. rewrite Hrun.
  destruct outcome as [v|e].
  - rewrite bind_read. unfold effect. eexists. split; [reflexivity|].
    by rewrite recordMetric_heap.
  - by exists w'.
Qed.

(** X17. A [computed] that is not lazy starts with its value computed.  When
    the compute function returns [f] of the value of a dependency [dep] and
    only reads, [computed] returns a new Observable that holds [f] of the
    value of [dep] after exactly one computation, with a listener
    subscribed to [dep] for each of its occurrences among the dependencies;
    the value of [dep] is unchanged. *)
Theorem computed_starts_consistent
        (user : nat → list JsValue → World → completion JsValue * World)
        (fuel fn : nat) (dependencies : list (option nat)) (options : ComputedOptions)
        (dep : nat) (f : JsValue → JsValue) (w : World) (d : Observable) :
  default false (lazy options) = false →
  (0 < fuel)%nat →
  Forall (λ d, ∀ dep, d = Some dep → is_Some (heap w !! dep)) dependencies →
  heap w !! dep = Some d →
  (∀ w1 d1,
     heap w1 !! dep = Some d1 →
     ∃ w2, user fn [] w1 = (Normal (f (_value d1)), w2) ∧
           ∀ a, a = length (heap w) ∨ a = dep ∨ Some a ∈ dependencies → only_read a w1 w2) →
  let result := length (heap w) in
  ∃ w' created c d',
    computed user fuel (Some fn) (Some dependencies) options w = Some (Normal result, w') ∧
    heap w' !! result = Some created ∧
    _value created = f (_value d) ∧
    _computed created = Some c ∧
    totalComputations (_computeMetrics c) = 1 ∧
    unsubscribers c = dependency_handles result 0 dependencies ∧
    heap w' !! dep = Some d' ∧
    _value d' = _value d ∧
    (∀ i, dependencies !! i = Some (Some dep) →
          DependencyListener result i ∈ Set_entries (_subscribers d')).
Proof.
  intros Hlazy Hfuel Hvalid Hd Hcompute result.
  assert (Hdep : (dep < result)%nat) by (by eapply lookup_lt_Some).
  unfold computed. rewrite Hlazy.
  rewrite bind_read, new_Observable_spec. cbn [fst snd]. fold result.
  set (key := "obs" +:+ "_" +:+ nat_toString (nextId w)).
  set (o := mkObservable key VUndefined [] _ None).
  set (w1 := mkWorld _ _ _ _ _).
  assert (H1 : heap w1 !! result = Some o) by apply list_lookup_middle, eq_refl.
  unfold bind at 1. rewrite (update_at _ _ _ _ H1).
  set (c := mkComputed _ _ _ _ _ _).
  set (w2 := with_heap _ w1).
  assert (Hheap2 : heap w2 = heap w ++ [with_computed (Some c) o]).
  { subst w2 w1. cbn [heap with_heap]. unfold result.
    by rewrite insert_app_r_alt, Nat.sub_diag by lia. }
  set (cells := result :: dep :: omap id dependencies).
  assert (Hcells : ∀ a, a ∈ cells → a = result ∨ a = dep ∨ Some a ∈ dependencies).
  { intros a Ha. apply elem_of_cons in Ha as [-> | Ha]; [by left|].
    apply elem_of_cons in Ha as [-> | Ha]; [right; by left|].
    right. right. apply list_elem_of_omap in Ha as (x & Hx & Hid). unfold id in Hid.
    by subst x. }
  set (x := snd (perf_now w2)).
  set (this := with_computed (Some c) o).
  assert (Hthis : heap x !! result = Some this).
  { change (heap x) with (heap w2). rewrite Hheap2. by apply list_lookup_middle. }
  set (started := computation_started result this c x).
  assert (Hstarted : heap started !! dep = Some d).
  { unfold started, computation_started. cbn [heap with_heap].
    change (heap x) with (heap w2).
    rewrite list_lookup_insert_ne by lia. rewrite Hheap2, lookup_app_l by done. done. }
  destruct (Hcompute started d Hstarted) as (returned & Hreturns & Hread).
  destruct (performComputation_quiet user (invoke user fuel) fuel result x this c
              (f (_value d)) returned cells Hthis eq_refl)
    as (outcome & x' & final & cf & duration & Hrecompute & Hfinal & _ & Hvalue & Hsubs
        & _ & _ & _ & Hcf & (_ & _ & _ & _ & Hunsubscribers) & Htotal & _ & _ & _ & Hothers).
  { apply list_elem_of_here. }
  { exact Hreturns. }
  { intros a Ha. by apply Hread, Hcells. }
  { intros g Hg. cbn in Hg. by apply elem_of_nil in Hg. }
  { cbn. lia. }
  destruct (initial_computation user fuel result w2 outcome x' Hrecompute)
    as (y & Hinitial & Hheapy).
  unfold bind at 1. rewrite Hinitial.
  assert (Hread' : ∀ a, a ∈ cells → a ≠ result → only_read a w2 y).
  { intros a Ha Hne. eapply only_read_trans; [|by apply only_read_heap].
    eapply only_read_trans; [|by apply Hothers]. by apply only_read_heap. }
  destruct (subscribe_dependencies_heap result dependencies 0 y)
    as (w3 & Hrun & Hheap3 & _).
  { apply Forall_lookup. intros i [a|] Hi a' [= <-].
    assert (Ha : a ∈ cells).
    { do 2 apply list_elem_of_further. apply list_elem_of_omap. exists (Some a).
      split; [by eapply list_elem_of_lookup_2 | done]. }
    rewrite Forall_lookup in Hvalid. destruct (Hvalid i _ Hi a eq_refl) as [oa Hoa].
    assert (Hlt : (a < result)%nat) by (by eapply lookup_lt_Some).
    destruct (Hread' a Ha ltac:(lia) oa) as (oa' & Hoa' & _); [|by eexists].
    by rewrite Hheap2, lookup_app_l. }
  unfold bind at 1. rewrite Hrun.
  set (handles := dependency_handles result 0 dependencies) in *.
  assert (Houtside : handles_on result handles = []).
  { unfold handles. rewrite handles_on_outside; [done|].
    eapply Forall_impl; [exact Hvalid|]. intros d0 Hd0 dep0 Hdep0.
    specialize (Hd0 dep0 Hdep0). apply lookup_lt_is_Some in Hd0. unfold result. lia. }
  assert (Hfinal3 : heap w3 !! result = Some final)
    by (by rewrite Hheap3, list_lookup_imap, Hheapy, Hfinal, Houtside).
  unfold bind at 1. rewrite (update_at _ _ _ _ Hfinal3). unfold ret.
  destruct (Hread' dep) with (o := d) as (dy & Hdy & _ & Hvalue' & _).
  { apply list_elem_of_further, list_elem_of_here. }
  { lia. }
  { by rewrite Hheap2, lookup_app_l. }
  destruct (foldl_subscribed (handles_on dep handles) dy) as (Hsame & _ & Hin & _).
  cbn zeta in Hsame, Hin. set (d' := foldl subscribed dy (handles_on dep handles)) in *.
  assert (Hd' : heap w3 !! dep = Some d') by (by rewrite Hheap3, list_lookup_imap, Hdy).
  eexists _, _, _, d'. split; [reflexivity|]. cbn [heap with_heap].
  split; [eapply lookup_updated, Hfinal3|].
  rewrite Hcf. cbn [_value _computed with_computed fmap option_fmap option_map
                    with_unsubscribers totalComputations _computeMetrics unsubscribers].
  split_and!; try done.
  - by rewrite list_lookup_insert_ne by lia.
  - apply (f_equal _value) in Hsame. cbn in Hsame. congruence.
  - intros i Hi. apply Hin. right.
    destruct (dependency_listeners result dependencies 0 dep) as (Hlisteners & _).
    apply Hlisteners. by exists i.
Qed.

Lemma computed_starts_consistent_witness :
  ∃ w' created,
    computed doubling_user 3 (Some 0%nat) (Some [Some 0%nat])
             (mkComputedOptions None (Some "double")) written_once =
      Some (Normal 1%nat, w') ∧
    heap w' !! 1%nat = Some created ∧
    _value created = VNumber 10.
Proof.
  destruct (computed_starts_consistent doubling_user 3 0 [Some 0%nat]
              (mkComputedOptions None (Some "double")) 0 twice written_once
              (object_at 0 written_once) eq_refl)
    as (w' & created & c & d' & Hrun & Hcreated & Hvalue & _).
  - lia.
  - repeat constructor; intros dep [= <-]; by eexists.
  - reflexivity.
  - intros w1 d1 Hd1. destruct (doubling_user_reads 0 [] w1 d1 Hd1) as (w2 & Hcall & Hread).
    exists w2. split; [exact Hcall|]. intros a _. apply Hread.
  - exists w', created. split; [exact Hrun|]. split; [exact Hcreated | exact Hvalue].
Defined.

(** ** Observable: the snapshot *)





(** ** Component: state and subscriptions *)

Lemma setState_step self newState p this fields :
  component_heap (store p) !! self = Some this →
  component_fields p !! self = Some fields →
  let p' := setState self newState p in
  let h := host (store p) in
  let clock (i : nat) := performance_now h (performance_calls h + i) in
  let m := component_metrics this in
  component_heap (store p') =
    <[self := mkComponent (component_id this) (constructor_name this) (_renderId this + 1)
                (_mounted this)
                (mkComponentMetrics (renders m + 1) (renderTime m + (clock 2%nat - clock 1%nat))
                   (clock 2%nat - clock 1%nat) (updates m + 1)
                   (updateTime m + (clock 3%nat - clock 0%nat)) (createdAt m) (mountedAt m))]>
      (component_heap (store p)) ∧
  component_fields p' =
    <[self := mkComponentFields (component_props fields) (newState ∪ component_state fields)
                (_element fields) (_subscriptions fields)]> (component_fields p) ∧
  heap (store p') = heap (store p) ∧
  _observables (system (store p')) = _observables (system (store p)) ∧
  _components (system (store p')) = _components (system (store p)) ∧
  errors (global (system_metrics (system (store p')))) =
    errors (global (system_metrics (system (store p)))) ∧
  performance_now (host (store p')) = performance_now h ∧
  performance_calls (host (store p')) = (performance_calls h + 4)%nat.
Proof.
  intros Hthis Hfields p' h clock m. subst p'. unfold setState.
  cbn [perf_now].
  set (w0 := with_host _ (store p)).
  set (w1 := with_component_heap _ w0).
  set (updated := mkComponent (component_id this) (constructor_name this) (_renderId this)
                    (_mounted this)
                    (mkComponentMetrics (renders m) (renderTime m) (lastRenderTime m)
                       (updates m + 1) (updateTime m) (createdAt m) (mountedAt m))).
  assert (Hupdated : component_heap w1 !! self = Some updated).
  { subst w1 w0. cbn. rewrite list_lookup_alter, Hthis. by rewrite decide_True. }
  destruct (render_step self w1 updated Hupdated)
    as (Hcomponents & Hheap & Hobs & Hcomps & _ & Hclock & Hcalls & Herrors & _).
  cbn zeta in *.
  set (w2 := render self w1) in *.
  assert (Hduration : render_duration w1 0 = (clock 2%nat - clock 1%nat)%Q).
  { unfold render_duration, clock, h. subst w1 w0. cbn [host with_host with_component_heap
      performance_now performance_calls].
    replace (S (performance_calls (host (store p))) + 2 * 0 + 1)%nat
      with (performance_calls (host (store p)) + 2)%nat by lia.
    replace (S (performance_calls (host (store p))) + 2 * 0)%nat
      with (performance_calls (host (store p)) + 1)%nat by lia.
    reflexivity. }
  assert (Helapsed :
    (performance_now (host w2) (performance_calls (host w2))
     - performance_now (host (store p)) (performance_calls (host (store p))))%Q
    = (clock 3%nat - clock 0%nat)%Q).
  { rewrite Hclock, Hcalls. unfold clock, h. subst w1 w0. cbn [host with_host
      with_component_heap performance_now performance_calls].
    replace (performance_calls (host (store p)) + 3)%nat
      with (S (S (S (performance_calls (host (store p)))))) by lia.
    replace (performance_calls (host (store p)) + 0)%nat
      with (performance_calls (host (store p))) by lia.
    reflexivity. }
  rewrite Helapsed. rewrite Hduration in Hcomponents.
  set (w3 := with_host _ w2).
  set (w4 := with_component_heap _ w3).
  set (final := mkComponent (component_id this) (constructor_name this) (_renderId this + 1)
                  (_mounted this) _).
  assert (Hfinal : component_heap w4 = <[self := final]> (component_heap (store p))).
  { subst w4 w3. cbn [component_heap with_component_heap with_host]. rewrite Hcomponents.
    subst w1 w0. cbn [component_heap with_component_heap with_host].
    apply list_eq. intros j. rewrite list_lookup_alter.
    destruct (decide (j = self)) as [->|Hj].
    - rewrite decide_True by done. rewrite !list_lookup_insert_eq.
      + done.
      + by eapply lookup_lt_Some.
      + rewrite length_alter. by eapply lookup_lt_Some.
    - rewrite decide_False by done. rewrite !list_lookup_insert_ne by done.
      rewrite list_lookup_alter. by rewrite decide_False by done. }
  assert (Hlookup : component_heap w4 !! self = Some final).
  { rewrite Hfinal. apply list_lookup_insert_eq. by eapply lookup_lt_Some. }
  rewrite Hlookup. cbn [store component_fields].
  rewrite recordMetric_component_heap, recordMetric_heap, recordMetric_global.
  destruct (recordMetric_registry "componentUpdateTime" (clock 3%nat - clock 0%nat)
              [("component", VString (constructor_name final));
               ("id", VString (component_id final))] w4) as (Hobs' & Hcomps' & _).
  rewrite Hobs', Hcomps'.
  destruct (recordMetric_host "componentUpdateTime" (clock 3%nat - clock 0%nat)
              [("component", VString (constructor_name final));
               ("id", VString (component_id final))] w4) as (Hclock' & Hcalls').
  rewrite Hclock', Hcalls'.
  split_and!.
  - exact Hfinal.
  - apply list_eq. intros j. rewrite list_lookup_alter.
    destruct (decide (j = self)) as [->|Hj].
    + rewrite decide_True by done.
      rewrite Hfields, list_lookup_insert_eq by (by eapply lookup_lt_Some). done.
    + rewrite decide_False by done. by rewrite list_lookup_insert_ne.
  - subst w4 w3. cbn [heap with_component_heap with_host]. rewrite Hheap. done.
  - subst w4 w3. cbn [system with_component_heap with_host]. rewrite Hobs. done.
  - subst w4 w3. cbn [system with_component_heap with_host]. rewrite Hcomps. done.
  - subst w4 w3. cbn [system with_component_heap with_host]. rewrite Herrors. done.
  - subst w4 w3. cbn [host with_component_heap with_host performance_now]. rewrite Hclock.
    done.
  - subst w4 w3. cbn [host with_component_heap with_host performance_calls]. rewrite Hcalls.
    subst w1 w0. cbn [host with_component_heap with_host performance_calls]. unfold h. lia.
Qed.

Lemma foldl_union_absent (key : string) (changes : list (gmap string JsValue)) : ∀ state,
  (∀ s, s ∈ changes → s !! key = None) →
  foldl (λ state newState, newState ∪ state) state changes !! key = state !! key.
Proof.
  induction changes as [|s changes IH]; intros state Habsent; [done|].
  cbn [foldl]. rewrite IH.
  - rewrite lookup_union_r; [done|]. apply Habsent, list_elem_of_here.
  - intros s' Hs'. by apply Habsent, list_elem_of_further.
Qed.

Lemma foldl_union_last (key : string) (v : JsValue) earlier newState later
      (state : gmap string JsValue) :
  newState !! key = Some v →
  (∀ s, s ∈ later → s !! key = None) →
  foldl (λ state newState, newState ∪ state) state (earlier ++ newState :: later) !! key
  = Some v.
Proof.
  intros Hv Habsent. rewrite foldl_app. cbn [foldl].
  rewrite foldl_union_absent by done. by apply lookup_union_Some_l.
Qed.

Lemma update_duration_shift self newState p this fields i :
  component_heap (store p) !! self = Some this →
  component_fields p !! self = Some fields →
  update_duration (store (setState self newState p)) i = update_duration (store p) (S i).
Proof.
  intros Hthis Hfields.
  destruct (setState_step self newState p this fields Hthis Hfields)
    as (_ & _ & _ & _ & _ & _ & Hclock & Hcalls).
  cbn zeta in *. unfold update_duration. rewrite Hclock, Hcalls.
  replace (performance_calls (host (store p)) + 4 + 4 * i + 3)%nat
    with (performance_calls (host (store p)) + 4 * S i + 3)%nat by lia.
  replace (performance_calls (host (store p)) + 4 + 4 * i)%nat
    with (performance_calls (host (store p)) + 4 * S i)%nat by lia.
  reflexivity.
Qed.

(** X19. [setState] merges and renders.  After the calls [setState(s)] for
    the [s] of [changes], in order, the state is the old one overwritten by
    each [s] in turn: a key holds the value of the last change that sets
    it, and its old value if none does.  [updates], [renders] and
    [_renderId] have grown by the number of calls, and [updateTime] by the
    measured durations, each of which spans the render of its update.
    [props], the element, the collected subscriptions, the mounted flag and
    the Observables are untouched. *)
Theorem setState_merges_and_renders (self : nat) (changes : list (gmap string JsValue))
        (p : Page) (this : Component) (fields : ComponentFields) :
  component_heap (store p) !! self = Some this →
  component_fields p !! self = Some fields →
  let p' := setState_all self changes p in
  let m := component_metrics this in
  let n := length changes in
  ∃ this' fields',
    component_heap (store p') !! self = Some this' ∧
    component_fields p' !! self = Some fields' ∧
    component_state fields' =
      foldl (λ state newState, newState ∪ state) (component_state fields) changes ∧
    (∀ key, (∀ s, s ∈ changes → s !! key = None) →
            component_state fields' !! key = component_state fields !! key) ∧
    (∀ earlier newState later key v,
       changes = earlier ++ newState :: later →
       newState !! key = Some v →
       (∀ s, s ∈ later → s !! key = None) →
       component_state fields' !! key = Some v) ∧
    component_props fields' = component_props fields ∧
    _element fields' = _element fields ∧
    _subscriptions fields' = _subscriptions fields ∧
    component_id this' = component_id this ∧
    constructor_name this' = constructor_name this ∧
    _mounted this' = _mounted this ∧
    _renderId this' = _renderId this + Z.of_nat n ∧
    updates (component_metrics this') = updates m + Z.of_nat n ∧
    renders (component_metrics this') = renders m + Z.of_nat n ∧
    updateTime (component_metrics this') =
      fold_left Qplus (update_duration (store p) <$> seq 0 n) (updateTime m) ∧
    heap (store p') = heap (store p) ∧
    length (component_fields p') = length (component_fields p).
Proof.
  intros Hthis Hfields p' m n.
  assert (Hstate : ∃ this' fields',
    component_heap (store p') !! self = Some this' ∧
    component_fields p' !! self = Some fields' ∧
    component_state fields' =
      foldl (λ state newState, newState ∪ state) (component_state fields) changes ∧
    component_props fields' = component_props fields ∧
    _element fields' = _element fields ∧
    _subscriptions fields' = _subscriptions fields ∧
    component_id this' = component_id this ∧
    constructor_name this' = constructor_name this ∧
    _mounted this' = _mounted this ∧
    _renderId this' = _renderId this + Z.of_nat n ∧
    updates (component_metrics this') = updates m + Z.of_nat n ∧
    renders (component_metrics this') = renders m + Z.of_nat n ∧
    updateTime (component_metrics this') =
      fold_left Qplus (update_duration (store p) <$> seq 0 n) (updateTime m) ∧
    heap (store p') = heap (store p) ∧
    length (component_fields p') = length (component_fields p)).
  { subst p' m n. revert p this fields Hthis Hfields.
    induction changes as [|newState changes IH]; intros p this fields Hthis Hfields.
    - exists this, fields. cbn. split_and!; try done; lia.
    - cbn [setState_all foldl]. fold (setState_all self changes (setState self newState p)).
      destruct (setState_step self newState p this fields Hthis Hfields)
        as (Hcomponents & Hfields' & Hheap & _).
      cbn zeta in Hcomponents.
      set (updated := mkComponent _ _ _ _ _) in Hcomponents.
      set (merged := mkComponentFields _ _ _ _) in Hfields'.
      assert (Hupdated : component_heap (store (setState self newState p)) !! self
                         = Some updated).
      { rewrite Hcomponents. apply list_lookup_insert_eq. by eapply lookup_lt_Some. }
      assert (Hmerged : component_fields (setState self newState p) !! self = Some merged).
      { rewrite Hfields'. apply list_lookup_insert_eq. by eapply lookup_lt_Some. }
      destruct (IH _ updated merged Hupdated Hmerged)
        as (this' & fields' & Hthis' & Hfs' & Hst & Hprops & Helement & Hsubs & Hid & Hname
            & Hmounted & HrenderId & Hupdates & Hrenders & Htime & Hheap' & Hlength).
      assert (Hshift : update_duration (store (setState self newState p))
                         <$> seq 0 (length changes) =
                       update_duration (store p) <$> seq 1 (length changes)).
      { rewrite <- fmap_S_seq, <- list_fmap_compose. apply list_fmap_ext.
        intros i j _.
        exact (update_duration_shift self newState p this fields j Hthis Hfields). }
      rewrite Hshift in Htime. clear Hshift.
      exists this', fields'. split_and!; try done.
      + rewrite HrenderId. unfold updated. cbn [_renderId length]. lia.
      + rewrite Hupdates. unfold updated. cbn [updates component_metrics length]. lia.
      + rewrite Hrenders. unfold updated. cbn [renders component_metrics length]. lia.
      + rewrite Htime. cbn [length seq fmap list_fmap fold_left].
        unfold updated. cbn [updateTime component_metrics]. unfold update_duration.
        replace (performance_calls (host (store p)) + 4 * 0 + 3)%nat
          with (performance_calls (host (store p)) + 3)%nat by lia.
        replace (performance_calls (host (store p)) + 4 * 0)%nat
          with (performance_calls (host (store p)) + 0)%nat by lia.
        reflexivity.
      + by rewrite Hheap'.
      + rewrite Hlength, Hfields'. apply length_insert. }
  destruct Hstate
    as (this' & fields' & Hthis' & Hfs' & Hst & Hprops & Helement & Hsubs & Hid & Hname
        & Hmounted & HrenderId & Hupdates & Hrenders & Htime & Hheap' & Hlength).
  exists this', fields'. split_and!; try done.
  - intros key Habsent. rewrite Hst. by apply foldl_union_absent.
  - intros earlier newState later key v -> Hv Habsent. rewrite Hst.
    by apply foldl_union_last.
Qed.

Lemma setState_merges_and_renders_witness :
  ∃ this' fields',
    component_heap
      (store (setState_all 0 [{["count" := VNumber 1]}; {["count" := VNumber 2]}]
                           counter_page)) !! 0%nat = Some this' ∧
    component_fields
      (setState_all 0 [{["count" := VNumber 1]}; {["count" := VNumber 2]}]
                    counter_page) !! 0%nat = Some fields' ∧
    component_state fields' !! "count" = Some (VNumber 2) ∧
    updates (component_metrics this') = 2 ∧
    renders (component_metrics this') = 2.
Proof.
  destruct (setState_merges_and_renders 0
              [{["count" := VNumber 1]}; {["count" := VNumber 2]}] counter_page
              (mkComponent "comp_1" "Counter" 0 false (mkComponentMetrics 0 0 0 0 0 0 None))
              (mkComponentFields ∅ ∅ None []) eq_refl eq_refl)
    as (this' & fields' & Hthis' & Hfields' & _ & _ & Hlast & _ & _ & _ & _ & _ & _ & _
        & Hupdates & Hrenders & _).
  exists this', fields'. split; [exact Hthis'|]. split; [exact Hfields'|].
  split; [|split; [exact Hupdates | exact Hrenders]].
  apply (Hlast [{["count" := VNumber 1]}] {["count" := VNumber 2]} [] "count" (VNumber 2)).
  - reflexivity.
  - reflexivity.
  - intros s Hs. by apply elem_of_nil in Hs.
Defined.

Lemma unmount_mounted self p this fields :
  component_heap (store p) !! self = Some this →
  component_fields p !! self = Some fields →
  _mounted this = true →
  Forall (λ u, is_Some (heap (store p) !! subscribed_to u)) (_subscriptions fields) →
  ∃ p',
    unmount self p = Some p' ∧
    heap (store p') =
      imap (λ a o, foldl unsubscribed o (collected_on a (_subscriptions fields)))
           (heap (store p)) ∧
    system (store p') = system (store p) ∧
    host (store p') = host (store p) ∧
    component_heap (store p') =
      <[self := mkComponent (component_id this) (constructor_name this) (_renderId this) false
                  (component_metrics this)]> (component_heap (store p)) ∧
    component_fields p' =
      <[self := mkComponentFields (component_props fields) (component_state fields) None []]>
        (component_fields p).
Proof.
  intros Hthis Hfields Hmounted Hvalid.
  destruct (dispose_all_heap (Some <$> _subscriptions fields) (store p))
    as (w & Hrun & Hheap & Hsystem & Hhost & Hcomponents & _).
  { apply Forall_fmap. eapply Forall_impl; [exact Hvalid|].
    intros u Hu u' [= <-]. exact Hu. }
  unfold unmount. rewrite Hthis, Hfields, Hmounted, Hrun.
  eexists. split; [reflexivity|]. cbn [store component_fields].
  split_and!; try done.
  cbn [component_heap with_component_heap]. rewrite Hcomponents.
  apply list_eq. intros j. rewrite list_lookup_alter.
  destruct (decide (j = self)) as [->|Hj].
  - rewrite decide_True by done.
    rewrite Hthis, list_lookup_insert_eq by (by eapply lookup_lt_Some). done.
  - rewrite decide_False by done. by rewrite list_lookup_insert_ne.
Qed.

(** X20. [unmount] of a mounted component calls every function that
    [subscribe] collected: each Observable loses the callbacks collected
    for it and as many units of its [subscriptions] counter, and nothing
    else of it changes.  The component is left unmounted, without element
    and with nothing collected, its metrics, state and props as they were,
    and the system is untouched; a second [unmount] does nothing.  On a
    component that is not mounted [unmount] does nothing at all: what the
    component collected stays subscribed. *)
Theorem unmount_releases_the_subscriptions (self : nat) (p : Page) (this : Component)
        (fields : ComponentFields) :
  component_heap (store p) !! self = Some this →
  component_fields p !! self = Some fields →
  Forall (λ u, is_Some (heap (store p) !! subscribed_to u)) (_subscriptions fields) →
  if _mounted this then
    ∃ p' this' fields',
      unmount self p = Some p' ∧
      unmount self p' = Some p' ∧
      component_heap (store p') !! self = Some this' ∧
      _mounted this' = false ∧
      component_metrics this' = component_metrics this ∧
      component_fields p' !! self = Some fields' ∧
      _subscriptions fields' = [] ∧
      _element fields' = None ∧
      component_state fields' = component_state fields ∧
      component_props fields' = component_props fields ∧
      system (store p') = system (store p) ∧
      length (heap (store p')) = length (heap (store p)) ∧
      (∀ a o,
         heap (store p) !! a = Some o →
         ∃ o',
           heap (store p') !! a = Some o' ∧
           same_but_subscribers o o' ∧
           Set_entries (_subscribers o') =
             filter (λ g, g ∉ collected_on a (_subscriptions fields))
                    (Set_entries (_subscribers o)) ∧
           subscriptions (_metrics o') =
             subscriptions (_metrics o)
             - Z.of_nat (length (collected_on a (_subscriptions fields))))
  else unmount self p = Some p.
Proof.
  intros Hthis Hfields Hvalid. destruct (_mounted this) eqn:Hmounted.
  - destruct (unmount_mounted self p this fields Hthis Hfields Hmounted Hvalid)
      as (p' & Hrun & Hheap & Hsystem & _ & Hcomponents & Hfields').
    set (this' := mkComponent _ _ _ _ _) in Hcomponents.
    set (fields' := mkComponentFields _ _ _ _) in Hfields'.
    assert (Hthis' : component_heap (store p') !! self = Some this').
    { rewrite Hcomponents. apply list_lookup_insert_eq. by eapply lookup_lt_Some. }
    assert (Hfs' : component_fields p' !! self = Some fields').
    { rewrite Hfields'. apply list_lookup_insert_eq. by eapply lookup_lt_Some. }
    exists p', this', fields'. split_and!; try done.
    + unfold unmount. rewrite Hthis', Hfs'. reflexivity.
    + rewrite Hheap. apply length_imap.
    + intros a o Ho. exists (foldl unsubscribed o (collected_on a (_subscriptions fields))).
      destruct (foldl_unsubscribed (collected_on a (_subscriptions fields)) o)
        as (Hsame & Hcount & Hentries).
      split_and!; try done.
      rewrite Hheap, list_lookup_imap, Ho. reflexivity.
  - unfold unmount. by rewrite Hthis, Hfields, Hmounted.
Qed.

Lemma unmount_releases_the_subscriptions_witness :
  ∃ p' o',
    unmount 0 subscribed_page = Some p' ∧
    unmount 0 p' = Some p' ∧
    heap (store p') !! 0%nat = Some o' ∧
    Set_entries (_subscribers o') = [] ∧
    subscriptions (_metrics o') = 0.
Proof.
  destruct (unmount_releases_the_subscriptions 0 subscribed_page
              (mkComponent "comp_1" "Counter" 0 true (mkComponentMetrics 0 0 0 0 0 0 None))
              (mkComponentFields ∅ ∅ None [mkUnsubscriber 0 (UserFunction 0)])
              eq_refl eq_refl)
    as (p' & this' & fields' & Hrun & Hagain & _ & _ & _ & _ & _ & _ & _ & _ & _ & _ & Hheap).
  - repeat constructor. vm_compute. eexists. reflexivity.
  - destruct (Hheap 0%nat (object_at 0 (store subscribed_page)) eq_refl)
      as (o' & Ho' & _ & Hentries & Hcount).
    exists p', o'. split; [exact Hrun|]. split; [exact Hagain|]. split; [exact Ho'|].
    split; [exact Hentries | exact Hcount].
Defined.

Lemma collected_on_app a handles handles' :
  collected_on a (handles ++ handles') = collected_on a handles ++ collected_on a handles'.
Proof. unfold collected_on, handles_on. by rewrite fmap_app, omap_app. Qed.

(** X21. [Component.subscribe] without a valid Observable returns the empty
    function and changes nothing; with a callback that is no function, the
    error of [Observable.subscribe] comes through and nothing is collected.
    Otherwise the callback is subscribed to the Observable, whose counter
    grows by one, and the returned function is appended to the collected
    ones.  If the component is mounted, an [unmount] then removes the
    callback from the Observable and takes the counter down by one more
    than the number of callbacks collected for that Observable before; if
    it is not mounted, [unmount] does nothing. *)
Theorem component_subscribe_collects (self obs : nat) (p : Page) (this : Component)
        (fields : ComponentFields) (o : Observable) :
  component_heap (store p) !! self = Some this →
  component_fields p !! self = Some fields →
  heap (store p) !! obs = Some o →
  Forall (λ u, is_Some (heap (store p) !! subscribed_to u)) (_subscriptions fields) →
  (∀ listener, Component_subscribe self None listener p = Some (Normal None, p)) ∧
  (∀ listener,
     is_function listener = false →
     Component_subscribe self (Some obs) listener p =
       Some (Throw (new_Error (store p) "Subscriber must be a function"), p)) ∧
  (∀ f,
     ∃ p1 o1,
       Component_subscribe self (Some obs) (VFunction f) p =
         Some (Normal (Some (mkUnsubscriber obs f)), p1) ∧
       heap (store p1) = <[obs := o1]> (heap (store p)) ∧
       f ∈ Set_entries (_subscribers o1) ∧
       subscriptions (_metrics o1) = subscriptions (_metrics o) + 1 ∧
       system (store p1) = system (store p) ∧
       component_heap (store p1) = component_heap (store p) ∧
       component_fields p1 =
         <[self := mkComponentFields (component_props fields) (component_state fields)
                     (_element fields)
                     (_subscriptions fields ++ [mkUnsubscriber obs f])]>
           (component_fields p) ∧
       if _mounted this then
         ∃ p2 o2,
           unmount self p1 = Some p2 ∧
           heap (store p2) !! obs = Some o2 ∧
           (f ∉ Set_entries (_subscribers o2)) ∧
           subscriptions (_metrics o2) =
             subscriptions (_metrics o)
             - Z.of_nat (length (collected_on obs (_subscriptions fields)))
       else unmount self p1 = Some p1).
Proof.
  intros Hthis Hfields Ho Hvalid. split_and!.
  - done.
  - intros listener Hlistener. unfold Component_subscribe.
    assert (Hthrows : subscribe obs listener (store p) =
                      Some (Throw (new_Error (store p) "Subscriber must be a function"),
                            store p)) by (by destruct listener).
    rewrite Hthrows. by destruct p.
  - intros f. unfold Component_subscribe. rewrite (subscribe_at obs f (store p) o Ho).
    fold (subscribed o f).
    set (collected := mkComponentFields _ _ _ (_subscriptions fields ++ _)).
    set (p1 := mkPage _ _).
    assert (Hfields1 : component_fields p1 =
                       <[self := collected]> (component_fields p)).
    { subst p1. cbn [component_fields]. apply list_eq. intros j. rewrite list_lookup_alter.
      destruct (decide (j = self)) as [->|Hj].
      - rewrite decide_True by done.
        rewrite Hfields, list_lookup_insert_eq by (by eapply lookup_lt_Some). done.
      - rewrite decide_False by done. by rewrite list_lookup_insert_ne. }
    exists p1, (subscribed o f). split_and!; try done.
    + cbn [subscribed _subscribers with_subscribers with_observable_metrics].
      apply Set_add_has.
    + destruct (_mounted this) eqn:Hmounted.
      * assert (Hlookup1 : component_fields p1 !! self = Some collected).
        { rewrite Hfields1. apply list_lookup_insert_eq. by eapply lookup_lt_Some. }
        assert (Hvalid1 : Forall (λ u, is_Some (heap (store p1) !! subscribed_to u))
                                 (_subscriptions collected)).
        { subst collected p1. cbn [_subscriptions store heap with_heap].
          apply Forall_app. split.
          - eapply Forall_impl; [exact Hvalid|]. intros u Hu. cbn beta in *.
            apply lookup_lt_is_Some. rewrite length_insert. by apply lookup_lt_is_Some.
          - repeat constructor. cbn [subscribed_to]. apply lookup_lt_is_Some.
            rewrite length_insert. by eapply lookup_lt_Some. }
        destruct (unmount_mounted self p1 this collected Hthis Hlookup1 Hmounted Hvalid1)
          as (p2 & Hrun & Hheap & _).
        destruct (foldl_unsubscribed (collected_on obs (_subscriptions collected))
                                     (subscribed o f)) as (_ & Hcount & Hentries).
        cbn zeta in *.
        exists p2, (foldl unsubscribed (subscribed o f)
                          (collected_on obs (_subscriptions collected))).
        split_and!.
        -- exact Hrun.
        -- rewrite Hheap, list_lookup_imap. subst p1. cbn [store heap with_heap].
           rewrite list_lookup_insert_eq by (by eapply lookup_lt_Some). reflexivity.
        -- rewrite Hentries. intros [Hnot _]%list_elem_of_filter. apply Hnot.
           subst collected. cbn [_subscriptions]. rewrite collected_on_app.
           apply elem_of_app. right. unfold collected_on, handles_on. cbn.
           rewrite decide_True by done. apply list_elem_of_here.
        -- rewrite Hcount. subst collected. cbn [_subscriptions].
           rewrite collected_on_app, length_app.
           assert (Hone : length (collected_on obs [mkUnsubscriber obs f]) = 1%nat).
           { unfold collected_on, handles_on. cbn. by rewrite decide_True. }
           rewrite Hone. cbn [subscribed subscriptions _metrics with_subscribers
             with_observable_metrics with_subscriptions]. lia.
      * unfold unmount. subst p1. cbn [store component_heap with_heap component_fields].
        rewrite Hthis, Hmounted.
        destruct (alter _ self (component_fields p) !! self) eqn:Hsome; [done|].
        rewrite list_lookup_alter, decide_True, Hfields in Hsome by done. done.
Qed.

Lemma component_subscribe_collects_witness :
  ∃ p1 p2 o2,
    Component_subscribe 0 (Some 0%nat) (VFunction (UserFunction 0)) mounted_page =
      Some (Normal (Some (mkUnsubscriber 0 (UserFunction 0))), p1) ∧
    unmount 0 p1 = Some p2 ∧
    heap (store p2) !! 0%nat = Some o2 ∧
    (UserFunction 0 ∉ Set_entries (_subscribers o2)) ∧
    subscriptions (_metrics o2) = 0.
Proof.
  destruct (component_subscribe_collects 0 0 mounted_page
              (mkComponent "comp_1" "Counter" 0 true (mkComponentMetrics 0 0 0 0 0 0 None))
              (mkComponentFields ∅ ∅ None []) (object_at 0 (store mounted_page))
              eq_refl eq_refl eq_refl (List.Forall_nil _))
    as (_ & _ & Hsubscribe).
  destruct (Hsubscribe (UserFunction 0))
    as (p1 & o1 & Hrun & _ & _ & _ & _ & _ & _ & Hunmount).
  cbn [_mounted] in Hunmount.
  destruct Hunmount as (p2 & o2 & Hunmount & Ho2 & Hnot & Hcount).
  exists p1, p2, o2. split; [exact Hrun|]. split; [exact Hunmount|]. split; [exact Ho2|].
  split; [exact Hnot | exact Hcount].
Defined.
